(** * Semantic-change scoring: model selection, categorical fitting, APD metrics

    A shallow embedding of [semantic_change.py] and [semantic_change_scores.py].

    Conventions of the embedding.
    - Python control flow (exceptions, early [return], locals that may be
      unbound) is kept: functions that can raise live in the monad [Py.M],
      which also threads the state of numpy's process-wide random generator.
    - scikit-learn and kneed are external collaborators; they are the fields
      of the record [Externals] and every selector is parametric in it.
      [utils.apply_PCA] is a parameter of [get_APD_scores].
    - Python floats that only get compared (silhouette, inertia, BIC) are
      exact rationals ([Q]).
    - The quotients [count / length] and the distance metrics are read twice.
      The modules [semantic_change] and [semantic_change_scores] read them in
      exact arithmetic (rationals, and reals for the square roots): the
      statements about them say what the code computes before rounding.  The
      module [Binary64] reads the same lines on IEEE 754 binary64 numbers,
      Python's [float] and numpy's [float64]; it settles the statements that
      rounding can break. *)

From Stdlib Require Import ZArith QArith Qabs Reals Lra Lia List String Bool Permutation Sorted
  DecimalString.
From Stdlib Require PrimFloat FloatOps SpecFloat.
From stdpp Require Import gmap strings.
Import ListNotations.
Open Scope Z_scope.

(* ------------------------------------------------------------------ *)
(** ** The fragment of the Python runtime the code relies on           *)
(* ------------------------------------------------------------------ *)

Module Py.

Inductive exn : Type :=
| ValueError | NameError | UnboundLocalError | IndexError | KeyError
| ZeroDivisionError.

(** Outcome of a call: a value or a raised exception. *)
Inductive res (A : Type) : Type :=
| Ok (a : A)
| Raise (e : exn).
Arguments Ok {A} a.
Arguments Raise {A} e.

Definition res_bind {A B} (r : res A) (k : A -> res B) : res B :=
  match r with
  | Ok a => k a
  | Raise e => Raise e
  end.

(** [M G A]: a computation that may raise and that reads and writes the
    process-wide generator state [G]. *)
Definition M (G A : Type) : Type := G -> res A * G.

Definition ret {G A} (a : A) : M G A := fun g => (Ok a, g).
Definition raise {G A} (e : exn) : M G A := fun g => (Raise e, g).
Definition lift {G A} (r : res A) : M G A := fun g => (r, g).
Definition bind {G A B} (m : M G A) (k : A -> M G B) : M G B :=
  fun g => match m g with
           | (Ok a, g') => k a g'
           | (Raise e, g') => (Raise e, g')
           end.

(** Reading a local variable that an earlier statement may not have bound. *)
Definition local {G A} (v : option A) : M G A :=
  match v with
  | Some a => ret a
  | None => raise UnboundLocalError
  end.

(** [for x in xs: body], the loop-carried locals being the state [S]. *)
Fixpoint for_each {G A S} (xs : list A) (body : A -> S -> M G S) (s : S)
  : M G S :=
  match xs with
  | [] => ret s
  | x :: xs' => bind (body x s) (for_each xs' body)
  end.

(** A loop body either falls through to the next iteration or executes
    [return r]. *)
Inductive flow (S R : Type) : Type :=
| Next (s : S)
| Return (r : R).
Arguments Next {S R} s.
Arguments Return {S R} r.

Fixpoint for_each_ret {G A S R} (xs : list A)
         (body : A -> S -> M G (flow S R)) (s : S) : M G (flow S R) :=
  match xs with
  | [] => ret (Next s)
  | x :: xs' =>
      bind (body x s)
           (fun f => match f with
                     | Next s' => for_each_ret xs' body s'
                     | Return r => ret (Return r)
                     end)
  end.

(** [range(a, b)] *)
Definition range (a b : Z) : list Z :=
  map (fun i => a + Z.of_nat i) (seq 0 (Z.to_nat (b - a))).

(** [x < y] on floats. *)
Definition Qltb (x y : Q) : bool := negb (Qle_bool y x).

(** [max(iterable, key=key)]: the first maximal item; [ValueError] on an
    empty iterable. *)
Fixpoint max_from {A} (key : A -> Q) (best : A) (xs : list A) : A :=
  match xs with
  | [] => best
  | x :: xs' => if Qltb (key best) (key x) then max_from key x xs'
                else max_from key best xs'
  end.

Definition py_max_key {A} (key : A -> Q) (xs : list A) : res A :=
  match xs with
  | [] => Raise ValueError
  | x :: xs' => Ok (max_from key x xs')
  end.

Definition py_max (xs : list Q) : res Q := py_max_key (fun x => x) xs.

(** [min(iterable)] over integers. *)
Definition py_min (xs : list Z) : res Z :=
  match xs with
  | [] => Raise ValueError
  | x :: xs' => Ok (fold_left Z.min xs' x)
  end.

(** A [dict] keyed by integers: an association list in insertion order, as
    iteration over a dict is.  Assigning to a present key keeps its place. *)
Definition dict (V : Type) : Type := list (Z * V).

Fixpoint dict_set {V} (d : dict V) (k : Z) (v : V) : dict V :=
  match d with
  | [] => [(k, v)]
  | (k', v') :: d' => if k' =? k then (k, v) :: d'
                      else (k', v') :: dict_set d' k v
  end.

Fixpoint dict_get {V} (d : dict V) (k : Z) : option V :=
  match d with
  | [] => None
  | (k', v') :: d' => if k' =? k then Some v' else dict_get d' k
  end.

(** [d[k]] *)
Definition subscript {V} (d : dict V) (k : Z) : res V :=
  match dict_get d k with
  | Some v => Ok v
  | None => Raise KeyError
  end.

Definition values {V} (d : dict V) : list V := map snd d.
Definition keys {V} (d : dict V) : list Z := map fst d.

(** [max(d, key=d.get)]: the first key, in insertion order, whose value is
    maximal. *)
Definition max_by_get (d : dict Q) : res Z :=
  res_bind (py_max_key snd d) (fun kv => Ok (fst kv)).

(** [seq[0]] *)
Definition first {A} (xs : list A) : res A :=
  match xs with
  | [] => Raise IndexError
  | x :: _ => Ok x
  end.

(** [len(xs)] *)
Definition len {A} (xs : list A) : Z := Z.of_nat (length xs).

(** [xs[:n]] and [xs[n:]]; a negative bound counts from the end. *)
Definition slice_bound {A} (xs : list A) (n : Z) : nat :=
  if n <? 0 then Z.to_nat (Z.max 0 (len xs + n)) else Z.to_nat n.

Definition slice_to {A} (xs : list A) (n : Z) : list A :=
  firstn (slice_bound xs n) xs.

Definition slice_from {A} (xs : list A) (n : Z) : list A :=
  skipn (slice_bound xs n) xs.

(** [a / b] on integers: true division. *)
Definition truediv (a b : Z) : res Q :=
  if b =? 0 then Raise ZeroDivisionError
  else Ok (Qred (inject_Z a / inject_Z b)).

(** A list comprehension whose element expression may raise. *)
Fixpoint comprehension {A B} (f : A -> res B) (xs : list A) : res (list B) :=
  match xs with
  | [] => Ok []
  | x :: xs' =>
      res_bind (f x) (fun y =>
      res_bind (comprehension f xs') (fun ys => Ok (y :: ys)))
  end.

(** [set(xs)]: the distinct elements.  The iteration order of a Python set is
    unspecified; the code sorts before it uses the order. *)
Fixpoint py_set (xs : list Z) : list Z :=
  match xs with
  | [] => []
  | x :: xs' => if existsb (Z.eqb x) xs' then py_set xs' else x :: py_set xs'
  end.

(** [k in d.keys()] *)
Definition dict_mem {V} (d : dict V) (k : Z) : bool :=
  existsb (Z.eqb k) (keys d).

(** [Counter(xs)]: a dict from element to number of occurrences, in order of
    first occurrence. *)
Definition Counter (xs : list Z) : dict Z :=
  fold_left (fun d x => dict_set d x (match dict_get d x with
                                      | Some c => c + 1
                                      | None => 1
                                      end)) xs [].

(** [sorted(pairs)]: tuples compare lexicographically. *)
Definition tuple_leb (a b : Z * Z) : bool :=
  (fst a <? fst b) || ((fst a =? fst b) && (snd a <=? snd b)).

Fixpoint insert_sorted (x : Z * Z) (l : list (Z * Z)) : list (Z * Z) :=
  match l with
  | [] => [x]
  | y :: l' => if tuple_leb x y then x :: l else y :: insert_sorted x l'
  end.

Definition sorted (l : list (Z * Z)) : list (Z * Z) :=
  fold_right insert_sorted [] l.

(** [xs.count(x)] *)
Definition count (x : Z) (xs : list Z) : Z := len (List.filter (Z.eqb x) xs).

(** [for x in xs: body] for code that can raise but draws no random number. *)
Fixpoint res_for_each {A S} (xs : list A) (body : A -> S -> res S) (s : S)
  : res S :=
  match xs with
  | [] => Ok s
  | x :: xs' => res_bind (body x s) (res_for_each xs' body)
  end.


(** A [dict] keyed by strings, in insertion order. *)
Definition sdict (V : Type) : Type := list (string * V).

Fixpoint sdict_set {V} (d : sdict V) (k : string) (v : V) : sdict V :=
  match d with
  | [] => [(k, v)]
  | (k', v') :: d' => if (k' =? k)%string then (k, v) :: d'
                      else (k', v') :: sdict_set d' k v
  end.

Fixpoint sdict_get {V} (d : sdict V) (k : string) : option V :=
  match d with
  | [] => None
  | (k', v') :: d' => if (k' =? k)%string then Some v' else sdict_get d' k
  end.


End Py.

Import Py.

Declare Scope py_scope.
Delimit Scope py_scope with py.
Notation "x <- m ;; k" := (bind m (fun x => k))
  (at level 100, m at next level, right associativity) : py_scope.
Notation "x <-? r ;; k" := (res_bind r (fun x => k))
  (at level 100, r at next level, right associativity) : py_scope.

(* ------------------------------------------------------------------ *)
(** ** External collaborators                                          *)
(* ------------------------------------------------------------------ *)

(** The estimators the code constructs.  An argument the call does not pass
    is [None] and left to the library's default. *)
Inductive estimator : Type :=
| KMeans (n_clusters : Z) (max_iter : option Z) (random_state : option Z)
         (algorithm : option string)
| GaussianMixture (n_components : Z) (covariance_type : option string)
                  (reg_covar : option Q) (random_state : option Z).

Definition random_state_of (e : estimator) : option Z :=
  match e with
  | KMeans _ _ rs _ => rs
  | GaussianMixture _ _ _ rs => rs
  end.

(** scikit-learn and kneed.  An estimator built with an integer
    [random_state] draws from a private generator made from that seed
    ([fit_private]); with [random_state=None] it draws from numpy's
    process-wide generator and advances it ([fit_shared]). *)
Record Externals : Type := {
  point : Type;
  rng : Type;
  fitted : Type;
  fit_private : estimator -> list point -> fitted;
  fit_shared : estimator -> list point -> rng -> fitted * rng;
  labels_ : fitted -> list Z;
  inertia_ : fitted -> Q;
  bic : fitted -> list point -> Q;
  silhouette_score : list point -> list Z -> Q;
  all_elbows : list Z -> list Q -> list Z
}.

Section Estimators.
Context (L : Externals).

(** [clusterer.fit(data)] *)
Definition fit (clusterer : estimator) (data : list (point L))
  : M (rng L) (fitted L) :=
  match random_state_of clusterer with
  | Some _ => ret (fit_private L clusterer data)
  | None => fun g => let (f, g') := fit_shared L clusterer data g in
                     (Ok f, g')
  end.

(** [clusterer.fit_predict(data)] *)
Definition fit_predict (clusterer : estimator) (data : list (point L))
  : M (rng L) (list Z) :=
  bind (fit clusterer data) (fun f => ret (labels_ L f)).

(** [np.zeros(len(data))] *)
Definition np_zeros (data : list (point L)) : list Z :=
  repeat 0 (length data).
End Estimators.

(* ------------------------------------------------------------------ *)
(** ** numpy / scipy / sklearn.metrics on real vectors                 *)
(* ------------------------------------------------------------------ *)

Module Np.

Definition vec : Type := list R.

Definition Rsum (l : list R) : R := fold_right Rplus 0%R l.

(** [x - y], elementwise on arrays of one shape. *)
Definition sub (x y : vec) : vec := zip_with Rminus x y.

(** [np.linalg.norm(x)] *)
Definition norm (x : vec) : R := sqrt (Rsum (map (fun a => a * a)%R x)).

(** [np.linalg.norm(x, ord=1)] *)
Definition norm1 (x : vec) : R := Rsum (map Rabs x).

(** [scipy.spatial.distance.canberra(u, v)]; a 0/0 term counts as 0, which
    is what division by zero gives on a zero numerator here. *)
Definition canberra (u v : vec) : R :=
  Rsum (zip_with (fun a b => Rabs (a - b) / (Rabs a + Rabs b))%R u v).

Definition dot (x y : vec) : R := Rsum (zip_with Rmult x y).

(** Row normalisation of [sklearn.preprocessing.normalize]: a zero row is
    divided by 1. *)
Definition normalize_row (x : vec) : vec :=
  let n := norm x in
  let n := if Req_dec_T n 0 then 1%R else n in
  map (fun a => a / n)%R x.

(** [sklearn.metrics.pairwise.cosine_similarity(X, Y)] *)
Definition cosine_similarity (X Y : list vec) : list (list R) :=
  map (fun x => map (fun y => dot (normalize_row x) (normalize_row y)) Y) X.

(** [np.mean] of a list and of a matrix. *)
Definition mean (l : list R) : R := (Rsum l / INR (length l))%R.

Definition mean2 (m : list (list R)) : R := mean (concat m).

End Np.

(** What [get_clusters_by_silhouette] hands back: the triple, or (in
    [semantic_change_scores.py]) an exception object returned as a value. *)
Inductive silhouette_result : Type :=
| Clusters (cluster_labels : list Z) (K : Z) (silhouette : Q)
| ExceptionObject (e : exn).

Open Scope py_scope.

(* ------------------------------------------------------------------ *)
(** ** semantic_change.py: clustering and categorical fitting          *)
(* ------------------------------------------------------------------ *)

Module semantic_change.
Section Clustering.
Context (L : Externals).

(** Legacy fixed-K heuristic.  [KMeans(n_clusters=K)] passes no
    [random_state]. *)
Definition get_kmeans_cluster_labels (data : list (point L)) (Ks : list Z)
  : M (rng L) (list Z * Z) :=
  st <- for_each Ks
          (fun K '(best_score, best_K, cluster_labels) =>
             let clusterer := KMeans K None None None in
             curr_cluster_labels <- fit_predict L clusterer data ;;
             let curr_score := silhouette_score L data curr_cluster_labels in
             if Qltb best_score curr_score
             then ret (curr_score, K, curr_cluster_labels)
             else ret (best_score, best_K, cluster_labels))
          ((1 # 10)%Q, 1, np_zeros L data) ;;
  let '(_, best_K, cluster_labels) := st in
  ret (cluster_labels, best_K).

Definition default_Ks : list Z := [2; 3; 4; 5].

Definition get_clusterer (model : string) (K seed : Z)
  : M (rng L) estimator :=
  if (model =? "kmeans")%string
  then ret (KMeans K None (Some seed) None)
  else if (model =? "gmm")%string
  then ret (GaussianMixture K None None (Some seed))
  else raise NameError.

(** Best silhouette over the K-by-seed grid.  The loop variable [K] stays
    bound to its last value after the loop; the refit reads it. *)
Definition get_clusters_by_silhouette (data : list (point L)) (model : string)
           (k_min k_max : Z) (seeds : list Z) (threshold : Q)
  : M (rng L) silhouette_result :=
  let Ks := range k_min (k_max + 1) in
  st <- for_each Ks
          (fun K '(silhouette_scores, best_seeds, _) =>
             silhouette_scores_K <-
               for_each seeds
                 (fun seed silhouette_scores_K =>
                    clusterer <- get_clusterer model K seed ;;
                    cluster_labels <- fit_predict L clusterer data ;;
                    ret (dict_set silhouette_scores_K seed
                           (silhouette_score L data cluster_labels)))
                 [] ;;
             best <- lift (py_max (values silhouette_scores_K)) ;;
             best_seed <- lift (max_by_get silhouette_scores_K) ;;
             ret (dict_set silhouette_scores K best,
                  dict_set best_seeds K best_seed,
                  Some K))
          ([], [], None) ;;
  let '(silhouette_scores, best_seeds, K) := st in
  best_silhouette <- lift (py_max (values silhouette_scores)) ;;
  if Qltb best_silhouette threshold
  then ret (Clusters (np_zeros L data) 1 0)
  else
    best_K <- lift (max_by_get silhouette_scores) ;;
    seed <- lift (subscript best_seeds best_K) ;;
    K <- local K ;;
    clusterer <- get_clusterer model K seed ;;
    cluster_labels <- fit_predict L clusterer data ;;
    ret (Clusters cluster_labels best_K best_silhouette).

Definition choose_kmeans_k_with_elbow (data : list (point L)) (k_min k_max : Z)
           (max_iter : Z) (seed : Z) (algorithm : string) : M (rng L) Z :=
  SSD_scores <- for_each (range k_min (k_max + 1))
                  (fun k SSD_scores =>
                     let clusterer :=
                       KMeans k (Some max_iter) (Some seed) (Some algorithm) in
                     f <- fit L clusterer data ;;
                     ret (SSD_scores ++ [inertia_ L f]))
                  [] ;;
  let elbows := all_elbows L (range k_min (k_max + 1)) SSD_scores in
  if len elbows =? 0 then ret k_max else lift (py_min elbows).

Definition covariance_types : list string :=
  ["spherical"; "tied"; "diag"; "full"]%string.

(** [verbose=False]; [lowest_bic = np.infty] is [None]. *)
Definition choose_gmm_params_with_bic (data : list (point L)) (k_min k_max : Z)
           (seed : Z) : M (rng L) (Z * string) :=
  st <- for_each (range k_min (k_max + 1))
          (fun k st =>
             for_each covariance_types
               (fun cv '(bic_scores, lowest_bic, best_K, best_cv) =>
                  let clusterer :=
                    GaussianMixture k (Some cv) (Some (1 # 10000)%Q)
                                    (Some seed) in
                  f <- fit L clusterer data ;;
                  let b := bic L f data in
                  let bic_scores := bic_scores ++ [b] in
                  if match lowest_bic with
                     | None => true
                     | Some lowest => Qltb b lowest
                     end
                  then ret (bic_scores, Some b, Some k, Some cv)
                  else ret (bic_scores, lowest_bic, best_K, best_cv))
               st)
          ([], None, None, None) ;;
  let '(_, _, best_K, best_cv) := st in
  best_K <- local best_K ;;
  best_cv <- local best_cv ;;
  ret (best_K, best_cv).

(** Elbow (k-means) or BIC (GMM) selection.  [best_cluster_labels] and
    [best_K] are bound only inside the branches. *)
Definition get_clusters_by_score (data : list (point L)) (model : string)
           (k_min k_max : Z) (seeds : list Z) : M (rng L) (list Z * Z) :=
  st <- (if (model =? "kmeans")%string then
           for_each seeds
             (fun seed '(best_silhouette, best_K, best_cluster_labels) =>
                K <- choose_kmeans_k_with_elbow data k_min k_max 200 seed
                       "auto" ;;
                let clusterer := KMeans K None (Some seed) None in
                cluster_labels <- fit_predict L clusterer data ;;
                let silhouette := silhouette_score L data cluster_labels in
                if Qltb best_silhouette silhouette
                then ret (silhouette, Some K, Some cluster_labels)
                else ret (best_silhouette, best_K, best_cluster_labels))
             (0%Q, None, None)
         else if (model =? "gmm")%string then
           seed0 <- lift (first seeds) ;;
           p <- choose_gmm_params_with_bic data k_min k_max seed0 ;;
           let '(best_K, best_cv) := p in
           seed0 <- lift (first seeds) ;;
           let clusterer :=
             GaussianMixture best_K (Some best_cv) (Some (1 # 10000)%Q)
                             (Some seed0) in
           best_cluster_labels <- fit_predict L clusterer data ;;
           ret (0%Q, Some best_K, Some best_cluster_labels)
         else ret (0%Q, None, None)) ;;
  let '(_, best_K, best_cluster_labels) := st in
  best_cluster_labels <- local best_cluster_labels ;;
  best_K <- local best_K ;;
  ret (best_cluster_labels, best_K).

End Clustering.

Definition fit_categoricals_from_clusters (cluster_assignments : list Z)
           (period1_length period2_length : Z) : res (list Q * list Q) :=
  let labels := py_set cluster_assignments in
  let period1 := slice_to cluster_assignments period1_length in
  let period1_counts := Counter period1 in
  let period1_counts :=
    period1_counts
      ++ map (fun num => (num, 0))
             (List.filter (fun num => negb (dict_mem (Counter period1) num)) labels) in
  let period1_counts := sorted period1_counts in
  probs1 <-? comprehension (fun '(_, count) => truediv count period1_length)
                           period1_counts ;;
  let period2 := slice_from cluster_assignments period1_length in
  let period2_counts := Counter period2 in
  let period2_counts :=
    period2_counts
      ++ map (fun num => (num, 0))
             (List.filter (fun num => negb (dict_mem (Counter period2) num)) labels) in
  let period2_counts := sorted period2_counts in
  probs2 <-? comprehension (fun '(_, count) => truediv count period2_length)
                           period2_counts ;;
  Ok (probs1, probs2).

(** What [compute_average_pairwise_difference] returns: a float, or the
    initial [APD = []] when no branch assigned it. *)
Inductive apd_value : Type :=
| Float (r : R)
| EmptyList.

Section Metrics.
Import Np.

(** The list built by [for x1 in period1_reps: for x2 in period2_reps:
    APD.append(f(x1, x2))]. *)
Definition pairwise (f : vec -> vec -> R) (period1_reps period2_reps : list vec)
  : list R :=
  flat_map (fun x1 => map (fun x2 => f x1 x2) period2_reps) period1_reps.

Definition scaled_l2 (x1 x2 : vec) : R :=
  (norm (sub x2 x1) / sqrt ((norm x1) ^ 2 + (norm x2) ^ 2))%R.

Definition scaled_l1 (x1 x2 : vec) : R :=
  (norm1 (sub x2 x1) / (norm1 x1 + norm1 x2))%R.

Definition scaled_canberra (x1 x2 : vec) : R := (canberra x1 x2 / 768)%R.

Definition scaled_cosine (period1_reps period2_reps : list vec) : R :=
  (0.5 * (1 - mean2 (cosine_similarity period1_reps period2_reps)))%R.

Definition compute_average_pairwise_difference
           (period1_reps period2_reps : list vec) (dist : string) : apd_value :=
  if (dist =? "euclidian")%string then
    Float (mean (pairwise (fun x1 x2 => norm (sub x2 x1))
                          period1_reps period2_reps))
  else if (dist =? "cosine")%string then
    Float (1 - mean2 (cosine_similarity period1_reps period2_reps))%R
  else if (dist =? "manhattan")%string then
    Float (mean (pairwise (fun x1 x2 => norm1 (sub x2 x1))
                          period1_reps period2_reps))
  else if (dist =? "canberra")%string then
    Float (mean (pairwise canberra period1_reps period2_reps))
  else if (dist =? "combined2")%string then
    let APD1 := mean (pairwise scaled_l2 period1_reps period2_reps) in
    let APD2 := scaled_cosine period1_reps period2_reps in
    Float (0.5 * (APD1 + APD2))%R
  else if (dist =? "combined3a")%string then
    let APD1 := mean (pairwise scaled_l2 period1_reps period2_reps) in
    let APD3 := mean (pairwise scaled_l1 period1_reps period2_reps) in
    let APD2 := scaled_cosine period1_reps period2_reps in
    Float (1 / 3 * (APD1 + APD2 + APD3))%R
  else if (dist =? "combined3b")%string then
    let APD1 := mean (pairwise scaled_l2 period1_reps period2_reps) in
    let APD3 := mean (pairwise scaled_canberra period1_reps period2_reps) in
    let APD2 := scaled_cosine period1_reps period2_reps in
    Float (1 / 3 * (APD1 + APD2 + APD3))%R
  else if (dist =? "combined4")%string then
    let APD1 := mean (pairwise scaled_l2 period1_reps period2_reps) in
    let APD3 := mean (pairwise scaled_l1 period1_reps period2_reps) in
    let APD4 := mean (pairwise scaled_canberra period1_reps period2_reps) in
    let APD2 := scaled_cosine period1_reps period2_reps in
    Float (1 / 4 * (APD1 + APD2 + APD3 + APD4))%R
  else EmptyList.

(** The columns of the table [get_APD_scores] builds. *)
Record APD_scores : Type := {
  word : list string;
  combined_APD : list apd_value
}.

(** [apply_PCA] comes from [utils]. *)
Context (apply_PCA : list vec -> Z -> list vec).

Definition get_APD_scores (corpus1_reps corpus2_reps : gmap string (list vec))
           (targets : list string) (dim : Z) (min_tweets : Z) : APD_scores :=
  fold_left
    (fun scores target =>
       match corpus1_reps !! target, corpus2_reps !! target with
       | Some X1, Some X2 =>
           let X := X1 ++ X2 in
           if (len X1 <=? min_tweets) || (len X2 <=? min_tweets)
           then scores
           else
             let X_reduced := apply_PCA X dim in
             {| word := word scores ++ [target];
                combined_APD :=
                  combined_APD scores
                    ++ [compute_average_pairwise_difference
                          (slice_to X_reduced (len X1))
                          (slice_from X_reduced (len X1))
                          "combined2"] |}
       | _, _ => scores
       end)
    targets
    {| word := []; combined_APD := [] |}.

End Metrics.

Section Scoring.
Import Np.

(** [x / np.linalg.norm(x)] for every row. *)
Definition normalize_vectors (X : list vec) : list vec :=
  map (fun x => map (fun a => a / norm x)%R x) X.

(** [scipy.stats.entropy] is a parameter. *)
Definition compute_entropy_difference (entropy : list Q -> R)
           (period1_probs period2_probs : list Q) : R :=
  Rabs (entropy period2_probs - entropy period1_probs).


(** [apply_PCA] and [apply_UMAP] come from [utils]. *)
Context (apply_PCA apply_UMAP : list vec -> Z -> list vec).


End Scoring.

Section Dbscan.
Context (L : Externals).

(** [DBSCAN(eps=epsilon, min_samples=min_samples).fit(data).labels_] and
    [data.shape[1]]. *)
Context (DBSCAN_labels : Q -> Z -> list (point L) -> list Z).
Context (shape1 : list (point L) -> Z).

(** [DBSCAN(...).fit(data)]: scikit-learn rejects an empty array with
    [ValueError]. *)
Definition DBSCAN_fit (data : list (point L)) (epsilon : Q) (min_samples : Z)
  : res (list Z) :=
  match data with
  | [] => Raise ValueError
  | _ :: _ => Ok (DBSCAN_labels epsilon min_samples data)
  end.

(** [silhouette_score(data, labels)] as it is called here, unguarded:
    scikit-learn first counts the distinct labels and raises [ValueError]
    unless 2 <= n_labels <= n_samples - 1. *)
Definition checked_silhouette_score (data : list (point L)) (labels : list Z)
  : res Q :=
  let n_labels := len (py_set labels) in
  if (2 <=? n_labels) && (n_labels <=? len labels - 1)
  then Ok (silhouette_score L data labels)
  else Raise ValueError.

(** The silhouette is [np.nan] ([None]) when every point is noise. *)
Definition cluster_with_dbscan (data : list (point L)) (epsilon : Q)
           (min_samples : Z) : res (option Q * Z * Q) :=
  labels <-? DBSCAN_fit data epsilon min_samples ;;
  let num_clusters :=
    len (py_set labels) - (if existsb (Z.eqb (-1)) labels then 1 else 0) in
  percent_noise <-? truediv (count (-1) labels) (len labels) ;;
  silhouette <-?
    (if Qeq_bool percent_noise 1 then Ok None
     else (s <-? checked_silhouette_score data labels ;; Ok (Some s))) ;;
  Ok (silhouette, num_clusters, percent_noise).

(** The table [grid_search_dbscan] returns, column by column. *)
Record dbscan_table : Type := {
  epsilon : list Q;
  min_samples : list Z;
  silhouette : list (option Q);
  num_clusters : list Z;
  percent_noise : list Q;
  data_dim : Z
}.

Definition grid_search_dbscan (data : list (point L))
           (candidate_epsilons : list Q) (candidate_min_samples : list Z)
  : res dbscan_table :=
  results <-?
    res_for_each candidate_epsilons
      (fun eps results =>
         res_for_each candidate_min_samples
           (fun ms results =>
              r <-? cluster_with_dbscan data eps ms ;;
              let '(sil, n, noise) := r in
              Ok {| epsilon := epsilon results ++ [eps];
                    min_samples := min_samples results ++ [ms];
                    silhouette := silhouette results ++ [sil];
                    num_clusters := num_clusters results ++ [n];
                    percent_noise := percent_noise results ++ [noise];
                    data_dim := data_dim results |})
           results)
      {| epsilon := []; min_samples := []; silhouette := [];
         num_clusters := []; percent_noise := []; data_dim := 0 |} ;;
  Ok {| epsilon := epsilon results;
        min_samples := min_samples results;
        silhouette := silhouette results;
        num_clusters := num_clusters results;
        percent_noise := percent_noise results;
        data_dim := shape1 data |}.

End Dbscan.

End semantic_change.

(* ------------------------------------------------------------------ *)
(** ** semantic_change_scores.py: the second copy of the selectors     *)
(* ------------------------------------------------------------------ *)

Module semantic_change_scores.
Section Clustering.
Context (L : Externals).

(** The estimator is built inline; an unknown model name makes the loop body
    execute [return NameError(...)], which hands the exception object back
    as an ordinary value.  [clusterer] is a local of the whole function. *)
Definition get_clusters_by_silhouette (data : list (point L)) (model : string)
           (k_min k_max : Z) (seeds : list Z) (threshold : Q)
  : M (rng L) silhouette_result :=
  let Ks := range k_min (k_max + 1) in
  r <- for_each_ret Ks
         (fun K '(silhouette_scores, best_seeds, clusterer) =>
            r <- for_each_ret seeds
                   (fun seed '(silhouette_scores_K, _) =>
                      match (if (model =? "kmeans")%string
                             then Some (KMeans K None (Some seed) None)
                             else if (model =? "gmm")%string
                             then Some (GaussianMixture K None None (Some seed))
                             else None) with
                      | None => ret (Return (ExceptionObject NameError))
                      | Some clusterer =>
                          cluster_labels <- fit_predict L clusterer data ;;
                          ret (Next (dict_set silhouette_scores_K seed
                                       (silhouette_score L data cluster_labels),
                                     Some clusterer))
                      end)
                   ([], clusterer) ;;
            match r with
            | Return v => ret (Return v)
            | Next (silhouette_scores_K, clusterer) =>
                best <- lift (py_max (values silhouette_scores_K)) ;;
                best_seed <- lift (max_by_get silhouette_scores_K) ;;
                ret (Next (dict_set silhouette_scores K best,
                           dict_set best_seeds K best_seed,
                           clusterer))
            end)
         ([], [], None) ;;
  match r with
  | Return v => ret v
  | Next (silhouette_scores, best_seeds, clusterer) =>
      best_silhouette <- lift (py_max (values silhouette_scores)) ;;
      if Qltb best_silhouette threshold
      then ret (Clusters (np_zeros L data) 1 0)
      else
        best_K <- lift (max_by_get silhouette_scores) ;;
        seed <- lift (subscript best_seeds best_K) ;;
        clusterer <- local (if (model =? "kmeans")%string
                            then Some (KMeans best_K None (Some seed) None)
                            else if (model =? "gmm")%string
                            then Some (GaussianMixture best_K None None
                                                       (Some seed))
                            else clusterer) ;;
        cluster_labels <- fit_predict L clusterer data ;;
        ret (Clusters cluster_labels best_K best_silhouette)
  end.

Definition choose_kmeans_k_with_elbow (data : list (point L)) (k_min k_max : Z)
           (max_iter : Z) (seed : Z) (algorithm : string) : M (rng L) Z :=
  SSD_scores <- for_each (range k_min (k_max + 1))
                  (fun k SSD_scores =>
                     let clusterer :=
                       KMeans k (Some max_iter) (Some seed) (Some algorithm) in
                     f <- fit L clusterer data ;;
                     ret (SSD_scores ++ [inertia_ L f]))
                  [] ;;
  let elbows := all_elbows L (range k_min (k_max + 1)) SSD_scores in
  if len elbows =? 0 then ret k_max else lift (py_min elbows).

Definition covariance_types : list string :=
  ["spherical"; "tied"; "diag"; "full"]%string.

(** [verbose=False]; [lowest_bic = np.infty] is [None]. *)
Definition choose_gmm_params_with_bic (data : list (point L)) (k_min k_max : Z)
           (seed : Z) : M (rng L) (Z * string) :=
  st <- for_each (range k_min (k_max + 1))
          (fun k st =>
             for_each covariance_types
               (fun cv '(bic_scores, lowest_bic, best_K, best_cv) =>
                  let clusterer :=
                    GaussianMixture k (Some cv) (Some (1 # 10000)%Q)
                                    (Some seed) in
                  f <- fit L clusterer data ;;
                  let b := bic L f data in
                  let bic_scores := bic_scores ++ [b] in
                  if match lowest_bic with
                     | None => true
                     | Some lowest => Qltb b lowest
                     end
                  then ret (bic_scores, Some b, Some k, Some cv)
                  else ret (bic_scores, lowest_bic, best_K, best_cv))
               st)
          ([], None, None, None) ;;
  let '(_, _, best_K, best_cv) := st in
  best_K <- local best_K ;;
  best_cv <- local best_cv ;;
  ret (best_K, best_cv).

(** Elbow (k-means) or BIC (GMM) selection.  [best_cluster_labels] and
    [best_K] are bound only inside the branches. *)
Definition get_clusters_by_score (data : list (point L)) (model : string)
           (k_min k_max : Z) (seeds : list Z) : M (rng L) (list Z * Z) :=
  st <- (if (model =? "kmeans")%string then
           for_each seeds
             (fun seed '(best_silhouette, best_K, best_cluster_labels) =>
                K <- choose_kmeans_k_with_elbow data k_min k_max 200 seed
                       "auto" ;;
                let clusterer := KMeans K None (Some seed) None in
                cluster_labels <- fit_predict L clusterer data ;;
                let silhouette := silhouette_score L data cluster_labels in
                if Qltb best_silhouette silhouette
                then ret (silhouette, Some K, Some cluster_labels)
                else ret (best_silhouette, best_K, best_cluster_labels))
             (0%Q, None, None)
         else if (model =? "gmm")%string then
           seed0 <- lift (first seeds) ;;
           p <- choose_gmm_params_with_bic data k_min k_max seed0 ;;
           let '(best_K, best_cv) := p in
           seed0 <- lift (first seeds) ;;
           let clusterer :=
             GaussianMixture best_K (Some best_cv) (Some (1 # 10000)%Q)
                             (Some seed0) in
           best_cluster_labels <- fit_predict L clusterer data ;;
           ret (0%Q, Some best_K, Some best_cluster_labels)
         else ret (0%Q, None, None)) ;;
  let '(_, best_K, best_cluster_labels) := st in
  best_cluster_labels <- local best_cluster_labels ;;
  best_K <- local best_K ;;
  ret (best_cluster_labels, best_K).

End Clustering.

Definition fit_categoricals_from_clusters (cluster_assignments : list Z)
           (period1_length period2_length : Z) : res (list Q * list Q) :=
  let labels := py_set cluster_assignments in
  let period1 := slice_to cluster_assignments period1_length in
  let period1_counts := Counter period1 in
  let period1_counts :=
    period1_counts
      ++ map (fun num => (num, 0))
             (List.filter (fun num => negb (dict_mem (Counter period1) num)) labels) in
  let period1_counts := sorted period1_counts in
  probs1 <-? comprehension (fun '(_, count) => truediv count period1_length)
                           period1_counts ;;
  let period2 := slice_from cluster_assignments period1_length in
  let period2_counts := Counter period2 in
  let period2_counts :=
    period2_counts
      ++ map (fun num => (num, 0))
             (List.filter (fun num => negb (dict_mem (Counter period2) num)) labels) in
  let period2_counts := sorted period2_counts in
  probs2 <-? comprehension (fun '(_, count) => truediv count period2_length)
                           period2_counts ;;
  Ok (probs1, probs2).

Section Labels.
Context (L : Externals).

(** The fixed-K heuristic of this module; no [random_state] either. *)
Definition get_labels (data : list (point L)) (Ks : list Z)
  : M (rng L) (list Z * Z) :=
  st <- for_each Ks
          (fun K '(best_score, best_K, cluster_labels) =>
             let clusterer := KMeans K None None None in
             curr_cluster_labels <- fit_predict L clusterer data ;;
             let curr_score := silhouette_score L data curr_cluster_labels in
             if Qltb best_score curr_score
             then ret (curr_score, K, curr_cluster_labels)
             else ret (best_score, best_K, cluster_labels))
          ((1 # 10)%Q, 1, np_zeros L data) ;;
  let '(_, best_K, cluster_labels) := st in
  ret (cluster_labels, best_K).

End Labels.

Section Metrics.
Import Np.

Definition compute_average_pairwise_difference
           (period1_reps period2_reps : list vec) (dist : string) : semantic_change.apd_value :=
  if (dist =? "euclidian")%string then
    semantic_change.Float (mean (semantic_change.pairwise (fun x1 x2 => norm (sub x2 x1))
                          period1_reps period2_reps))
  else if (dist =? "cosine")%string then
    semantic_change.Float (1 - mean2 (cosine_similarity period1_reps period2_reps))%R
  else if (dist =? "manhattan")%string then
    semantic_change.Float (mean (semantic_change.pairwise (fun x1 x2 => norm1 (sub x2 x1))
                          period1_reps period2_reps))
  else if (dist =? "canberra")%string then
    semantic_change.Float (mean (semantic_change.pairwise canberra period1_reps period2_reps))
  else if (dist =? "combined2")%string then
    let APD1 := mean (semantic_change.pairwise semantic_change.scaled_l2 period1_reps period2_reps) in
    let APD2 := semantic_change.scaled_cosine period1_reps period2_reps in
    semantic_change.Float (0.5 * (APD1 + APD2))%R
  else if (dist =? "combined3a")%string then
    let APD1 := mean (semantic_change.pairwise semantic_change.scaled_l2 period1_reps period2_reps) in
    let APD3 := mean (semantic_change.pairwise semantic_change.scaled_l1 period1_reps period2_reps) in
    let APD2 := semantic_change.scaled_cosine period1_reps period2_reps in
    semantic_change.Float (1 / 3 * (APD1 + APD2 + APD3))%R
  else if (dist =? "combined3b")%string then
    let APD1 := mean (semantic_change.pairwise semantic_change.scaled_l2 period1_reps period2_reps) in
    let APD3 := mean (semantic_change.pairwise semantic_change.scaled_canberra period1_reps period2_reps) in
    let APD2 := semantic_change.scaled_cosine period1_reps period2_reps in
    semantic_change.Float (1 / 3 * (APD1 + APD2 + APD3))%R
  else if (dist =? "combined4")%string then
    let APD1 := mean (semantic_change.pairwise semantic_change.scaled_l2 period1_reps period2_reps) in
    let APD3 := mean (semantic_change.pairwise semantic_change.scaled_l1 period1_reps period2_reps) in
    let APD4 := mean (semantic_change.pairwise semantic_change.scaled_canberra period1_reps period2_reps) in
    let APD2 := semantic_change.scaled_cosine period1_reps period2_reps in
    semantic_change.Float (1 / 4 * (APD1 + APD2 + APD3 + APD4))%R
  else semantic_change.EmptyList.

(** The columns of the table this module's [get_APD_scores] builds. *)
Record APD_scores : Type := {
  word : list string;
  Euclidian_APD : list semantic_change.apd_value;
  cosine_APD : list semantic_change.apd_value;
  combined_APD : list semantic_change.apd_value
}.

Context (apply_PCA : list vec -> Z -> list vec).

Definition get_APD_scores (corpus1_reps corpus2_reps : gmap string (list vec))
           (targets : list string) (dim : Z) (min_tweets : Z) : APD_scores :=
  fold_left
    (fun scores target =>
       match corpus1_reps !! target, corpus2_reps !! target with
       | Some X1, Some X2 =>
           let X := X1 ++ X2 in
           if (len X1 <=? min_tweets) || (len X2 <=? min_tweets)
           then scores
           else
             let X_reduced := apply_PCA X dim in
             {| word := word scores ++ [target];
                Euclidian_APD :=
                  Euclidian_APD scores
                    ++ [compute_average_pairwise_difference
                          (slice_to X_reduced (len X1))
                          (slice_from X_reduced (len X1))
                          "euclidian"];
                cosine_APD :=
                  cosine_APD scores
                    ++ [compute_average_pairwise_difference
                          (slice_to X_reduced (len X1))
                          (slice_from X_reduced (len X1))
                          "cosine"];
                combined_APD :=
                  combined_APD scores
                    ++ [compute_average_pairwise_difference
                          (slice_to X_reduced (len X1))
                          (slice_from X_reduced (len X1))
                          "combined2"] |}
       | _, _ => scores
       end)
    targets
    {| word := []; Euclidian_APD := []; cosine_APD := []; combined_APD := [] |}.

End Metrics.

End semantic_change_scores.

(* ------------------------------------------------------------------ *)
(** ** The same lines on binary64 numbers                              *)
(* ------------------------------------------------------------------ *)

Module Binary64.

Definition float : Set := PrimFloat.float.

(** [float(n)] for an integer; exact below 2^53 in absolute value. *)
Definition of_int (n : Z) : float :=
  if n <? 0
  then PrimFloat.opp (PrimFloat.of_uint63 (Uint63Axioms.of_Z (- n)))
  else PrimFloat.of_uint63 (Uint63Axioms.of_Z n).

(** The float nearest to n/d: what the decimal literal of n/d denotes, 0.1
    being [ratio 1 10]. *)
Definition ratio (n d : Z) : float := PrimFloat.div (of_int n) (of_int d).

(** [a / b] on integers: the quotient rounded to the nearest float. *)
Definition truediv (a b : Z) : res float :=
  if b =? 0 then Raise ZeroDivisionError
  else Ok (PrimFloat.div (of_int a) (of_int b)).

(** The rational number a finite float stands for. *)
Definition to_Q (x : float) : Q :=
  match FloatOps.Prim2SF x with
  | SpecFloat.S754_finite s m e =>
      let v := (inject_Z (Z.pos m) * Qpower 2 e)%Q in
      if s then Qopp v else v
  | _ => 0%Q
  end.

(** Adding up in index order from 0.0: the loop [s += x], which is also the
    order of [np.sum] on fewer than 8 values (numpy adds longer arrays in
    blocks). *)
Definition np_sum (l : list float) : float :=
  fold_left PrimFloat.add l PrimFloat.zero.

(** [np.mean] of a list and of a matrix. *)
Definition mean (l : list float) : float :=
  PrimFloat.div (np_sum l) (of_int (len l)).

Definition mean2 (m : list (list float)) : float := mean (concat m).

Definition vec : Type := list float.

Definition sub (x y : vec) : vec := zip_with PrimFloat.sub x y.

(** [np.linalg.norm(x)]: the square root of [x.dot(x)]. *)
Definition dot (x y : vec) : float := np_sum (zip_with PrimFloat.mul x y).

Definition norm (x : vec) : float := PrimFloat.sqrt (dot x x).

(** [np.linalg.norm(x, ord=1)] *)
Definition norm1 (x : vec) : float := np_sum (map PrimFloat.abs x).

(** [scipy.spatial.distance.canberra(u, v)]: [np.nansum] counts a NaN term
    (0/0) as 0. *)
Definition canberra (u v : vec) : float :=
  np_sum (map (fun t => if PrimFloat.is_nan t then PrimFloat.zero else t)
              (zip_with (fun a b =>
                           PrimFloat.div
                             (PrimFloat.abs (PrimFloat.sub a b))
                             (PrimFloat.add (PrimFloat.abs a)
                                            (PrimFloat.abs b)))
                        u v)).

Definition normalize_row (x : vec) : vec :=
  let n := norm x in
  let n := if PrimFloat.eqb n PrimFloat.zero then PrimFloat.one else n in
  map (fun a => PrimFloat.div a n) x.

Definition cosine_similarity (X Y : list vec) : list (list float) :=
  map (fun x => map (fun y => dot (normalize_row x) (normalize_row y)) Y) X.

Definition fit_categoricals_from_clusters (cluster_assignments : list Z)
           (period1_length period2_length : Z)
  : res (list float * list float) :=
  let labels := py_set cluster_assignments in
  let period1 := slice_to cluster_assignments period1_length in
  let period1_counts := Counter period1 in
  let period1_counts :=
    period1_counts
      ++ map (fun num => (num, 0))
             (List.filter (fun num => negb (dict_mem (Counter period1) num)) labels) in
  let period1_counts := sorted period1_counts in
  probs1 <-? comprehension (fun '(_, count) => truediv count period1_length)
                           period1_counts ;;
  let period2 := slice_from cluster_assignments period1_length in
  let period2_counts := Counter period2 in
  let period2_counts :=
    period2_counts
      ++ map (fun num => (num, 0))
             (List.filter (fun num => negb (dict_mem (Counter period2) num)) labels) in
  let period2_counts := sorted period2_counts in
  probs2 <-? comprehension (fun '(_, count) => truediv count period2_length)
                           period2_counts ;;
  Ok (probs1, probs2).

Inductive apd_value : Type :=
| Float (x : float)
| EmptyList.

Definition pairwise (f : vec -> vec -> float)
           (period1_reps period2_reps : list vec) : list float :=
  flat_map (fun x1 => map (fun x2 => f x1 x2) period2_reps) period1_reps.

Definition square (x : float) : float := PrimFloat.mul x x.

Definition half : float := PrimFloat.div PrimFloat.one PrimFloat.two.

Definition scaled_l2 (x1 x2 : vec) : float :=
  PrimFloat.div (norm (sub x2 x1))
                (PrimFloat.sqrt (PrimFloat.add (square (norm x1))
                                               (square (norm x2)))).

Definition scaled_l1 (x1 x2 : vec) : float :=
  PrimFloat.div (norm1 (sub x2 x1)) (PrimFloat.add (norm1 x1) (norm1 x2)).

Definition scaled_canberra (x1 x2 : vec) : float :=
  PrimFloat.div (canberra x1 x2) (of_int 768).

Definition scaled_cosine (period1_reps period2_reps : list vec) : float :=
  PrimFloat.mul half
    (PrimFloat.sub PrimFloat.one
                   (mean2 (cosine_similarity period1_reps period2_reps))).

Definition compute_average_pairwise_difference
           (period1_reps period2_reps : list vec) (dist : string) : apd_value :=
  if (dist =? "euclidian")%string then
    Float (mean (pairwise (fun x1 x2 => norm (sub x2 x1))
                          period1_reps period2_reps))
  else if (dist =? "cosine")%string then
    Float (PrimFloat.sub PrimFloat.one
             (mean2 (cosine_similarity period1_reps period2_reps)))
  else if (dist =? "manhattan")%string then
    Float (mean (pairwise (fun x1 x2 => norm1 (sub x2 x1))
                          period1_reps period2_reps))
  else if (dist =? "canberra")%string then
    Float (mean (pairwise canberra period1_reps period2_reps))
  else if (dist =? "combined2")%string then
    let APD1 := mean (pairwise scaled_l2 period1_reps period2_reps) in
    let APD2 := scaled_cosine period1_reps period2_reps in
    Float (PrimFloat.mul half (PrimFloat.add APD1 APD2))
  else if (dist =? "combined3a")%string then
    let APD1 := mean (pairwise scaled_l2 period1_reps period2_reps) in
    let APD3 := mean (pairwise scaled_l1 period1_reps period2_reps) in
    let APD2 := scaled_cosine period1_reps period2_reps in
    Float (PrimFloat.mul (ratio 1 3)
             (PrimFloat.add (PrimFloat.add APD1 APD2) APD3))
  else if (dist =? "combined3b")%string then
    let APD1 := mean (pairwise scaled_l2 period1_reps period2_reps) in
    let APD3 := mean (pairwise scaled_canberra period1_reps period2_reps) in
    let APD2 := scaled_cosine period1_reps period2_reps in
    Float (PrimFloat.mul (ratio 1 3)
             (PrimFloat.add (PrimFloat.add APD1 APD2) APD3))
  else if (dist =? "combined4")%string then
    let APD1 := mean (pairwise scaled_l2 period1_reps period2_reps) in
    let APD3 := mean (pairwise scaled_l1 period1_reps period2_reps) in
    let APD4 := mean (pairwise scaled_canberra period1_reps period2_reps) in
    let APD2 := scaled_cosine period1_reps period2_reps in
    Float (PrimFloat.mul (ratio 1 4)
             (PrimFloat.add (PrimFloat.add (PrimFloat.add APD1 APD2) APD3)
                            APD4))
  else EmptyList.

End Binary64.

Definition Qsum (l : list Q) : Q := fold_right Qplus 0%Q l.

Definition Zsum (l : list Z) : Z := fold_right Z.add 0 l.

(* ------------------------------------------------------------------ *)
(** ** A small executable instance of the collaborators                *)
(* ------------------------------------------------------------------ *)

(** One-dimensional integer points, Lloyd's iteration for both estimators and
    the textbook silhouette.  The initial centres are the points at
    consecutive positions starting at the seed (private generator) or at the
    shared generator's state, which the fit then advances. *)
Module Stub.

Definition Qmean (l : list Q) : Q := Qred (Qsum l / inject_Z (len l)).

Definition Qdist (x : Z) (c : Q) : Q := Qabs (inject_Z x - c).

Fixpoint nearest_from (x : Z) (best : Z) (bestd : Q) (i : Z) (cs : list Q)
  : Z :=
  match cs with
  | [] => best
  | c :: cs' => if Qltb (Qdist x c) bestd
                then nearest_from x i (Qdist x c) (i + 1) cs'
                else nearest_from x best bestd (i + 1) cs'
  end.

Definition nearest (cs : list Q) (x : Z) : Z :=
  match cs with
  | [] => 0
  | c :: cs' => nearest_from x 0 (Qdist x c) 1 cs'
  end.

Definition members (labels data : list Z) (j : Z) : list Z :=
  map snd (List.filter (fun p => fst p =? j) (combine labels data)).

Definition update (cs : list Q) (labels data : list Z) : list Q :=
  map (fun '(j, c) => match members labels data j with
                      | [] => c
                      | ms => Qmean (map inject_Z ms)
                      end)
      (combine (range 0 (len cs)) cs).

Fixpoint lloyd (rounds : nat) (cs : list Q) (data : list Z) : list Q :=
  match rounds with
  | O => cs
  | S r => lloyd r (update cs (map (nearest cs) data) data) data
  end.

Definition init (K start : Z) (data : list Z) : list Q :=
  map (fun j => inject_Z (nth (Z.to_nat ((start + j) mod len data)) data 0))
      (range 0 K).

Record model : Type := {
  centres : list Q;
  assigned : list Z;
  sse : Q
}.

Definition run (K start : Z) (data : list Z) : model :=
  let cs := lloyd 8 (init K start data) data in
  let labels := map (nearest cs) data in
  {| centres := cs;
     assigned := labels;
     sse := Qred (Qsum (map (fun '(j, x) =>
                               let d := Qdist x (nth (Z.to_nat j) cs 0%Q) in
                               d * d)%Q
                            (combine labels data))) |}.

Definition components (e : estimator) : Z :=
  match e with
  | KMeans K _ _ _ => K
  | GaussianMixture K _ _ _ => K
  end.

Definition seed_of (e : estimator) : Z :=
  match random_state_of e with
  | Some s => s
  | None => 0
  end.

Definition Qmin2 (a b : Q) : Q := if Qle_bool a b then a else b.
Definition Qmax2 (a b : Q) : Q := if Qle_bool a b then b else a.

Definition silhouette_sample (data labels : list Z) (i : nat) : Q :=
  let x := nth i data 0 in
  let c := nth i labels 0 in
  let own := members labels data c in
  if len own <=? 1 then 0%Q
  else
    let a := (Qsum (map (fun y => Qdist y (inject_Z x)) own)
              / inject_Z (len own - 1))%Q in
    let others := List.filter (fun c' => negb (c' =? c)) (py_set labels) in
    let bs := map (fun c' => Qmean (map (fun y => Qdist y (inject_Z x))
                                        (members labels data c')))
                  others in
    match bs with
    | [] => 0%Q
    | b0 :: bs' => let b := fold_left Qmin2 bs' b0 in
                   Qred ((b - a) / Qmax2 a b)
    end.

Definition silhouette (data labels : list Z) : Q :=
  Qmean (map (silhouette_sample data labels) (seq 0 (length data))).

(** A bend of the curve: the drop before the point is more than twice the
    drop after it. *)
Fixpoint bends (xs : list Z) (ys : list Q) : list Z :=
  match xs, ys with
  | _ :: ((x :: _) as xs'), y0 :: ((y1 :: y2 :: _) as ys') =>
      if Qltb (2 * (y1 - y2)) (y0 - y1) then x :: bends xs' ys'
      else bends xs' ys'
  | _, _ => []
  end.

(** DBSCAN on the line, as scikit-learn runs it.  A point is a core point
    when at least [min_samples] points, itself included, lie within [eps] of
    it.  Clusters are grown depth first from the yet unlabelled core points,
    taken in index order; what no core point reaches keeps the noise
    label -1. *)
Definition neighbours (eps : Q) (data : list Z) (i : nat) : list nat :=
  List.filter
    (fun j => Qle_bool (inject_Z (Z.abs (nth i data 0 - nth j data 0))) eps)
    (seq 0 (length data)).

Definition is_core (eps : Q) (min_samples : Z) (data : list Z) (i : nat)
  : bool :=
  min_samples <=? len (neighbours eps data i).

Fixpoint grow (fuel : nat) (eps : Q) (min_samples : Z) (data : list Z)
         (label_num : Z) (labels : list Z) (i : nat) (stack : list nat)
  : list Z :=
  match fuel with
  | O => labels
  | S fuel' =>
      let fresh := nth i labels 0 =? -1 in
      let labels' := if fresh then <[i := label_num]> labels else labels in
      let stack' :=
        if fresh && is_core eps min_samples data i
        then rev (List.filter (fun v => nth v labels' 0 =? -1)
                              (neighbours eps data i)) ++ stack
        else stack in
      match stack' with
      | [] => labels'
      | v :: rest => grow fuel' eps min_samples data label_num labels' v rest
      end
  end.

Definition dbscan (eps : Q) (min_samples : Z) (data : list Z) : list Z :=
  let n := length data in
  fst (fold_left
         (fun '(labels, label_num) i =>
            if (nth i labels 0 =? -1) && is_core eps min_samples data i
            then (grow (n * n + n + 1) eps min_samples data label_num labels
                       i [], label_num + 1)
            else (labels, label_num))
         (seq 0 n) (repeat (-1) n, 0)).

Definition externals : Externals := {|
  point := Z;
  rng := Z;
  fitted := model;
  fit_private := fun e data => run (components e) (seed_of e) data;
  fit_shared := fun e data g => (run (components e) g data, g + 1);
  labels_ := assigned;
  inertia_ := sse;
  bic := fun f data =>
           Qred (sse f + inject_Z (len (centres f) * len data));
  silhouette_score := silhouette;
  all_elbows := bends
|}.

End Stub.

(* ------------------------------------------------------------------ *)
(** ** Notions used to state the properties                            *)
(* ------------------------------------------------------------------ *)

Section Notions.
Context {G : Type}.

(** [m] yields [r] whatever the generator state, and leaves it alone. *)
Definition evals {A} (m : M G A) (r : res A) : Prop :=
  forall g, m g = (r, g).

(** Two runs give the same outcome even when the process-wide generator is
    in different states. *)
Definition deterministic {A} (m : M G A) : Prop :=
  forall g1 g2, fst (m g1) = fst (m g2).

Definition generator_untouched {A} (m : M G A) : Prop :=
  forall g, snd (m g) = g.

(** [m] has an outcome that does not depend on the generator state. *)
Definition generator_free {A} (m : M G A) : Prop := exists r, evals m r.

End Notions.

Section Grid.
Context (L : Externals) (data : list (point L)).

(** The estimator of one grid cell, for the two supported families. *)
Definition clusterer_for (model : string) (K seed : Z) : estimator :=
  if (model =? "kmeans")%string
  then KMeans K None (Some seed) None
  else GaussianMixture K None None (Some seed).

(** Labels of the fit at one grid cell and their silhouette. *)
Definition cell_labels (model : string) (K seed : Z) : list Z :=
  labels_ L (fit_private L (clusterer_for model K seed) data).

Definition cell_score (model : string) (K seed : Z) : Q :=
  silhouette_score L data (cell_labels model K seed).

(** The K the elbow detector settles on for one seed, and the silhouette of
    the k-means refit at that K and seed. *)
Definition elbow_K (k_min k_max seed : Z) : Z :=
  let SSD_scores :=
    map (fun k => inertia_ L (fit_private L (KMeans k (Some 200) (Some seed)
                                                    (Some "auto"%string)) data))
        (range k_min (k_max + 1)) in
  let elbows := all_elbows L (range k_min (k_max + 1)) SSD_scores in
  match elbows with
  | [] => k_max
  | x :: xs => fold_left Z.min xs x
  end.

Definition refit_silhouette (k_min k_max seed : Z) : Q :=
  silhouette_score L data
    (labels_ L (fit_private L
                  (KMeans (elbow_K k_min k_max seed) None (Some seed) None)
                  data)).

(** The dict a loop [for x in xs: d[x] = f(x)] builds. *)
Definition tabulate {V} (f : Z -> V) (xs : list Z) : dict V :=
  fold_left (fun d x => dict_set d x (f x)) xs [].

(** Row K of the grid: silhouette per seed, its maximum and the first seed
    that attains it. *)
Definition row (model : string) (seeds : list Z) (K : Z) : dict Q :=
  tabulate (cell_score model K) seeds.

Definition row_best (model : string) (seeds : list Z) (K : Z) : Q :=
  match py_max (values (row model seeds K)) with
  | Ok v => v
  | Raise _ => 0%Q
  end.

Definition row_seed (model : string) (seeds : list Z) (K : Z) : Z :=
  match max_by_get (row model seeds K) with
  | Ok s => s
  | Raise _ => 0
  end.

(** Maximum over the whole grid and the first K that attains it. *)
Definition grid_best (model : string) (Ks seeds : list Z) : Q :=
  match py_max (values (tabulate (row_best model seeds) Ks)) with
  | Ok v => v
  | Raise _ => 0%Q
  end.

Definition grid_best_K (model : string) (Ks seeds : list Z) : Z :=
  match max_by_get (tabulate (row_best model seeds) Ks) with
  | Ok K => K
  | Raise _ => 0
  end.

(** Value of a loop variable after [for x in xs]. *)
Definition last_bound (xs : list Z) : option Z :=
  match rev xs with
  | [] => None
  | x :: _ => Some x
  end.

End Grid.

(** ** The categorical fitter in the words of its description *)

(** Number of occurrences of a label in a sequence. *)
Definition occurrences (l : Z) (period : list Z) : Z :=
  len (List.filter (Z.eqb l) period).

(** The distinct labels of an assignment, ascending. *)
Fixpoint insert_label (x : Z) (l : list Z) : list Z :=
  match l with
  | [] => [x]
  | y :: l' => if x <? y then x :: l
               else if x =? y then l
               else y :: insert_label x l'
  end.

Definition label_set (cluster_assignment : list Z) : list Z :=
  fold_right insert_label [] cluster_assignment.

(** For each label of the union, ascending: its count in the period, divided
    by the period length. *)
Definition categorical (labels period : list Z) (period_length : Z)
  : res (list Q) :=
  comprehension (fun l => truediv (occurrences l period) period_length) labels.

Definition fit_categoricals (cluster_assignment : list Z)
           (period1_length period2_length : Z) : res (list Q * list Q) :=
  let labels := label_set cluster_assignment in
  let period1 := firstn (Z.to_nat period1_length) cluster_assignment in
  let period2 := skipn (Z.to_nat period1_length) cluster_assignment in
  probs1 <-? categorical labels period1 period1_length ;;
  probs2 <-? categorical labels period2 period2_length ;;
  Ok (probs1, probs2).

(** The integer counts behind one vector: for each label of the whole
    assignment, ascending, its number of occurrences in the period. *)
Definition period_counts (cluster_assignment period : list Z) : list Z :=
  map (fun l => occurrences l period) (label_set cluster_assignment).

(** The quotients [count / period_length], exact and as binary64 numbers. *)
Definition exact_quotients (period_length : Z) (counts : list Z) : list Q :=
  map (fun c => Qred (inject_Z c / inject_Z period_length)) counts.

Definition binary64_quotients (period_length : Z) (counts : list Z)
  : list Binary64.float :=
  map (fun c => PrimFloat.div (Binary64.of_int c)
                              (Binary64.of_int period_length)) counts.

(** Tuples in strictly ascending order of their first component. *)
Definition lt_key (a b : Z * Z) : Prop := fst a < fst b.

(** ** Metrics and the APD table *)

Definition supported_metrics : list string :=
  ["euclidian"; "cosine"; "manhattan"; "canberra"; "combined2"; "combined3a";
   "combined3b"; "combined4"]%string.

(** A vector with at least one non-zero coordinate. *)
Definition nonzero_vector (v : Np.vec) : Prop := Exists (fun a => a <> 0%R) v.

Section Table.
Context (apply_PCA : list Np.vec -> Z -> list Np.vec).
Context (corpus1_reps corpus2_reps : gmap string (list Np.vec)).

(** A target is scored when both stores have it and both periods have more
    than [min_tweets] samples. *)
Definition scored (min_tweets : Z) (target : string) : bool :=
  match corpus1_reps !! target, corpus2_reps !! target with
  | Some X1, Some X2 => (min_tweets <? len X1) && (min_tweets <? len X2)
  | _, _ => false
  end.

(** The entry of the [combined_APD] column for a scored target. *)
Definition combined_APD_entry (dim : Z) (target : string)
  : semantic_change.apd_value :=
  match corpus1_reps !! target, corpus2_reps !! target with
  | Some X1, Some X2 =>
      let X_reduced := apply_PCA (X1 ++ X2) dim in
      semantic_change.compute_average_pairwise_difference
        (slice_to X_reduced (len X1)) (slice_from X_reduced (len X1))
        "combined2"
  | _, _ => semantic_change.EmptyList
  end.

End Table.

(** ** Notions for the score-driven selection *)

Section ScoreNotions.
Context (L : Externals) (data : list (point L)).

(** Labels of the k-means refit for one seed, at the K the elbow detector
    gave for that seed. *)
Definition refit_labels (k_min k_max seed : Z) : list Z :=
  labels_ L (fit_private L
               (KMeans (elbow_K L data k_min k_max seed) None (Some seed) None)
               data).





End ScoreNotions.

(* ------------------------------------------------------------------ *)
(** ** Reasoning about computations in [M]                             *)
(* ------------------------------------------------------------------ *)

Section MonadLemmas.
Context {G : Type}.

Lemma evals_ret {A} (a : A) : evals (G := G) (ret a) (Ok a).
Proof. intros g. reflexivity. Qed.

Lemma evals_raise {A} (e : exn) : evals (G := G) (A := A) (raise e) (Raise e).
Proof. intros g. reflexivity. Qed.

Lemma evals_lift {A} (r : res A) : evals (G := G) (lift r) r.
Proof. intros g. reflexivity. Qed.

Lemma evals_bind {A B} (m : M G A) (k : A -> M G B) a r :
  evals m (Ok a) -> evals (k a) r -> evals (bind m k) r.
Proof. intros Hm Hk g. unfold bind. rewrite Hm. apply Hk. Qed.

Lemma evals_bind_raise {A B} (m : M G A) (k : A -> M G B) e :
  evals m (Raise e) -> evals (bind m k) (Raise e).
Proof. intros Hm g. unfold bind. rewrite Hm. reflexivity. Qed.

Lemma evals_local_some {A} (a : A) : evals (G := G) (local (Some a)) (Ok a).
Proof. intros g. reflexivity. Qed.

Lemma evals_for_each_from {A S} (I : list A -> S -> Prop) (body : A -> S -> M G S)
      (xs pre0 : list A) (s0 : S) :
  I pre0 s0 ->
  (forall pre x s, I pre s -> In x xs ->
                   exists s', evals (body x s) (Ok s') /\ I (pre ++ [x]) s') ->
  exists s', evals (for_each xs body s0) (Ok s') /\ I (pre0 ++ xs) s'.
Proof.
  revert pre0 s0.
  induction xs as [|x xs IH]; intros pre0 s0 H0 Hstep.
  - exists s0. split; [apply evals_ret | now rewrite app_nil_r].
  - destruct (Hstep pre0 x s0 H0 (or_introl eq_refl)) as (s1 & Hx & H1).
    destruct (IH (pre0 ++ [x]) s1 H1) as (s' & Hrun & Hs').
    + intros pre y s Hpre Hy. apply Hstep; [exact Hpre | now right].
    + exists s'. split.
      * simpl. eapply evals_bind; eassumption.
      * now rewrite <- app_assoc in Hs'.
Qed.

(** Loop rule: an invariant indexed by the items already processed. *)
Lemma evals_for_each {A S} (I : list A -> S -> Prop) (body : A -> S -> M G S)
      (xs : list A) (s0 : S) :
  I [] s0 ->
  (forall pre x s, I pre s -> In x xs ->
                   exists s', evals (body x s) (Ok s') /\ I (pre ++ [x]) s') ->
  exists s', evals (for_each xs body s0) (Ok s') /\ I xs s'.
Proof. intros H0 Hstep. exact (evals_for_each_from I body xs [] s0 H0 Hstep). Qed.

(** The same rule for loops whose body may [return]: here for bodies that
    never do. *)
Lemma evals_for_each_ret {A S R} (I : list A -> S -> Prop)
      (body : A -> S -> M G (flow S R)) (xs pre0 : list A) (s0 : S) :
  I pre0 s0 ->
  (forall pre x s, I pre s -> In x xs ->
                   exists s', evals (body x s) (Ok (Next s'))
                              /\ I (pre ++ [x]) s') ->
  exists s', evals (for_each_ret xs body s0) (Ok (Next s'))
             /\ I (pre0 ++ xs) s'.
Proof.
  revert pre0 s0.
  induction xs as [|x xs IH]; intros pre0 s0 H0 Hstep.
  - exists s0. split; [apply evals_ret | now rewrite app_nil_r].
  - destruct (Hstep pre0 x s0 H0 (or_introl eq_refl)) as (s1 & Hx & H1).
    destruct (IH (pre0 ++ [x]) s1 H1) as (s' & Hrun & Hs').
    + intros pre y s Hpre Hy. apply Hstep; [exact Hpre | now right].
    + exists s'. split.
      * simpl. eapply evals_bind; [exact Hx | exact Hrun].
      * now rewrite <- app_assoc in Hs'.
Qed.

(** ** Computations that never consult the generator *)

Lemma generator_free_ret {A} (a : A) : generator_free (G := G) (ret a).
Proof. eexists. apply evals_ret. Qed.

Lemma generator_free_raise {A} (e : exn) :
  generator_free (G := G) (A := A) (raise e).
Proof. eexists. apply evals_raise. Qed.

Lemma generator_free_lift {A} (r : res A) : generator_free (G := G) (lift r).
Proof. eexists. apply evals_lift. Qed.

Lemma generator_free_local {A} (v : option A) :
  generator_free (G := G) (local v).
Proof. destruct v; [apply generator_free_ret | apply generator_free_raise]. Qed.

Lemma generator_free_bind {A B} (m : M G A) (k : A -> M G B) :
  generator_free m -> (forall a, generator_free (k a)) ->
  generator_free (bind m k).
Proof.
  intros [[a|e] Hm] Hk.
  - destruct (Hk a) as [r Hr]. exists r. eapply evals_bind; eassumption.
  - exists (Raise e). now apply evals_bind_raise.
Qed.

Lemma generator_free_for_each {A S} (body : A -> S -> M G S) xs s :
  (forall x s, generator_free (body x s)) ->
  generator_free (for_each xs body s).
Proof.
  intros Hbody. revert s.
  induction xs as [|x xs IH]; intros s; simpl.
  - apply generator_free_ret.
  - apply generator_free_bind; [apply Hbody | exact IH].
Qed.

Lemma generator_free_for_each_ret {A S R} (body : A -> S -> M G (flow S R))
      xs s :
  (forall x s, generator_free (body x s)) ->
  generator_free (for_each_ret xs body s).
Proof.
  intros Hbody. revert s.
  induction xs as [|x xs IH]; intros s; simpl.
  - apply generator_free_ret.
  - apply generator_free_bind; [apply Hbody |].
    intros [s'|r]; [apply IH | apply generator_free_ret].
Qed.

Lemma generator_free_deterministic {A} (m : M G A) :
  generator_free m -> deterministic m /\ generator_untouched m.
Proof.
  intros [r Hr]. split.
  - intros g1 g2. now rewrite !Hr.
  - intros g. now rewrite Hr.
Qed.

End MonadLemmas.

(** ** Seeded estimators *)

Section SeededFits.
Context (L : Externals).

Lemma evals_fit_seeded (e : estimator) (data : list (point L)) s :
  random_state_of e = Some s ->
  evals (fit L e data) (Ok (fit_private L e data)).
Proof. intros Hs g. unfold fit. now rewrite Hs. Qed.

Lemma evals_fit_predict_seeded (e : estimator) (data : list (point L)) s :
  random_state_of e = Some s ->
  evals (fit_predict L e data) (Ok (labels_ L (fit_private L e data))).
Proof.
  intros Hs. unfold fit_predict.
  eapply evals_bind; [eapply evals_fit_seeded; eassumption | apply evals_ret].
Qed.

Lemma generator_free_fit_seeded (e : estimator) (data : list (point L)) s :
  random_state_of e = Some s -> generator_free (fit L e data).
Proof. intros Hs. eexists. eapply evals_fit_seeded; eassumption. Qed.

Lemma generator_free_fit_predict_seeded (e : estimator) (data : list (point L)) s :
  random_state_of e = Some s -> generator_free (fit_predict L e data).
Proof. intros Hs. eexists. eapply evals_fit_predict_seeded; eassumption. Qed.

End SeededFits.

Section SeededFitsBind.
Context {G : Type}.

Lemma generator_free_bind_ret {A B} (a : A) (k : A -> M G B) :
  generator_free (k a) -> generator_free (bind (ret a) k).
Proof. intros [r Hr]. exists r. eapply evals_bind; [apply evals_ret | exact Hr]. Qed.

Lemma generator_free_bind_raise {A B} (e : exn) (k : A -> M G B) :
  generator_free (bind (raise e) k).
Proof. exists (Raise e). apply evals_bind_raise, evals_raise. Qed.

Lemma generator_free_bind_local {A B} (a : A) (k : A -> M G B) :
  generator_free (k a) -> generator_free (bind (local (Some a)) k).
Proof. exact (generator_free_bind_ret a k). Qed.

End SeededFitsBind.

(** Discharges [generator_free] goals by following the structure of the
    code: every fit met on the way must carry an integer [random_state]. *)
Ltac gfree_step :=
  lazymatch goal with
  | |- generator_free (ret _) => apply generator_free_ret
  | |- generator_free (raise _) => apply generator_free_raise
  | |- generator_free (lift _) => apply generator_free_lift
  | |- generator_free (local _) => apply generator_free_local
  | |- generator_free (for_each _ _ _) =>
      apply generator_free_for_each; intros
  | |- generator_free (for_each_ret _ _ _) =>
      apply generator_free_for_each_ret; intros
  | |- generator_free (fit_predict _ _ _) =>
      eapply generator_free_fit_predict_seeded; reflexivity
  | |- generator_free (fit _ _ _) =>
      eapply generator_free_fit_seeded; reflexivity
  | |- generator_free (bind (ret _) _) => apply generator_free_bind_ret
  | |- generator_free (bind (local (Some _)) _) =>
      apply generator_free_bind_local
  | |- generator_free (bind (raise _) _) => apply generator_free_bind_raise
  | |- generator_free (bind (if ?c then _ else _) _) => destruct c
  | |- generator_free (bind (match ?x with _ => _ end) _) => destruct x
  | |- generator_free (bind _ _) => apply generator_free_bind; [| intros]
  | |- generator_free (if ?c then _ else _) => destruct c
  | |- generator_free (match ?x with _ => _ end) => destruct x
  end.

Ltac gfree := repeat gfree_step.

Section Determinism.
Context (L : Externals).

Lemma sc_silhouette_generator_free data model k_min k_max seeds threshold :
  generator_free
    (semantic_change.get_clusters_by_silhouette L data model k_min k_max seeds
                                                threshold).
Proof.
  unfold semantic_change.get_clusters_by_silhouette,
    semantic_change.get_clusterer.
  gfree.
Qed.

Lemma scs_silhouette_generator_free data model k_min k_max seeds threshold :
  generator_free
    (semantic_change_scores.get_clusters_by_silhouette L data model k_min k_max
                                                       seeds threshold).
Proof.
  unfold semantic_change_scores.get_clusters_by_silhouette.
  destruct (model =? "kmeans")%string; [gfree |].
  destruct (model =? "gmm")%string; [gfree |].
  (* unknown model: the first grid cell returns, an empty grid raises *)
  destruct (range k_min (k_max + 1)) as [|K Ks];
    [| destruct seeds as [|seed seeds']];
    eexists; intros g; reflexivity.
Qed.

Lemma sc_score_generator_free data model k_min k_max seeds :
  generator_free
    (semantic_change.get_clusters_by_score L data model k_min k_max seeds).
Proof.
  unfold semantic_change.get_clusters_by_score,
    semantic_change.choose_gmm_params_with_bic,
    semantic_change.choose_kmeans_k_with_elbow.
  gfree.
Qed.

Lemma scs_score_generator_free data model k_min k_max seeds :
  generator_free
    (semantic_change_scores.get_clusters_by_score L data model k_min k_max
                                                  seeds).
Proof.
  unfold semantic_change_scores.get_clusters_by_score,
    semantic_change_scores.choose_gmm_params_with_bic,
    semantic_change_scores.choose_kmeans_k_with_elbow.
  gfree.
Qed.

End Determinism.

(** ** Comparisons on [Q] *)

Lemma Qltb_true x y : Qltb x y = true <-> (x < y)%Q.
Proof.
  unfold Qltb. rewrite negb_true_iff. split.
  - intros H. apply Qnot_le_lt. intros Hle.
    apply Qle_bool_iff in Hle. congruence.
  - intros H. destruct (Qle_bool y x) eqn:E; [| reflexivity].
    apply Qle_bool_iff in E. exfalso. exact (Qlt_not_le _ _ H E).
Qed.

Lemma Qltb_false x y : Qltb x y = false <-> (y <= x)%Q.
Proof.
  unfold Qltb. rewrite negb_false_iff. apply Qle_bool_iff.
Qed.

(* ------------------------------------------------------------------ *)
(** ** Score-driven selection                                          *)
(* ------------------------------------------------------------------ *)

Section ScoreSelection.
Context (L : Externals) (data : list (point L)).

Lemma scs_get_clusters_by_score_eq :
  semantic_change_scores.get_clusters_by_score L
  = semantic_change.get_clusters_by_score L.
Proof. reflexivity. Qed.

Lemma evals_choose_kmeans_k_with_elbow k_min k_max seed :
  evals (semantic_change.choose_kmeans_k_with_elbow L data k_min k_max 200 seed
                                                    "auto")
        (Ok (elbow_K L data k_min k_max seed)).
Proof.
  unfold semantic_change.choose_kmeans_k_with_elbow, elbow_K.
  set (f := fun k => inertia_ L (fit_private L (KMeans k (Some 200) (Some seed)
                                                      (Some "auto"%string))
                                             data)).
  destruct (evals_for_each
              (fun pre SSD => SSD = map f pre)
              (fun k SSD_scores =>
                 bind (fit L (KMeans k (Some 200) (Some seed)
                                     (Some "auto"%string)) data)
                      (fun f0 => ret (SSD_scores ++ [inertia_ L f0])))
              (range k_min (k_max + 1)) [])
    as (SSD & Hrun & ->).
  - reflexivity.
  - intros pre k SSD -> _. eexists. split.
    + eapply evals_bind; [eapply evals_fit_seeded; reflexivity | apply evals_ret].
    + now rewrite map_app.
  - eapply evals_bind; [exact Hrun |].
    destruct (all_elbows L (range k_min (k_max + 1))
                         (map f (range k_min (k_max + 1)))) as [|x xs].
    + apply evals_ret.
    + replace (len (x :: xs) =? 0) with false
        by (symmetry; apply Z.eqb_neq; unfold len; simpl length; lia).
      apply evals_lift.
Qed.

(** Outcome of the k-means branch: a pair exactly when some seed's refit has
    a positive silhouette, the unbound-local error otherwise. *)
Lemma sc_score_kmeans_outcome k_min k_max seeds :
  exists r,
    evals (semantic_change.get_clusters_by_score L data "kmeans" k_min k_max
                                                 seeds) r
    /\ ((exists labels K seed,
            r = Ok (labels, K) /\ In seed seeds
            /\ (0 < refit_silhouette L data k_min k_max seed)%Q)
        \/ (r = Raise UnboundLocalError
            /\ forall seed, In seed seeds ->
                            (refit_silhouette L data k_min k_max seed <= 0)%Q)).
Proof.
  unfold semantic_change.get_clusters_by_score.
  change ("kmeans" =? "kmeans")%string with true. cbv iota.
  set (body := fun (seed : Z) (st : Q * option Z * option (list Z)) => _).
  destruct (evals_for_each
              (fun pre '(bs, bK, bl) =>
                 (bs = 0%Q /\ bK = None /\ bl = None
                  /\ forall seed, In seed pre ->
                        (refit_silhouette L data k_min k_max seed <= 0)%Q)
                 \/ ((0 <= bs)%Q
                     /\ exists K l seed,
                         bK = Some K /\ bl = Some l /\ In seed pre
                         /\ (0 < refit_silhouette L data k_min k_max seed)%Q))
              body seeds (0%Q, None, None))
    as ([[bs bK] bl] & Hrun & Hinv).
  - left. repeat split; try reflexivity. intros seed [].
  - intros pre seed [[bs bK] bl] Hinv _. subst body. cbv beta iota.
    set (sil := refit_silhouette L data k_min k_max seed).
    exists (if Qltb bs sil
            then (sil, Some (elbow_K L data k_min k_max seed),
                  Some (labels_ L (fit_private L
                          (KMeans (elbow_K L data k_min k_max seed) None
                                  (Some seed) None) data)))
            else (bs, bK, bl)).
    split.
    + eapply evals_bind; [apply evals_choose_kmeans_k_with_elbow |].
      eapply evals_bind; [eapply evals_fit_predict_seeded; reflexivity |].
      fold sil. unfold refit_silhouette in sil. fold sil.
      destruct (Qltb bs sil); apply evals_ret.
    + destruct (Qltb bs sil) eqn:E.
      * apply Qltb_true in E. right.
        assert (Hpos : (0 < sil)%Q).
        { destruct Hinv as [(-> & _) | (Hbs & _)]; [exact E |].
          eapply Qle_lt_trans; eassumption. }
        split; [now apply Qlt_le_weak |].
        do 3 eexists. repeat split; [apply in_or_app; right; now left | exact Hpos].
      * apply Qltb_false in E.
        destruct Hinv as [(-> & -> & -> & Hall) | (Hbs & K & l & s0 & -> & -> & Hin & Hpos)].
        -- left. repeat split; try reflexivity.
           intros s1 Hs1. apply in_app_or in Hs1. destruct Hs1 as [Hs1 | [<- | []]].
           ++ now apply Hall.
           ++ exact E.
        -- right. split; [exact Hbs |].
           exists K, l, s0. repeat split; try reflexivity; [| exact Hpos].
           apply in_or_app. now left.
  - destruct Hinv as [(-> & -> & -> & Hall) | (Hbs & K & l & s0 & -> & -> & Hin & Hpos)].
    + exists (Raise UnboundLocalError). split.
      * eapply evals_bind; [exact Hrun |]. cbv beta iota.
        apply evals_bind_raise, evals_raise.
      * right. split; [reflexivity | exact Hall].
    + exists (Ok (l, K)). split.
      * eapply evals_bind; [exact Hrun |]. cbv beta iota.
        eapply evals_bind; [apply evals_local_some |].
        eapply evals_bind; [apply evals_local_some |]. apply evals_ret.
      * left. exists l, K, s0. repeat split; assumption.
Qed.

Lemma sc_score_unknown_model model k_min k_max seeds :
  model <> "kmeans"%string -> model <> "gmm"%string ->
  evals (semantic_change.get_clusters_by_score L data model k_min k_max seeds)
        (Raise UnboundLocalError).
Proof.
  intros Hk Hg. unfold semantic_change.get_clusters_by_score.
  apply String.eqb_neq in Hk, Hg. rewrite Hk, Hg.
  intros g. reflexivity.
Qed.

End ScoreSelection.

(* ------------------------------------------------------------------ *)
(** ** Dicts built by a loop, and [max] over them                      *)
(* ------------------------------------------------------------------ *)

Section Dicts.
Context {V : Type}.

Lemma dict_set_nonempty (d : dict V) k v : dict_set d k v <> [].
Proof. destruct d as [|[k' v'] d]; simpl; [| destruct (k' =? k)]; discriminate. Qed.

Lemma dict_get_set (d : dict V) k v k' :
  dict_get (dict_set d k v) k' = if k =? k' then Some v else dict_get d k'.
Proof.
  induction d as [|[k0 v0] d IH]; simpl.
  - reflexivity.
  - destruct (k0 =? k) eqn:E0; simpl.
    + apply Z.eqb_eq in E0. subst k0. destruct (k =? k'); reflexivity.
    + rewrite IH. destruct (k0 =? k') eqn:E1; [| reflexivity].
      apply Z.eqb_eq in E1. subst k0. now rewrite Z.eqb_sym, E0.
Qed.

Lemma in_dict_set (d : dict V) k v k' v' :
  In (k', v') (dict_set d k v) -> (k' = k /\ v' = v) \/ In (k', v') d.
Proof.
  induction d as [|[k0 v0] d IH]; simpl.
  - intros [H | []]. left. now inversion H.
  - destruct (k0 =? k); simpl.
    + intros [H | H]; [left; now inversion H | right; now right].
    + intros [H | H]; [right; now left |].
      destruct (IH H) as [? | ?]; [now left | right; now right].
Qed.

Lemma in_keys_dict_set (d : dict V) k v k' :
  In k' (keys (dict_set d k v)) <-> k' = k \/ In k' (keys d).
Proof.
  unfold keys. induction d as [|[k0 v0] d IH]; simpl.
  - intuition.
  - destruct (k0 =? k) eqn:E; simpl.
    + apply Z.eqb_eq in E. subst k0. intuition.
    + rewrite IH. intuition.
Qed.

Lemma tabulate_snoc (f : Z -> V) xs x :
  tabulate f (xs ++ [x]) = dict_set (tabulate f xs) x (f x).
Proof. unfold tabulate. now rewrite fold_left_app. Qed.

Lemma tabulate_nonempty (f : Z -> V) xs : xs <> [] -> tabulate f xs <> [].
Proof.
  destruct (rev xs) as [|x sx] eqn:E.
  - intros H. exfalso. apply H. apply (f_equal (@rev Z)) in E.
    now rewrite rev_involutive in E.
  - intros _. apply (f_equal (@rev Z)) in E. rewrite rev_involutive in E.
    subst xs. simpl rev. rewrite tabulate_snoc. apply dict_set_nonempty.
Qed.

Lemma in_tabulate (f : Z -> V) xs k v :
  In (k, v) (tabulate f xs) -> In k xs /\ v = f k.
Proof.
  induction xs as [|x xs IH] using rev_ind.
  - intros [].
  - rewrite tabulate_snoc. intros H. apply in_dict_set in H.
    destruct H as [[-> ->] | H].
    + split; [apply in_or_app; right; now left | reflexivity].
    + destruct (IH H). split; [apply in_or_app; now left | assumption].
Qed.

Lemma in_keys_tabulate (f : Z -> V) xs k :
  In k (keys (tabulate f xs)) <-> In k xs.
Proof.
  induction xs as [|x xs IH] using rev_ind.
  - simpl. tauto.
  - rewrite tabulate_snoc, in_keys_dict_set, IH, in_app_iff. simpl. intuition.
Qed.

Lemma dict_get_tabulate (f : Z -> V) xs k :
  In k xs -> dict_get (tabulate f xs) k = Some (f k).
Proof.
  induction xs as [|x xs IH] using rev_ind.
  - intros [].
  - rewrite tabulate_snoc, dict_get_set. intros H.
    destruct (x =? k) eqn:E.
    + apply Z.eqb_eq in E. now subst.
    + apply in_app_or in H. destruct H as [H | [H | []]]; [now apply IH |].
      apply Z.eqb_neq in E. contradiction.
Qed.

End Dicts.

Section Maxima.
Context {A : Type} (key : A -> Q).

Lemma max_from_spec (xs : list A) (best : A) :
  In (max_from key best xs) (best :: xs)
  /\ forall y, In y (best :: xs) -> (key y <= key (max_from key best xs))%Q.
Proof.
  revert best. induction xs as [|x xs IH]; intros best; simpl.
  - split; [now left |]. intros y [<- | []]. apply Qle_refl.
  - destruct (Qltb (key best) (key x)) eqn:E.
    + destruct (IH x) as [Hin Hmax]. split.
      * simpl in Hin. tauto.
      * intros y [<- | Hy].
        -- apply Qltb_true in E. apply Qlt_le_weak.
           eapply Qlt_le_trans; [exact E |]. apply Hmax. now left.
        -- now apply Hmax.
    + destruct (IH best) as [Hin Hmax]. split.
      * simpl in Hin. tauto.
      * intros y [<- | [<- | Hy]].
        -- apply Hmax. now left.
        -- apply Qltb_false in E. eapply Qle_trans; [exact E |].
           apply Hmax. now left.
        -- apply Hmax. now right.
Qed.

Lemma max_from_map (xs : list A) (best : A) :
  max_from (fun q => q) (key best) (map key xs) = key (max_from key best xs).
Proof.
  revert best. induction xs as [|x xs IH]; intros best; simpl.
  - reflexivity.
  - destruct (Qltb (key best) (key x)); apply IH.
Qed.

End Maxima.

(** On a non-empty dict, [max(d.values())] is the value stored under
    [max(d, key=d.get)], it bounds every value, and that key is in the dict. *)
Lemma dict_maxima (d : dict Q) :
  d <> [] ->
  exists k v,
    py_max (values d) = Ok v /\ max_by_get d = Ok k /\ In (k, v) d
    /\ forall k' v', In (k', v') d -> (v' <= v)%Q.
Proof.
  destruct d as [|kv0 d]; [congruence | intros _].
  pose proof (max_from_spec snd d kv0) as [Hin Hmax].
  exists (fst (max_from snd kv0 d)), (snd (max_from snd kv0 d)).
  repeat split.
  - unfold py_max, values. simpl. f_equal. apply (max_from_map snd).
  - rewrite <- surjective_pairing. exact Hin.
  - intros k' v' H. exact (Hmax (k', v') H).
Qed.

Lemma dict_get_in {V} (d : dict V) k v : dict_get d k = Some v -> In (k, v) d.
Proof.
  induction d as [|[k0 v0] d IH]; simpl; [discriminate |].
  destruct (k0 =? k) eqn:E.
  - apply Z.eqb_eq in E. intros H. inversion H. subst. now left.
  - intros H. right. now apply IH.
Qed.

Lemma in_range a b k : In k (range a b) <-> a <= k < b.
Proof.
  unfold range. rewrite in_map_iff. split.
  - intros (i & <- & Hi). apply in_seq in Hi. lia.
  - intros H. exists (Z.to_nat (k - a)). split; [lia |].
    apply in_seq. lia.
Qed.

Lemma range_nonempty a b : a < b -> range a b <> [].
Proof.
  intros H E. assert (Hin : In a (range a b)) by (apply in_range; lia).
  rewrite E in Hin. destruct Hin.
Qed.

Lemma last_bound_snoc xs x : last_bound (xs ++ [x]) = Some x.
Proof. unfold last_bound. now rewrite rev_app_distr. Qed.

Lemma last_bound_range a b : a <= b -> last_bound (range a (b + 1)) = Some b.
Proof.
  intros H. unfold range.
  replace (Z.to_nat (b + 1 - a)) with (S (Z.to_nat (b - a))) by lia.
  rewrite seq_S, map_app. simpl map at 2. rewrite last_bound_snoc.
  f_equal. lia.
Qed.

(* ------------------------------------------------------------------ *)
(** ** Silhouette grid search                                          *)
(* ------------------------------------------------------------------ *)

Section GridSearch.
Context (L : Externals) (data : list (point L)).
Context (model : string) (seeds : list Z).
Hypothesis Hmodel : model = "kmeans"%string \/ model = "gmm"%string.
Hypothesis Hseeds : seeds <> [].

Lemma random_state_clusterer_for K seed :
  random_state_of (clusterer_for model K seed) = Some seed.
Proof. unfold clusterer_for. destruct (model =? "kmeans")%string; reflexivity. Qed.

Lemma evals_get_clusterer K seed :
  evals (semantic_change.get_clusterer L model K seed)
        (Ok (clusterer_for model K seed)).
Proof. destruct Hmodel; subst model; intros g; reflexivity. Qed.

Lemma evals_cell K seed :
  evals (fit_predict L (clusterer_for model K seed) data)
        (Ok (cell_labels L data model K seed)).
Proof.
  eapply evals_fit_predict_seeded. apply random_state_clusterer_for.
Qed.

(** Facts about one row and about the whole grid. *)
Lemma row_maxima K :
  py_max (values (row L data model seeds K)) = Ok (row_best L data model seeds K)
  /\ max_by_get (row L data model seeds K) = Ok (row_seed L data model seeds K)
  /\ In (row_seed L data model seeds K) seeds
  /\ cell_score L data model K (row_seed L data model seeds K)
     = row_best L data model seeds K
  /\ forall seed, In seed seeds ->
                  (cell_score L data model K seed
                   <= row_best L data model seeds K)%Q.
Proof.
  destruct (dict_maxima (row L data model seeds K)) as (s & v & Hv & Hs & Hin & Hmax).
  { apply tabulate_nonempty, Hseeds. }
  unfold row_best, row_seed. rewrite Hv, Hs.
  apply in_tabulate in Hin. destruct Hin as [Hin ->].
  repeat split; try assumption.
  intros seed Hseed. apply (Hmax seed).
  apply dict_get_in, dict_get_tabulate, Hseed.
Qed.

Lemma grid_maxima Ks :
  Ks <> [] ->
  py_max (values (tabulate (row_best L data model seeds) Ks))
  = Ok (grid_best L data model Ks seeds)
  /\ max_by_get (tabulate (row_best L data model seeds) Ks)
     = Ok (grid_best_K L data model Ks seeds)
  /\ In (grid_best_K L data model Ks seeds) Ks
  /\ row_best L data model seeds (grid_best_K L data model Ks seeds)
     = grid_best L data model Ks seeds
  /\ forall K, In K Ks ->
               (row_best L data model seeds K
                <= grid_best L data model Ks seeds)%Q.
Proof.
  intros HKs.
  destruct (dict_maxima (tabulate (row_best L data model seeds) Ks))
    as (K0 & v & Hv & HK0 & Hin & Hmax).
  { now apply tabulate_nonempty. }
  unfold grid_best, grid_best_K. rewrite Hv, HK0.
  apply in_tabulate in Hin. destruct Hin as [Hin ->].
  repeat split; try assumption.
  intros K HK. apply (Hmax K). apply dict_get_in, dict_get_tabulate, HK.
Qed.

(** The best silhouette is the score of a grid cell and bounds every cell. *)
Lemma grid_best_attained Ks :
  Ks <> [] ->
  (exists K seed, In K Ks /\ In seed seeds
                  /\ grid_best L data model Ks seeds
                     = cell_score L data model K seed)
  /\ forall K seed, In K Ks -> In seed seeds ->
                    (cell_score L data model K seed
                     <= grid_best L data model Ks seeds)%Q.
Proof.
  intros HKs. destruct (grid_maxima Ks HKs) as (_ & _ & HinK & Hbest & Hmax).
  split.
  - exists (grid_best_K L data model Ks seeds),
      (row_seed L data model seeds (grid_best_K L data model Ks seeds)).
    destruct (row_maxima (grid_best_K L data model Ks seeds))
      as (_ & _ & Hin & Heq & _).
    repeat split; try assumption. now rewrite Heq.
  - intros K seed HK Hseed.
    destruct (row_maxima K) as (_ & _ & _ & _ & Hrow).
    eapply Qle_trans; [apply Hrow, Hseed | apply Hmax, HK].
Qed.

(** *** The loops of [semantic_change.get_clusters_by_silhouette] *)

Lemma sc_seed_loop K :
  evals (for_each seeds
           (fun seed silhouette_scores_K =>
              bind (semantic_change.get_clusterer L model K seed)
                   (fun clusterer =>
                      bind (fit_predict L clusterer data)
                           (fun cluster_labels =>
                              ret (dict_set silhouette_scores_K seed
                                     (silhouette_score L data cluster_labels)))))
           [])
        (Ok (row L data model seeds K)).
Proof.
  match goal with |- evals (for_each _ ?b _) _ =>
    destruct (evals_for_each
                (fun pre d => d = tabulate (cell_score L data model K) pre)
                b seeds []) as (d & Hrun & ->)
  end.
  - reflexivity.
  - intros pre seed d -> _. eexists. split.
    + eapply evals_bind; [apply evals_get_clusterer |].
      eapply evals_bind; [apply evals_cell | apply evals_ret].
    + now rewrite tabulate_snoc.
  - exact Hrun.
Qed.

Context (k_min k_max : Z) (threshold : Q).
Hypothesis Hgrid : k_min <= k_max.

Abbreviation Ks := (range k_min (k_max + 1)).
Abbreviation best := (grid_best L data model Ks seeds).
Abbreviation best_K := (grid_best_K L data model Ks seeds).

(** What [semantic_change.get_clusters_by_silhouette] computes on a
    non-empty grid: the refit is made with [k_max], the value the loop
    variable [K] is left with. *)
Lemma sc_silhouette_eval :
  evals (semantic_change.get_clusters_by_silhouette L data model k_min k_max
                                                    seeds threshold)
        (Ok (if Qltb best threshold
             then Clusters (np_zeros L data) 1 0
             else Clusters
                    (cell_labels L data model k_max
                                 (row_seed L data model seeds best_K))
                    best_K best)).
Proof.
  unfold semantic_change.get_clusters_by_silhouette.
  assert (HKs : Ks <> []) by (apply range_nonempty; lia).
  match goal with |- evals (bind (for_each _ ?b _) _) _ =>
    destruct (evals_for_each
                (fun pre st =>
                   st = (tabulate (row_best L data model seeds) pre,
                         tabulate (row_seed L data model seeds) pre,
                         last_bound pre))
                b Ks ([], [], None)) as (st & Hrun & ->)
  end.
  - reflexivity.
  - intros pre K st -> _. eexists. split.
    + cbv beta iota.
      eapply evals_bind; [apply sc_seed_loop |].
      destruct (row_maxima K) as (Hv & Hs & _). rewrite Hv, Hs.
      eapply evals_bind; [apply evals_lift |].
      eapply evals_bind; [apply evals_lift |]. apply evals_ret.
    + now rewrite !tabulate_snoc, last_bound_snoc.
  - eapply evals_bind; [exact Hrun |]. cbv beta iota.
    destruct (grid_maxima Ks HKs) as (Hv & HK & Hin & _).
    rewrite Hv. eapply evals_bind; [apply evals_lift |].
    destruct (Qltb best threshold); [apply evals_ret |].
    rewrite HK. eapply evals_bind; [apply evals_lift |].
    unfold subscript. rewrite (dict_get_tabulate _ _ _ Hin).
    eapply evals_bind; [apply evals_lift |].
    rewrite last_bound_range by exact Hgrid.
    eapply evals_bind; [apply evals_local_some |].
    eapply evals_bind; [apply evals_get_clusterer |].
    eapply evals_bind; [apply evals_cell | apply evals_ret].
Qed.

(** *** The loops of [semantic_change_scores.get_clusters_by_silhouette] *)

Lemma inline_clusterer K seed :
  (if (model =? "kmeans")%string
   then Some (KMeans K None (Some seed) None)
   else if (model =? "gmm")%string
        then Some (GaussianMixture K None None (Some seed))
        else None)
  = Some (clusterer_for model K seed).
Proof. destruct Hmodel; subst model; reflexivity. Qed.

(** What [semantic_change_scores.get_clusters_by_silhouette] computes on a
    non-empty grid: the refit is made with the winning K. *)
Lemma scs_silhouette_eval :
  evals (semantic_change_scores.get_clusters_by_silhouette L data model k_min
                                                           k_max seeds threshold)
        (Ok (if Qltb best threshold
             then Clusters (np_zeros L data) 1 0
             else Clusters
                    (cell_labels L data model best_K
                                 (row_seed L data model seeds best_K))
                    best_K best)).
Proof.
  unfold semantic_change_scores.get_clusters_by_silhouette.
  assert (HKs : Ks <> []) by (apply range_nonempty; lia).
  match goal with |- evals (bind (for_each_ret _ ?b _) _) _ =>
    destruct (evals_for_each_ret
                (fun pre '(ss, bs, _) =>
                   ss = tabulate (row_best L data model seeds) pre
                   /\ bs = tabulate (row_seed L data model seeds) pre)
                b Ks [] ([], [], None)) as ([[ss bs] c] & Hrun & -> & ->)
  end.
  - split; reflexivity.
  - intros pre K [[ss bs] c] [-> ->] _. cbv beta iota.
    match goal with |- context [for_each_ret seeds ?b ?s0] =>
      destruct (evals_for_each_ret
                  (fun pre (st : dict Q * option estimator) =>
                     fst st = tabulate (cell_score L data model K) pre)
                  b seeds [] s0) as ([d c'] & Hseed & Hd)
    end.
    + reflexivity.
    + intros pre' seed [d c0] Hd _. simpl in Hd. subst d.
      rewrite inline_clusterer. eexists. split.
      * eapply evals_bind; [apply evals_cell | apply evals_ret].
      * simpl. now rewrite tabulate_snoc.
    + simpl in Hd. subst d. eexists. split.
      * eapply evals_bind; [exact Hseed |]. cbv beta iota.
        destruct (row_maxima K) as (Hv & Hs & _).
        fold (row L data model seeds K). rewrite Hv, Hs.
        eapply evals_bind; [apply evals_lift |].
        eapply evals_bind; [apply evals_lift |]. apply evals_ret.
      * now rewrite !tabulate_snoc.
  - eapply evals_bind; [exact Hrun |]. cbv beta iota. cbn [app].
    destruct (grid_maxima Ks HKs) as (Hv & HK & Hin & _).
    rewrite Hv. eapply evals_bind; [apply evals_lift |].
    destruct (Qltb best threshold); [apply evals_ret |].
    rewrite HK. eapply evals_bind; [apply evals_lift |].
    unfold subscript. rewrite (dict_get_tabulate _ _ _ Hin).
    eapply evals_bind; [apply evals_lift |].
    replace (if (model =? "kmeans")%string
             then Some (KMeans best_K None
                          (Some (row_seed L data model seeds best_K)) None)
             else if (model =? "gmm")%string
                  then Some (GaussianMixture best_K None None
                               (Some (row_seed L data model seeds best_K)))
                  else c)
      with (Some (clusterer_for model best_K
                                (row_seed L data model seeds best_K)))
      by (destruct Hmodel; subst model; reflexivity).
    eapply evals_bind; [apply evals_local_some |].
    eapply evals_bind; [apply evals_cell | apply evals_ret].
Qed.

End GridSearch.

(** For an unknown model name and a non-empty grid the first copy raises
    [NameError] at the first cell; the second copy returns the exception
    object as a value. *)
Lemma sc_silhouette_unknown_model (L : Externals) (data : list (point L))
      model k_min k_max seeds threshold :
  model <> "kmeans"%string -> model <> "gmm"%string ->
  seeds <> [] -> k_min <= k_max ->
  evals (semantic_change.get_clusters_by_silhouette L data model k_min k_max
                                                    seeds threshold)
        (Raise NameError).
Proof.
  intros Hk Hg Hseeds Hgrid.
  unfold semantic_change.get_clusters_by_silhouette,
    semantic_change.get_clusterer.
  apply String.eqb_neq in Hk, Hg. rewrite Hk, Hg.
  pose proof (range_nonempty k_min (k_max + 1) ltac:(lia)) as HKs.
  destruct (range k_min (k_max + 1)) as [|K Ks]; [congruence |].
  destruct seeds as [|seed seeds']; [congruence |].
  intros g. reflexivity.
Qed.

Lemma scs_silhouette_unknown_model (L : Externals) (data : list (point L))
      model k_min k_max seeds threshold :
  model <> "kmeans"%string -> model <> "gmm"%string ->
  seeds <> [] -> k_min <= k_max ->
  evals (semantic_change_scores.get_clusters_by_silhouette L data model k_min
                                                           k_max seeds threshold)
        (Ok (ExceptionObject NameError)).
Proof.
  intros Hk Hg Hseeds Hgrid.
  unfold semantic_change_scores.get_clusters_by_silhouette.
  apply String.eqb_neq in Hk, Hg. rewrite Hk, Hg.
  pose proof (range_nonempty k_min (k_max + 1) ltac:(lia)) as HKs.
  destruct (range k_min (k_max + 1)) as [|K Ks]; [congruence |].
  destruct seeds as [|seed seeds']; [congruence |].
  intros g. reflexivity.
Qed.

(* ------------------------------------------------------------------ *)
(** ** Properties of the model selectors                               *)
(* ------------------------------------------------------------------ *)

(** C1.  The claim: above the threshold, [get_clusters_by_silhouette] refits
    with the winning K and that K's best seed and returns those labels with
    that K.  On six points in two groups, K in 2..3 and seeds 0,1, the best
    silhouette 857/990 is reached at K = 2.  [semantic_change.py] reports
    K = 2 but returns the labels of a fit with K = 3, the last value of the
    loop variable; the refit at the winning cell gives the two groups, and
    that is what [semantic_change_scores.py] returns. *)
Theorem sc_silhouette_refit_uses_last_K :
  let data := [0; 1; 2; 10; 11; 12] in
  let seeds := [0; 1] in
  semantic_change.get_clusters_by_silhouette
    Stub.externals data "kmeans" 2 3 seeds (1 # 10) 0
  = (Ok (Clusters [0; 1; 1; 2; 2; 2] 2 (857 # 990)), 0)
  /\ grid_best_K Stub.externals data "kmeans" (range 2 (3 + 1)) seeds = 2
  /\ cell_labels Stub.externals data "kmeans" 2
                 (row_seed Stub.externals data "kmeans" seeds 2)
     = [0; 0; 0; 1; 1; 1]
  /\ semantic_change_scores.get_clusters_by_silhouette
       Stub.externals data "kmeans" 2 3 seeds (1 # 10) 0
     = (Ok (Clusters [0; 0; 0; 1; 1; 1] 2 (857 # 990)), 0).
Proof. vm_compute. repeat split. Qed.

(** C2.  The claim: the two copies of [get_clusters_by_silhouette] return
    the same triple and fail alike on an unknown model name.  They do not:
    on an unknown name one raises [NameError] and the other returns the
    exception object, and on a supported model they return different labels
    as soon as the winning K is not [k_max]. *)
Theorem silhouette_copies_differ :
  let data := [0; 1; 2; 10; 11; 12] in
  let seeds := [0; 1] in
  (semantic_change.get_clusters_by_silhouette
     Stub.externals data "dbscan" 2 3 seeds (1 # 10) 0
   = (Raise NameError, 0)
   /\ semantic_change_scores.get_clusters_by_silhouette
        Stub.externals data "dbscan" 2 3 seeds (1 # 10) 0
      = (Ok (ExceptionObject NameError), 0))
  /\ semantic_change.get_clusters_by_silhouette
       Stub.externals data "kmeans" 2 3 seeds (1 # 10) 0
     <> semantic_change_scores.get_clusters_by_silhouette
          Stub.externals data "kmeans" 2 3 seeds (1 # 10) 0.
Proof. vm_compute. repeat split. discriminate. Qed.

(** C3, the claim as stated fails: [get_kmeans_cluster_labels] builds
    [KMeans(n_clusters=K)] without a [random_state]; two runs on the same
    data that meet the process-wide generator in different states return
    different label vectors. *)
Lemma get_kmeans_cluster_labels_not_deterministic :
  ~ deterministic
      (semantic_change.get_kmeans_cluster_labels
         Stub.externals [0; 1; 2; 10; 11; 12] semantic_change.default_Ks).
Proof. intros H. specialize (H 0 5). vm_compute in H. discriminate. Qed.

(** C3 (amended).  [get_clusters_by_silhouette] and [get_clusters_by_score],
    in both modules, pass an integer [random_state] to every fit: whatever
    the data, model name, K range, seeds and threshold, their outcome does
    not depend on the state of the process-wide generator, and they leave
    that state as it was. *)
Theorem seeded_selectors_deterministic :
  forall (L : Externals) (data : list (point L)) (model : string)
         (k_min k_max : Z) (seeds : list Z) (threshold : Q),
    (deterministic (semantic_change.get_clusters_by_silhouette
                      L data model k_min k_max seeds threshold)
     /\ generator_untouched (semantic_change.get_clusters_by_silhouette
                              L data model k_min k_max seeds threshold))
    /\ (deterministic (semantic_change_scores.get_clusters_by_silhouette
                         L data model k_min k_max seeds threshold)
        /\ generator_untouched (semantic_change_scores.get_clusters_by_silhouette
                                 L data model k_min k_max seeds threshold))
    /\ (deterministic (semantic_change.get_clusters_by_score
                         L data model k_min k_max seeds)
        /\ generator_untouched (semantic_change.get_clusters_by_score
                                 L data model k_min k_max seeds))
    /\ (deterministic (semantic_change_scores.get_clusters_by_score
                         L data model k_min k_max seeds)
        /\ generator_untouched (semantic_change_scores.get_clusters_by_score
                                 L data model k_min k_max seeds)).
Proof.
  intros. repeat split;
    first [ apply (generator_free_deterministic _
                     (sc_silhouette_generator_free L data model k_min k_max
                                                   seeds threshold))
          | apply (generator_free_deterministic _
                     (scs_silhouette_generator_free L data model k_min k_max
                                                    seeds threshold))
          | apply (generator_free_deterministic _
                     (sc_score_generator_free L data model k_min k_max seeds))
          | apply (generator_free_deterministic _
                     (scs_score_generator_free L data model k_min k_max seeds)) ].
Qed.

(** C4.  When the model is one of the two supported families, the grid has
    at least one cell and every silhouette score of the grid is below the
    threshold (0.1 by default), [get_clusters_by_silhouette] returns the
    all-zero label vector of the length of the data together with K = 1, in
    both modules. *)
Theorem silhouette_below_threshold_single_cluster :
  forall (L : Externals) (data : list (point L)) (model : string)
         (k_min k_max : Z) (seeds : list Z) (threshold : Q),
    model = "kmeans"%string \/ model = "gmm"%string ->
    seeds <> [] -> k_min <= k_max ->
    (forall K seed, k_min <= K <= k_max -> In seed seeds ->
                    (cell_score L data model K seed < threshold)%Q) ->
    forall g,
      semantic_change.get_clusters_by_silhouette
        L data model k_min k_max seeds threshold g
      = (Ok (Clusters (repeat 0 (length data)) 1 0), g)
      /\ semantic_change_scores.get_clusters_by_silhouette
           L data model k_min k_max seeds threshold g
         = (Ok (Clusters (repeat 0 (length data)) 1 0), g).
Proof.
  intros L data model k_min k_max seeds threshold Hmodel Hseeds Hgrid Hlow g.
  assert (Hbest : Qltb (grid_best L data model (range k_min (k_max + 1)) seeds)
                       threshold = true).
  { apply Qltb_true.
    destruct (grid_best_attained L data model seeds Hseeds
                (range k_min (k_max + 1)))
      as [(K & seed & HK & Hseed & ->) _].
    - apply range_nonempty. lia.
    - apply Hlow; [| exact Hseed]. apply in_range in HK. lia. }
  rewrite (sc_silhouette_eval L data model seeds Hmodel Hseeds k_min k_max
                              threshold Hgrid g).
  rewrite (scs_silhouette_eval L data model seeds Hmodel Hseeds k_min k_max
                               threshold Hgrid g).
  rewrite Hbest. split; reflexivity.
Qed.

Lemma silhouette_below_threshold_single_cluster_witness :
  semantic_change.get_clusters_by_silhouette
    Stub.externals [0; 1; 2; 10; 11; 12] "kmeans" 5 5 [0] (1 # 10) 0
  = (Ok (Clusters [0; 0; 0; 0; 0; 0] 1 0), 0)
  /\ semantic_change_scores.get_clusters_by_silhouette
       Stub.externals [0; 1; 2; 10; 11; 12] "kmeans" 5 5 [0] (1 # 10) 0
     = (Ok (Clusters [0; 0; 0; 0; 0; 0] 1 0), 0).
Proof.
  apply (silhouette_below_threshold_single_cluster
           Stub.externals [0; 1; 2; 10; 11; 12] "kmeans" 5 5 [0] (1 # 10)).
  - left. reflexivity.
  - discriminate.
  - lia.
  - intros K seed HK [<- | []]. assert (K = 5) by lia. subst K.
    vm_compute. reflexivity.
Defined.

(** C10.  [get_clusters_by_score] with [model="kmeans"] returns a pair only
    when some seed's refit has a silhouette above 0; when every seed's refit
    has a silhouette at or below 0, and when the model name is neither
    "kmeans" nor "gmm", it fails on the unbound local, without any fallback
    assignment.  Both modules. *)
Theorem get_clusters_by_score_unbound_without_positive_silhouette :
  forall (L : Externals) (data : list (point L)) (k_min k_max : Z)
         (seeds : list Z),
    (forall g labels K g',
        semantic_change.get_clusters_by_score L data "kmeans" k_min k_max
                                              seeds g = (Ok (labels, K), g')
        \/ semantic_change_scores.get_clusters_by_score
             L data "kmeans" k_min k_max seeds g = (Ok (labels, K), g') ->
        exists seed, In seed seeds
                     /\ (0 < refit_silhouette L data k_min k_max seed)%Q)
    /\ ((forall seed, In seed seeds ->
                      (refit_silhouette L data k_min k_max seed <= 0)%Q) ->
        forall g,
          semantic_change.get_clusters_by_score L data "kmeans" k_min k_max
                                                seeds g
          = (Raise UnboundLocalError, g)
          /\ semantic_change_scores.get_clusters_by_score
               L data "kmeans" k_min k_max seeds g
             = (Raise UnboundLocalError, g))
    /\ (forall model, model <> "kmeans"%string -> model <> "gmm"%string ->
        forall g,
          semantic_change.get_clusters_by_score L data model k_min k_max
                                                seeds g
          = (Raise UnboundLocalError, g)
          /\ semantic_change_scores.get_clusters_by_score
               L data model k_min k_max seeds g
             = (Raise UnboundLocalError, g)).
Proof.
  intros L data k_min k_max seeds.
  destruct (sc_score_kmeans_outcome L data k_min k_max seeds)
    as (r & Hr & Hcases).
  assert (Hr' : evals (semantic_change_scores.get_clusters_by_score
                         L data "kmeans" k_min k_max seeds) r) by exact Hr.
  split; [| split].
  - intros g labels K g' H.
    assert (Hrun : (r, g) = (Ok (labels, K), g')).
    { destruct H as [H | H]; [rewrite <- (Hr g) | rewrite <- (Hr' g)]; exact H. }
    destruct Hcases as [(l & K0 & seed & _ & Hin & Hpos) | [-> _]].
    + exists seed. split; assumption.
    + discriminate.
  - intros Hall g. rewrite Hr, Hr'.
    destruct Hcases as [(l & K0 & seed & _ & Hin & Hpos) | [-> _]].
    + exfalso. exact (Qlt_not_le _ _ Hpos (Hall seed Hin)).
    + split; reflexivity.
  - intros model Hk Hg g. split.
    + exact (sc_score_unknown_model L data model k_min k_max seeds Hk Hg g).
    + exact (sc_score_unknown_model L data model k_min k_max seeds Hk Hg g).
Qed.

Lemma get_clusters_by_score_unbound_witness :
  (exists seed, In seed [0; 1]
                /\ Qlt 0%Q (refit_silhouette Stub.externals
                                             [0; 1; 2; 10; 11; 12] 2 4 seed))
  /\ semantic_change.get_clusters_by_score
       Stub.externals [5; 5; 5; 5] "kmeans" 2 2 [0; 1] 0
     = (Raise UnboundLocalError, 0)
  /\ semantic_change.get_clusters_by_score
       Stub.externals [0; 1; 2; 10; 11; 12] "dbscan" 2 4 [0; 1] 0
     = (Raise UnboundLocalError, 0).
Proof.
  split; [| split].
  - apply (proj1 (get_clusters_by_score_unbound_without_positive_silhouette
                    Stub.externals [0; 1; 2; 10; 11; 12] 2 4 [0; 1])
                 0 [0; 1; 1; 2; 2; 2] 3 0).
    left. vm_compute. reflexivity.
  - apply (proj1 (proj2 (get_clusters_by_score_unbound_without_positive_silhouette
                           Stub.externals [5; 5; 5; 5] 2 2 [0; 1]))).
    intros seed [<- | [<- | []]]; vm_compute; discriminate.
  - apply (proj2 (proj2 (get_clusters_by_score_unbound_without_positive_silhouette
                           Stub.externals [0; 1; 2; 10; 11; 12] 2 4 [0; 1]))
                 "dbscan"%string); discriminate.
Defined.

(* ------------------------------------------------------------------ *)
(** ** Categorical fitting                                             *)
(* ------------------------------------------------------------------ *)

Lemma scs_fit_categoricals_eq :
  semantic_change_scores.fit_categoricals_from_clusters
  = semantic_change.fit_categoricals_from_clusters.
Proof. reflexivity. Qed.

Section DictsNoDup.
Context {V : Type}.

Lemma dict_get_none (d : dict V) k : dict_get d k = None <-> ~ In k (keys d).
Proof.
  unfold keys. induction d as [|[k0 v0] d IH]; simpl.
  - tauto.
  - destruct (k0 =? k) eqn:E.
    + apply Z.eqb_eq in E. split; [discriminate | intros H; exfalso; apply H; now left].
    + apply Z.eqb_neq in E. rewrite IH. tauto.
Qed.

Lemma in_dict_get (d : dict V) k v :
  NoDup (keys d) -> In (k, v) d -> dict_get d k = Some v.
Proof.
  unfold keys. induction d as [|[k0 v0] d IH]; simpl; [tauto |].
  intros Hnd [H | H].
  - inversion H. subst. now rewrite Z.eqb_refl.
  - inversion Hnd as [|? ? Hnot Hnd']. subst.
    rewrite list_elem_of_In in Hnot.
    destruct (k0 =? k) eqn:E.
    + apply Z.eqb_eq in E. subst k0. exfalso. apply Hnot.
      change k with (fst (k, v)). now apply in_map.
    + now apply IH.
Qed.

Lemma keys_dict_set_NoDup (d : dict V) k v :
  NoDup (keys d) -> NoDup (keys (dict_set d k v)).
Proof.
  unfold keys. induction d as [|[k0 v0] d IH]; simpl; intros Hnd.
  - constructor; [rewrite list_elem_of_In; simpl; tauto | constructor].
  - inversion Hnd as [|? ? Hnot Hnd']. subst.
    destruct (k0 =? k) eqn:E; simpl.
    + apply Z.eqb_eq in E. subst k0. now constructor.
    + constructor; [| now apply IH].
      rewrite list_elem_of_In in *.
      intros Hin. apply (in_keys_dict_set d k v k0) in Hin.
      apply Z.eqb_neq in E. destruct Hin; [congruence | contradiction].
Qed.

End DictsNoDup.

Lemma dict_mem_true {V} (d : dict V) k : dict_mem d k = true <-> In k (keys d).
Proof.
  unfold dict_mem. rewrite existsb_exists. split.
  - intros (x & Hx & E). apply Z.eqb_eq in E. now subst.
  - intros H. exists k. split; [exact H | apply Z.eqb_refl].
Qed.

(** *** [Counter] *)

Lemma occurrences_nonneg l xs : 0 <= occurrences l xs.
Proof. unfold occurrences, len. lia. Qed.

Lemma occurrences_snoc l xs x :
  occurrences l (xs ++ [x]) = occurrences l xs + (if l =? x then 1 else 0).
Proof.
  unfold occurrences, len. rewrite List.filter_app, List.length_app. simpl.
  destruct (l =? x); simpl; lia.
Qed.

Lemma occurrences_cons l x xs :
  occurrences l (x :: xs) = (if l =? x then 1 else 0) + occurrences l xs.
Proof.
  unfold occurrences, len. simpl. destruct (l =? x); simpl length; lia.
Qed.

Lemma occurrences_zero l xs : occurrences l xs = 0 <-> ~ In l xs.
Proof.
  induction xs as [|x xs IH].
  - simpl. unfold occurrences, len. simpl. tauto.
  - rewrite occurrences_cons. pose proof (occurrences_nonneg l xs).
    simpl. destruct (l =? x) eqn:E.
    + apply Z.eqb_eq in E. subst. split; [lia | intros Hn; exfalso; apply Hn; now left].
    + apply Z.eqb_neq in E. rewrite Z.add_0_l, IH. intuition.
Qed.

Lemma Counter_snoc xs x :
  Counter (xs ++ [x])
  = dict_set (Counter xs) x (match dict_get (Counter xs) x with
                             | Some c => c + 1
                             | None => 1
                             end).
Proof. unfold Counter. now rewrite fold_left_app. Qed.

Lemma dict_get_Counter xs k :
  dict_get (Counter xs) k
  = if occurrences k xs =? 0 then None else Some (occurrences k xs).
Proof.
  induction xs as [|x xs IH] using rev_ind.
  - reflexivity.
  - rewrite Counter_snoc, dict_get_set, occurrences_snoc.
    pose proof (occurrences_nonneg k xs) as Hk.
    rewrite (Z.eqb_sym x k). destruct (k =? x) eqn:E.
    + apply Z.eqb_eq in E. subst x. rewrite IH.
      destruct (occurrences k xs =? 0) eqn:E0.
      * apply Z.eqb_eq in E0. rewrite E0. reflexivity.
      * apply Z.eqb_neq in E0.
        replace (occurrences k xs + 1 =? 0) with false
          by (symmetry; apply Z.eqb_neq; lia).
        reflexivity.
    + now rewrite Z.add_0_r.
Qed.

Lemma keys_Counter_NoDup xs : NoDup (keys (Counter xs)).
Proof.
  induction xs as [|x xs IH] using rev_ind.
  - constructor.
  - rewrite Counter_snoc. now apply keys_dict_set_NoDup.
Qed.

Lemma in_keys_Counter xs k : In k (keys (Counter xs)) <-> In k xs.
Proof.
  pose proof (dict_get_none (Counter xs) k) as Hn.
  rewrite dict_get_Counter in Hn.
  pose proof (occurrences_zero k xs) as Hz.
  destruct (occurrences k xs =? 0) eqn:E.
  - apply Z.eqb_eq in E. split.
    + intros H. exfalso. now apply (proj1 Hn).
    + intros H. exfalso. now apply (proj1 Hz).
  - apply Z.eqb_neq in E. split.
    + intros _. destruct (in_dec Z.eq_dec k xs) as [H | H]; [exact H |].
      exfalso. apply E. now apply Hz.
    + intros _. destruct (in_dec Z.eq_dec k (keys (Counter xs))) as [H | H];
        [exact H |]. apply Hn in H. discriminate.
Qed.

Lemma in_Counter xs k c :
  In (k, c) (Counter xs) <-> In k xs /\ c = occurrences k xs.
Proof.
  split.
  - intros H. pose proof (in_dict_get _ _ _ (keys_Counter_NoDup xs) H) as Hg.
    rewrite dict_get_Counter in Hg.
    destruct (occurrences k xs =? 0) eqn:E; [discriminate |].
    inversion Hg. split; [| reflexivity].
    apply Z.eqb_neq in E.
    destruct (in_dec Z.eq_dec k xs) as [Hin | Hin]; [exact Hin |].
    exfalso. apply E. now apply occurrences_zero.
  - intros [Hin ->]. apply dict_get_in. rewrite dict_get_Counter.
    destruct (occurrences k xs =? 0) eqn:E; [| reflexivity].
    apply Z.eqb_eq in E. apply occurrences_zero in E. contradiction.
Qed.

(** *** [set], [sorted] and the ascending label set *)

Lemma in_py_set xs x : In x (py_set xs) <-> In x xs.
Proof.
  induction xs as [|y xs IH]; simpl; [tauto |].
  destruct (existsb (Z.eqb y) xs) eqn:E.
  - rewrite IH. split; [tauto |]. intros [<- | H]; [| exact H].
    apply existsb_exists in E. destruct E as (z & Hz & Ez).
    apply Z.eqb_eq in Ez. now subst.
  - simpl. rewrite IH. tauto.
Qed.

Lemma py_set_NoDup xs : NoDup (py_set xs).
Proof.
  induction xs as [|y xs IH]; simpl; [constructor |].
  destruct (existsb (Z.eqb y) xs) eqn:E; [exact IH |].
  constructor; [| exact IH].
  rewrite list_elem_of_In, in_py_set. intros Hin.
  assert (existsb (Z.eqb y) xs = true); [| congruence].
  apply existsb_exists. exists y. split; [exact Hin | apply Z.eqb_refl].
Qed.

Lemma in_insert_label x l z : In z (insert_label x l) <-> z = x \/ In z l.
Proof.
  induction l as [|y l IH]; simpl; [intuition |].
  destruct (x <? y); simpl; [intuition |].
  destruct (x =? y) eqn:E; simpl.
  - apply Z.eqb_eq in E. subst. intuition.
  - rewrite IH. intuition.
Qed.

Lemma insert_label_sorted x l :
  StronglySorted Z.lt l -> StronglySorted Z.lt (insert_label x l).
Proof.
  induction l as [|y l IH]; simpl; intros Hs.
  - repeat constructor.
  - apply StronglySorted_inv in Hs. destruct Hs as [Hs Hy].
    destruct (x <? y) eqn:E1.
    + apply Z.ltb_lt in E1. constructor; [now constructor |].
      constructor; [exact E1 |].
      eapply List.Forall_impl; [| exact Hy]. intros z Hz. simpl in Hz. lia.
    + destruct (x =? y) eqn:E2; [now constructor |].
      apply Z.ltb_ge in E1. apply Z.eqb_neq in E2.
      constructor; [now apply IH |].
      apply List.Forall_forall. intros z Hz. apply in_insert_label in Hz.
      destruct Hz as [-> | Hz]; [lia |].
      rewrite List.Forall_forall in Hy. now apply Hy.
Qed.

Lemma in_label_set xs x : In x (label_set xs) <-> In x xs.
Proof.
  induction xs as [|y xs IH]; simpl; [tauto |].
  rewrite in_insert_label, IH. intuition.
Qed.

Lemma label_set_sorted xs : StronglySorted Z.lt (label_set xs).
Proof.
  induction xs as [|y xs IH]; simpl; [constructor |].
  now apply insert_label_sorted.
Qed.

Lemma in_insert_sorted x l z : In z (insert_sorted x l) <-> z = x \/ In z l.
Proof.
  induction l as [|y l IH]; simpl; [intuition |].
  destruct (tuple_leb x y); simpl; [intuition |].
  rewrite IH. intuition.
Qed.

Lemma insert_sorted_lt_key x l :
  StronglySorted lt_key l -> ~ In (fst x) (map fst l) ->
  StronglySorted lt_key (insert_sorted x l).
Proof.
  induction l as [|y l IH]; simpl; intros Hs Hfresh.
  - repeat constructor.
  - apply StronglySorted_inv in Hs. destruct Hs as [Hs Hy].
    unfold tuple_leb. destruct (fst x <? fst y) eqn:E1; simpl.
    + apply Z.ltb_lt in E1. constructor; [now constructor |].
      constructor; [exact E1 |].
      eapply List.Forall_impl; [| exact Hy]. unfold lt_key. intros z Hz. lia.
    + apply Z.ltb_ge in E1.
      replace (fst x =? fst y) with false
        by (symmetry; apply Z.eqb_neq; intros E; apply Hfresh; now left).
      simpl. constructor; [apply IH; [exact Hs | tauto] |].
      apply List.Forall_forall. intros z Hz. apply in_insert_sorted in Hz.
      destruct Hz as [-> | Hz].
      * unfold lt_key. assert (fst y <> fst x) by tauto. lia.
      * rewrite List.Forall_forall in Hy. now apply Hy.
Qed.

Lemma sorted_spec (l : list (Z * Z)) :
  NoDup (map fst l) ->
  StronglySorted lt_key (sorted l) /\ forall z, In z (sorted l) <-> In z l.
Proof.
  induction l as [|x l IH]; simpl; intros Hnd.
  - split; [constructor | tauto].
  - inversion Hnd as [|? ? Hnot Hnd']. subst.
    destruct (IH Hnd') as [Hs Hin]. split.
    + apply insert_sorted_lt_key; [exact Hs |].
      rewrite list_elem_of_In in Hnot. intros H. apply Hnot.
      apply in_map_iff in H. destruct H as (z & Ez & Hz).
      apply Hin in Hz. rewrite <- Ez. now apply in_map.
    + intros z. rewrite in_insert_sorted, Hin. intuition.
Qed.

(** Two lists in strictly ascending key order with the same elements are
    the same list. *)
Lemma lt_key_sorted_unique (l1 l2 : list (Z * Z)) :
  StronglySorted lt_key l1 -> StronglySorted lt_key l2 ->
  (forall z, In z l1 <-> In z l2) -> l1 = l2.
Proof.
  revert l2. induction l1 as [|a l1 IH]; intros l2 H1 H2 Hsame.
  - destruct l2 as [|b l2]; [reflexivity |].
    exfalso. apply (Hsame b). now left.
  - destruct l2 as [|b l2]; [exfalso; apply (Hsame a); now left |].
    apply StronglySorted_inv in H1, H2.
    destruct H1 as [H1 Ha], H2 as [H2 Hb].
    rewrite List.Forall_forall in Ha, Hb. unfold lt_key in Ha, Hb.
    assert (a = b) as ->.
    { destruct (proj1 (Hsame a) (or_introl eq_refl)) as [E | Hin]; [now symmetry |].
      destruct (proj2 (Hsame b) (or_introl eq_refl)) as [E | Hin']; [exact E |].
      specialize (Ha _ Hin'). specialize (Hb _ Hin). lia. }
    f_equal. apply IH; [assumption | assumption |].
    intros z. split; intros Hz.
    + destruct (proj1 (Hsame z) (or_intror Hz)) as [E | Hin]; [| exact Hin].
      subst z. specialize (Ha _ Hz). lia.
    + destruct (proj2 (Hsame z) (or_intror Hz)) as [E | Hin]; [| exact Hin].
      subst z. specialize (Hb _ Hz). lia.
Qed.

Lemma map_sorted_lt_key (f : Z -> Z) ls :
  StronglySorted Z.lt ls -> StronglySorted lt_key (map (fun l => (l, f l)) ls).
Proof.
  induction 1 as [|x ls Hs IH Hx]; simpl; constructor; [exact IH |].
  apply List.Forall_forall. intros z Hz. apply in_map_iff in Hz.
  destruct Hz as (y & <- & Hy). rewrite List.Forall_forall in Hx.
  unfold lt_key. simpl. now apply Hx.
Qed.

(** The sorted count table of a period is the table of occurrences over the
    ascending label set of the whole assignment. *)
Lemma sorted_counts (cluster_assignments period : list Z) :
  (forall x, In x period -> In x cluster_assignments) ->
  sorted (Counter period
            ++ map (fun num => (num, 0))
                   (List.filter
                      (fun num => negb (dict_mem (Counter period) num))
                      (py_set cluster_assignments)))
  = map (fun l => (l, occurrences l period)) (label_set cluster_assignments).
Proof.
  intros Hsub.
  set (extra := List.filter (fun num => negb (dict_mem (Counter period) num))
                            (py_set cluster_assignments)).
  assert (Hextra : forall k, In k extra
                             <-> In k cluster_assignments /\ ~ In k period).
  { intros k. unfold extra. rewrite List.filter_In, in_py_set, negb_true_iff.
    rewrite <- (in_keys_Counter period k), <- dict_mem_true.
    destruct (dict_mem (Counter period) k); intuition congruence. }
  destruct (sorted_spec (Counter period ++ map (fun num => (num, 0)) extra))
    as [Hs Hin].
  { rewrite map_app, map_map. simpl. rewrite map_id.
    apply NoDup_app. split; [apply keys_Counter_NoDup | split].
    - intros k Hk Hk'. rewrite list_elem_of_In in Hk, Hk'.
      apply (proj1 (in_keys_Counter period k)) in Hk.
      apply Hextra in Hk'. tauto.
    - unfold extra. apply NoDup_ListNoDup, List.NoDup_filter, NoDup_ListNoDup,
        py_set_NoDup. }
  apply lt_key_sorted_unique.
  - exact Hs.
  - apply map_sorted_lt_key, label_set_sorted.
  - intros [k c]. rewrite Hin, in_app_iff, in_Counter, !in_map_iff. split.
    + intros [[Hk ->] | (num & E & Hnum)].
      * exists k. split; [reflexivity |]. apply in_label_set. now apply Hsub.
      * inversion E. subst. apply Hextra in Hnum. destruct Hnum as [Hk Hno].
        exists k. split; [| now apply in_label_set].
        f_equal. now apply occurrences_zero.
    + intros (l & E & Hl). inversion E. subst.
      apply (proj1 (in_label_set _ _)) in Hl.
      destruct (in_dec Z.eq_dec k period) as [Hk | Hk].
      * left. split; [exact Hk | reflexivity].
      * right. exists k. split.
        -- f_equal. symmetry. now apply occurrences_zero.
        -- apply Hextra. split; assumption.
Qed.

Lemma comprehension_map {A B C} (g : B -> res C) (h : A -> B) xs :
  comprehension g (map h xs) = comprehension (fun x => g (h x)) xs.
Proof.
  induction xs as [|x xs IH]; simpl; [reflexivity |]. now rewrite IH.
Qed.

Lemma slice_bound_nonneg {A} (xs : list A) n :
  0 <= n -> slice_bound xs n = Z.to_nat n.
Proof.
  intros H. unfold slice_bound.
  replace (n <? 0) with false by (symmetry; apply Z.ltb_ge; lia). reflexivity.
Qed.

(** The code and the description agree on every assignment and every
    non-negative split point. *)
Lemma fit_categoricals_from_clusters_spec cluster_assignments p1 p2 :
  0 <= p1 ->
  semantic_change.fit_categoricals_from_clusters cluster_assignments p1 p2
  = fit_categoricals cluster_assignments p1 p2.
Proof.
  intros Hp1.
  unfold semantic_change.fit_categoricals_from_clusters, fit_categoricals,
    categorical, slice_to, slice_from.
  rewrite (slice_bound_nonneg _ _ Hp1).
  rewrite !sorted_counts, !comprehension_map.
  - reflexivity.
  - intros x Hx. rewrite <- (firstn_skipn (Z.to_nat p1) cluster_assignments).
    apply in_or_app. now right.
  - intros x Hx. rewrite <- (firstn_skipn (Z.to_nat p1) cluster_assignments).
    apply in_or_app. now left.
Qed.

(** C5.  For period lengths that sum to the length of the assignment,
    [fit_categoricals_from_clusters] (both modules) is the description: over
    the labels of the full assignment in ascending order, the number of
    occurrences in each of the two sub-sequences (0 when absent) divided by
    the respective period length.  On [0,0,1,1,2] split 3 + 2 it returns
    probs1 = [2/3, 1/3, 0] and probs2 = [0, 1/2, 1/2]. *)
Theorem fit_categoricals_from_clusters_counts :
  (forall (cluster_assignments : list Z) (period1_length period2_length : Z),
      0 <= period1_length -> 0 <= period2_length ->
      period1_length + period2_length = len cluster_assignments ->
      semantic_change.fit_categoricals_from_clusters
        cluster_assignments period1_length period2_length
      = fit_categoricals cluster_assignments period1_length period2_length
      /\ semantic_change_scores.fit_categoricals_from_clusters
           cluster_assignments period1_length period2_length
         = fit_categoricals cluster_assignments period1_length period2_length)
  /\ semantic_change.fit_categoricals_from_clusters [0; 0; 1; 1; 2] 3 2
     = Ok ([2 # 3; 1 # 3; 0 # 1]%Q, [0 # 1; 1 # 2; 1 # 2]%Q)
  /\ semantic_change_scores.fit_categoricals_from_clusters [0; 0; 1; 1; 2] 3 2
     = Ok ([2 # 3; 1 # 3; 0 # 1]%Q, [0 # 1; 1 # 2; 1 # 2]%Q).
Proof.
  split; [| split; reflexivity].
  intros ca p1 p2 Hp1 _ _. split.
  - now apply fit_categoricals_from_clusters_spec.
  - exact (fit_categoricals_from_clusters_spec ca p1 p2 Hp1).
Qed.

Lemma fit_categoricals_from_clusters_counts_witness :
  semantic_change.fit_categoricals_from_clusters [3; 1; 3; 1; 1; 7; 3] 4 3
  = fit_categoricals [3; 1; 3; 1; 1; 7; 3] 4 3
  /\ fit_categoricals [3; 1; 3; 1; 1; 7; 3] 4 3
     = Ok ([1 # 2; 1 # 2; 0 # 1]%Q, [1 # 3; 1 # 3; 1 # 3]%Q).
Proof.
  split.
  - apply (proj1 fit_categoricals_from_clusters_counts
                 [3; 1; 3; 1; 1; 7; 3] 4 3); [lia | lia | reflexivity].
  - reflexivity.
Defined.

(** *** The two vectors are distributions *)

Lemma label_set_NoDup xs : NoDup (label_set xs).
Proof.
  pose proof (label_set_sorted xs) as Hs.
  induction Hs as [|x l Hs IH Hx]; constructor; [| exact IH].
  rewrite list_elem_of_In. intros Hin.
  rewrite List.Forall_forall in Hx. specialize (Hx _ Hin). lia.
Qed.

Lemma length_label_set xs :
  length (label_set xs) = size (list_to_set xs : gset Z).
Proof.
  rewrite <- (size_list_to_set (C := gset Z) (label_set xs))
    by apply label_set_NoDup.
  f_equal. apply set_eq. intros x.
  rewrite !elem_of_list_to_set, !list_elem_of_In. apply in_label_set.
Qed.

Lemma Zsum_indicator_absent x ls :
  ~ In x ls -> Zsum (map (fun l => if l =? x then 1 else 0) ls) = 0.
Proof.
  induction ls as [|y ls IH]; simpl; [reflexivity |]. intros Hn.
  destruct (y =? x) eqn:E.
  - apply Z.eqb_eq in E. exfalso. apply Hn. now left.
  - rewrite IH; [reflexivity | tauto].
Qed.

Lemma Zsum_indicator x ls :
  NoDup ls -> In x ls -> Zsum (map (fun l => if l =? x then 1 else 0) ls) = 1.
Proof.
  induction 1 as [|y ls Hy Hnd IH]; simpl; [tauto |].
  rewrite list_elem_of_In in Hy. intros [-> | Hin].
  - rewrite Z.eqb_refl, Zsum_indicator_absent by exact Hy. reflexivity.
  - destruct (y =? x) eqn:E.
    + apply Z.eqb_eq in E. subst. contradiction.
    + now rewrite IH.
Qed.

Lemma Zsum_map_add {A} (f g : A -> Z) ls :
  Zsum (map (fun l => f l + g l) ls) = Zsum (map f ls) + Zsum (map g ls).
Proof. induction ls as [|y ls IH]; simpl; [reflexivity | rewrite IH; lia]. Qed.

(** Counting each label of a duplicate-free support counts every point of
    the period once. *)
Lemma Zsum_occurrences labels period :
  NoDup labels -> (forall x, In x period -> In x labels) ->
  Zsum (map (fun l => occurrences l period) labels) = len period.
Proof.
  intros Hnd. induction period as [|x period IH]; intros Hsub.
  - unfold occurrences, len. simpl.
    induction labels as [|l labels IHl]; simpl; [reflexivity |].
    inversion Hnd. subst. now rewrite IHl.
  - rewrite (map_ext _ (fun l => (if l =? x then 1 else 0)
                                 + occurrences l period))
      by (intros l; apply occurrences_cons).
    rewrite Zsum_map_add, Zsum_indicator, IH.
    + unfold len. simpl length. lia.
    + intros y Hy. apply Hsub. now right.
    + exact Hnd.
    + apply Hsub. now left.
Qed.

Lemma categorical_defined labels period n :
  n <> 0 ->
  categorical labels period n
  = Ok (map (fun l => Qred (inject_Z (occurrences l period) / inject_Z n))
            labels).
Proof.
  intros Hn. unfold categorical, truediv.
  replace (n =? 0) with false by (symmetry; now apply Z.eqb_neq).
  induction labels as [|l labels IH]; simpl; [reflexivity |].
  now rewrite IH.
Qed.

Lemma Qsum_quotients (f : Z -> Z) (n : Z) ls :
  (Qsum (map (fun l => Qred (inject_Z (f l) / inject_Z n)) ls)
   == inject_Z (Zsum (map f ls)) / inject_Z n)%Q.
Proof.
  induction ls as [|l ls IH]; simpl.
  - unfold Qdiv. now rewrite Qmult_0_l.
  - rewrite IH, Qred_correct, inject_Z_plus. unfold Qdiv.
    now rewrite Qmult_plus_distr_l.
Qed.

(** *** Both readings divide the same counts *)

Lemma comprehension_counts (count : Z -> Z) n ls :
  n <> 0 ->
  comprehension (fun '(_, c) => truediv c n) (map (fun l => (l, count l)) ls)
  = Ok (exact_quotients n (map count ls)).
Proof.
  intros Hn. unfold truediv, exact_quotients.
  replace (n =? 0) with false by (symmetry; now apply Z.eqb_neq).
  induction ls as [|l ls IH]; simpl; [reflexivity |]. now rewrite IH.
Qed.

Lemma comprehension_counts_binary64 (count : Z -> Z) n ls :
  n <> 0 ->
  comprehension (fun '(_, c) => Binary64.truediv c n)
                (map (fun l => (l, count l)) ls)
  = Ok (binary64_quotients n (map count ls)).
Proof.
  intros Hn. unfold Binary64.truediv, binary64_quotients.
  replace (n =? 0) with false by (symmetry; now apply Z.eqb_neq).
  induction ls as [|l ls IH]; simpl; [reflexivity |]. now rewrite IH.
Qed.

Lemma in_slice_to {A} (xs : list A) n x : In x (slice_to xs n) -> In x xs.
Proof.
  unfold slice_to. intros Hx.
  rewrite <- (firstn_skipn (slice_bound xs n) xs). apply in_or_app. now left.
Qed.

Lemma in_slice_from {A} (xs : list A) n x : In x (slice_from xs n) -> In x xs.
Proof.
  unfold slice_from. intros Hx.
  rewrite <- (firstn_skipn (slice_bound xs n) xs). apply in_or_app. now right.
Qed.

Lemma len_slice_to {A} (xs : list A) n :
  0 <= n <= len xs -> len (slice_to xs n) = n.
Proof.
  intros Hn. unfold slice_to, len in *.
  rewrite slice_bound_nonneg, List.length_firstn by lia. lia.
Qed.

Lemma len_slice_from {A} (xs : list A) n :
  0 <= n <= len xs -> len (slice_from xs n) = len xs - n.
Proof.
  intros Hn. unfold slice_from, len in *.
  rewrite slice_bound_nonneg, List.length_skipn by lia. lia.
Qed.

(** The exact reading and the binary64 reading return the quotients of the
    same integer counts, and the counts of a period add up to its size. *)
Lemma fit_categoricals_from_clusters_quotients ca p1 p2 :
  p1 <> 0 -> p2 <> 0 ->
  semantic_change.fit_categoricals_from_clusters ca p1 p2
  = Ok (exact_quotients p1 (period_counts ca (slice_to ca p1)),
        exact_quotients p2 (period_counts ca (slice_from ca p1)))
  /\ Binary64.fit_categoricals_from_clusters ca p1 p2
     = Ok (binary64_quotients p1 (period_counts ca (slice_to ca p1)),
           binary64_quotients p2 (period_counts ca (slice_from ca p1)))
  /\ Zsum (period_counts ca (slice_to ca p1)) = len (slice_to ca p1)
  /\ Zsum (period_counts ca (slice_from ca p1)) = len (slice_from ca p1).
Proof.
  intros Hp1 Hp2. split; [| split; [| split]].
  - unfold semantic_change.fit_categoricals_from_clusters.
    rewrite !sorted_counts by (intros x; first [apply in_slice_to
                                               | apply in_slice_from]).
    rewrite !comprehension_counts by assumption. reflexivity.
  - unfold Binary64.fit_categoricals_from_clusters.
    rewrite !sorted_counts by (intros x; first [apply in_slice_to
                                               | apply in_slice_from]).
    rewrite !comprehension_counts_binary64 by assumption. reflexivity.
  - apply Zsum_occurrences; [apply label_set_NoDup |].
    intros x Hx. apply in_label_set. eapply in_slice_to, Hx.
  - apply Zsum_occurrences; [apply label_set_NoDup |].
    intros x Hx. apply in_label_set. eapply in_slice_from, Hx.
Qed.

Lemma Qsum_exact_quotients n counts :
  (Qsum (exact_quotients n counts) == inject_Z (Zsum counts) / inject_Z n)%Q.
Proof.
  unfold exact_quotients.
  rewrite (Qsum_quotients (fun c => c) n counts). now rewrite map_id.
Qed.

Lemma Qsum_exact_quotients_one n counts :
  n <> 0 -> Zsum counts = n -> (Qsum (exact_quotients n counts) == 1)%Q.
Proof.
  intros Hn Hsum. rewrite Qsum_exact_quotients, Hsum.
  unfold Qdiv. apply Qmult_inv_r.
  intros E. apply Hn. unfold Qeq in E. simpl in E. lia.
Qed.

(** C6 (amended).  For positive period lengths that sum to the length of the
    assignment, [fit_categoricals_from_clusters] returns two vectors of the
    same length, the number of distinct labels of the full assignment.  Entry
    i of a vector is the quotient count_i / period_length of an integer
    count, and the counts of a vector add up to its period length.  So the
    quotients of each vector sum to 1 when they are taken exactly; the
    vectors the code returns hold these quotients rounded to binary64. *)
Theorem fit_categoricals_from_clusters_distributions :
  forall (cluster_assignments : list Z) (period1_length period2_length : Z),
    0 < period1_length -> 0 < period2_length ->
    period1_length + period2_length = len cluster_assignments ->
    let counts1 :=
      period_counts cluster_assignments
                    (slice_to cluster_assignments period1_length) in
    let counts2 :=
      period_counts cluster_assignments
                    (slice_from cluster_assignments period1_length) in
    Binary64.fit_categoricals_from_clusters
      cluster_assignments period1_length period2_length
    = Ok (binary64_quotients period1_length counts1,
          binary64_quotients period2_length counts2)
    /\ semantic_change.fit_categoricals_from_clusters
         cluster_assignments period1_length period2_length
       = Ok (exact_quotients period1_length counts1,
             exact_quotients period2_length counts2)
    /\ length (binary64_quotients period1_length counts1)
       = size (list_to_set cluster_assignments : gset Z)
    /\ length (binary64_quotients period2_length counts2)
       = size (list_to_set cluster_assignments : gset Z)
    /\ Zsum counts1 = period1_length
    /\ Zsum counts2 = period2_length
    /\ (Qsum (exact_quotients period1_length counts1) == 1)%Q
    /\ (Qsum (exact_quotients period2_length counts2) == 1)%Q.
Proof.
  intros ca p1 p2 Hp1 Hp2 Hlen counts1 counts2.
  destruct (fit_categoricals_from_clusters_quotients ca p1 p2)
    as (Hexact & Hfloat & Hsum1 & Hsum2); [lia | lia |].
  fold counts1 in Hexact, Hfloat, Hsum1. fold counts2 in Hexact, Hfloat, Hsum2.
  rewrite len_slice_to in Hsum1 by lia.
  rewrite len_slice_from in Hsum2 by lia.
  replace (len ca - p1) with p2 in Hsum2 by lia.
  split; [exact Hfloat |]. split; [exact Hexact |].
  split; [| split].
  - unfold binary64_quotients, counts1, period_counts.
    rewrite !length_map. apply length_label_set.
  - unfold binary64_quotients, counts2, period_counts.
    rewrite !length_map. apply length_label_set.
  - split; [exact Hsum1 |]. split; [exact Hsum2 |].
    split; apply Qsum_exact_quotients_one; (lia || assumption).
Qed.

Lemma fit_categoricals_from_clusters_distributions_witness :
  Binary64.fit_categoricals_from_clusters [0; 0; 1; 1; 2] 3 2
  = Ok (binary64_quotients 3 (period_counts [0; 0; 1; 1; 2]
                                            (slice_to [0; 0; 1; 1; 2] 3)),
        binary64_quotients 2 (period_counts [0; 0; 1; 1; 2]
                                            (slice_from [0; 0; 1; 1; 2] 3)))
  /\ semantic_change.fit_categoricals_from_clusters [0; 0; 1; 1; 2] 3 2
     = Ok (exact_quotients 3 (period_counts [0; 0; 1; 1; 2]
                                            (slice_to [0; 0; 1; 1; 2] 3)),
           exact_quotients 2 (period_counts [0; 0; 1; 1; 2]
                                            (slice_from [0; 0; 1; 1; 2] 3)))
  /\ length (binary64_quotients 3 (period_counts [0; 0; 1; 1; 2]
                                     (slice_to [0; 0; 1; 1; 2] 3)))
     = size (list_to_set [0; 0; 1; 1; 2] : gset Z)
  /\ length (binary64_quotients 2 (period_counts [0; 0; 1; 1; 2]
                                     (slice_from [0; 0; 1; 1; 2] 3)))
     = size (list_to_set [0; 0; 1; 1; 2] : gset Z)
  /\ Zsum (period_counts [0; 0; 1; 1; 2] (slice_to [0; 0; 1; 1; 2] 3)) = 3
  /\ Zsum (period_counts [0; 0; 1; 1; 2] (slice_from [0; 0; 1; 1; 2] 3)) = 2
  /\ Qeq (Qsum (exact_quotients 3 (period_counts [0; 0; 1; 1; 2]
                                     (slice_to [0; 0; 1; 1; 2] 3)))) 1%Q
  /\ Qeq (Qsum (exact_quotients 2 (period_counts [0; 0; 1; 1; 2]
                                     (slice_from [0; 0; 1; 1; 2] 3)))) 1%Q.
Proof.
  apply (fit_categoricals_from_clusters_distributions [0; 0; 1; 1; 2] 3 2);
    [lia | lia | reflexivity].
Defined.

(** C6, the claim as stated fails: the sum is not exactly 1.  Two periods
    that each hold six labels once: every entry of the first vector is the
    float nearest to 1/6.  Added up in binary64 the
    six entries give the float just below 1 (0.9999999999999999), which is
    not equal to 1; added up exactly they give 1 - 2^-54. *)
Lemma fit_categoricals_from_clusters_sum_not_one :
  Binary64.fit_categoricals_from_clusters
    [0; 1; 2; 3; 4; 5; 0; 1; 2; 3; 4; 5] 6 6
  = Ok (repeat (Binary64.ratio 1 6) 6, repeat (Binary64.ratio 1 6) 6)
  /\ PrimFloat.eqb (Binary64.np_sum (repeat (Binary64.ratio 1 6) 6))
                   PrimFloat.one = false
  /\ Binary64.np_sum (repeat (Binary64.ratio 1 6) 6)
     = PrimFloat.next_down PrimFloat.one
  /\ (Qsum (map Binary64.to_Q (repeat (Binary64.ratio 1 6) 6))
      == 1 - (1 # 2) ^ 54)%Q.
Proof.
  split; [vm_compute; reflexivity |].
  split; [vm_compute; reflexivity |].
  split; vm_compute; reflexivity.
Qed.

(* ------------------------------------------------------------------ *)
(** ** The APD table                                                   *)
(* ------------------------------------------------------------------ *)

Section APDTable.
Context (apply_PCA : list Np.vec -> Z -> list Np.vec).
Context (corpus1_reps corpus2_reps : gmap string (list Np.vec)).
Context (dim min_tweets : Z).

Lemma get_APD_scores_from (targets : list string) (acc : semantic_change.APD_scores) :
  let step := fun scores target =>
       match corpus1_reps !! target, corpus2_reps !! target with
       | Some X1, Some X2 =>
           if (len X1 <=? min_tweets) || (len X2 <=? min_tweets)
           then scores
           else
             {| semantic_change.word := semantic_change.word scores ++ [target];
                semantic_change.combined_APD :=
                  semantic_change.combined_APD scores
                    ++ [semantic_change.compute_average_pairwise_difference
                          (slice_to (apply_PCA (X1 ++ X2) dim) (len X1))
                          (slice_from (apply_PCA (X1 ++ X2) dim) (len X1))
                          "combined2"] |}
       | _, _ => scores
       end in
  let kept := List.filter (scored corpus1_reps corpus2_reps min_tweets) targets in
  fold_left step targets acc
  = {| semantic_change.word := semantic_change.word acc ++ kept;
       semantic_change.combined_APD :=
         semantic_change.combined_APD acc
           ++ map (combined_APD_entry apply_PCA corpus1_reps corpus2_reps dim)
                  kept |}.
Proof.
  cbv zeta. revert acc.
  induction targets as [|target targets IH]; intros acc.
  - simpl. rewrite !app_nil_r. now destruct acc.
  - cbn [fold_left List.filter]. rewrite IH. clear IH.
    assert (He : combined_APD_entry apply_PCA corpus1_reps corpus2_reps dim
                                    target
                 = match corpus1_reps !! target, corpus2_reps !! target with
                   | Some X1, Some X2 =>
                       semantic_change.compute_average_pairwise_difference
                         (slice_to (apply_PCA (X1 ++ X2) dim) (len X1))
                         (slice_from (apply_PCA (X1 ++ X2) dim) (len X1))
                         "combined2"
                   | _, _ => semantic_change.EmptyList
                   end) by reflexivity.
    destruct (scored corpus1_reps corpus2_reps min_tweets target) eqn:Hs;
      cbn [map]; unfold scored in Hs; rewrite ?He; clear He.
    + destruct (corpus1_reps !! target) as [X1|]; [| discriminate].
      destruct (corpus2_reps !! target) as [X2|]; [| discriminate].
      apply andb_true_iff in Hs. destruct Hs as [H1 H2].
      apply Z.ltb_lt in H1, H2.
      replace (len X1 <=? min_tweets) with false
        by (symmetry; apply Z.leb_gt; lia).
      replace (len X2 <=? min_tweets) with false
        by (symmetry; apply Z.leb_gt; lia).
      cbn [orb semantic_change.word semantic_change.combined_APD].
      now rewrite <- !app_assoc.
    + destruct (corpus1_reps !! target) as [X1|]; [| reflexivity].
      destruct (corpus2_reps !! target) as [X2|]; [| reflexivity].
      apply andb_false_iff in Hs.
      replace ((len X1 <=? min_tweets) || (len X2 <=? min_tweets)) with true;
        [reflexivity |].
      symmetry. apply orb_true_iff.
      destruct Hs as [H | H]; apply Z.ltb_ge in H;
        [left | right]; apply Z.leb_le; lia.
Qed.

End APDTable.

(** C8.  [get_APD_scores] keeps, in input order, exactly the targets that
    are present in both stores and have more than [min_tweets] samples in
    both periods; each of them contributes one entry to the [word] column and
    one to the [combined_APD] column.  A target missing from either store, or
    with a period of at most [min_tweets] samples, appears in neither. *)
Theorem get_APD_scores_skips_sparse_targets :
  forall (apply_PCA : list Np.vec -> Z -> list Np.vec)
         (corpus1_reps corpus2_reps : gmap string (list Np.vec))
         (targets : list string) (dim min_tweets : Z),
    let scores := semantic_change.get_APD_scores
                    apply_PCA corpus1_reps corpus2_reps targets dim min_tweets in
    let kept := List.filter (scored corpus1_reps corpus2_reps min_tweets)
                            targets in
    semantic_change.word scores = kept
    /\ semantic_change.combined_APD scores
       = map (combined_APD_entry apply_PCA corpus1_reps corpus2_reps dim) kept
    /\ (forall target,
           corpus1_reps !! target = None \/ corpus2_reps !! target = None
           \/ (exists X1, corpus1_reps !! target = Some X1
                          /\ len X1 <= min_tweets)
           \/ (exists X2, corpus2_reps !! target = Some X2
                          /\ len X2 <= min_tweets) ->
           ~ In target (semantic_change.word scores)).
Proof.
  intros apply_PCA c1 c2 targets dim min_tweets scores kept.
  assert (Heq : scores
                = {| semantic_change.word := kept;
                     semantic_change.combined_APD :=
                       map (combined_APD_entry apply_PCA c1 c2 dim) kept |}).
  { unfold scores, semantic_change.get_APD_scores.
    exact (get_APD_scores_from apply_PCA c1 c2 dim min_tweets targets
             {| semantic_change.word := [];
                semantic_change.combined_APD := [] |}). }
  rewrite Heq. simpl. repeat split.
  intros target Hskip Hin. unfold kept in Hin.
  apply List.filter_In in Hin. destruct Hin as [_ Hscored].
  unfold scored in Hscored.
  destruct (c1 !! target) as [X1|] eqn:E1; [| discriminate].
  destruct (c2 !! target) as [X2|] eqn:E2; [| discriminate].
  apply andb_true_iff in Hscored. destruct Hscored as [H1 H2].
  apply Z.ltb_lt in H1, H2.
  destruct Hskip as [H | [H | [(X & H & Hle) | (X & H & Hle)]]];
    try discriminate; inversion H; subst; lia.
Qed.

Lemma get_APD_scores_skips_sparse_targets_witness :
  ~ In "yeet"%string
       (semantic_change.word
          (semantic_change.get_APD_scores
             (fun X _ => X) {[ "yeet"%string := [[1%R; 0%R]] ]} ∅
             ["yeet"%string] 100 150)).
Proof.
  apply (get_APD_scores_skips_sparse_targets
           (fun X _ => X) {[ "yeet"%string := [[1%R; 0%R]] ]} ∅
           ["yeet"%string] 100 150).
  right. left. apply lookup_empty.
Defined.

(* ------------------------------------------------------------------ *)
(** ** Average pairwise difference                                     *)
(* ------------------------------------------------------------------ *)

(** C7.  The claim: a metric name outside the supported set makes
    [compute_average_pairwise_difference] signal an error.  The code has no
    [else] branch: it returns the initial value of [APD], the empty list. *)
Theorem unsupported_metric_returns_empty_list :
  forall (period1_reps period2_reps : list Np.vec) (dist : string),
    ~ In dist supported_metrics ->
    semantic_change.compute_average_pairwise_difference
      period1_reps period2_reps dist
    = semantic_change.EmptyList.
Proof.
  intros p1 p2 dist Hdist.
  unfold semantic_change.compute_average_pairwise_difference.
  repeat match goal with
         | |- context [(dist =? ?m)%string] =>
             destruct (String.eqb_spec dist m) as [-> | _];
             [exfalso; apply Hdist; simpl; tauto |]
         end.
  reflexivity.
Qed.

Lemma unsupported_metric_returns_empty_list_witness :
  semantic_change.compute_average_pairwise_difference
    [[1%R; 0%R]] [[0%R; 1%R]] "combined"
  = semantic_change.EmptyList.
Proof.
  apply unsupported_metric_returns_empty_list.
  unfold supported_metrics. simpl.
  intros H. repeat (destruct H as [H | H]; [discriminate H |]). exact H.
Defined.

Section PairwiseSums.
Import Np.

Lemma Rsum_app l1 l2 : Rsum (l1 ++ l2) = (Rsum l1 + Rsum l2)%R.
Proof. induction l1 as [|x l1 IH]; simpl; [lra | rewrite IH; lra]. Qed.

Lemma Rsum_flat_map_cons {A} (h : A -> R) (g : A -> list R) (B : list A) :
  Rsum (flat_map (fun b => h b :: g b) B)
  = (Rsum (map h B) + Rsum (flat_map g B))%R.
Proof.
  induction B as [|b B IH]; simpl; [lra |].
  rewrite !Rsum_app, IH. lra.
Qed.

(** Summing over all pairs row by row or column by column. *)
Lemma Rsum_pairwise_swap (f : vec -> vec -> R) (A B : list vec) :
  Rsum (semantic_change.pairwise f A B)
  = Rsum (semantic_change.pairwise (fun b a => f a b) B A).
Proof.
  unfold semantic_change.pairwise.
  induction A as [|a A IH]; simpl.
  - induction B as [|b B IHB]; simpl; [reflexivity | exact IHB].
  - rewrite Rsum_app, IH, Rsum_flat_map_cons. reflexivity.
Qed.

Lemma length_pairwise (f : vec -> vec -> R) (A B : list vec) :
  length (semantic_change.pairwise f A B) = (length A * length B)%nat.
Proof.
  unfold semantic_change.pairwise.
  induction A as [|a A IH]; simpl; [reflexivity |].
  now rewrite List.length_app, length_map, IH.
Qed.

Lemma pairwise_ext (f g : vec -> vec -> R) (A B : list vec) :
  (forall a b, In a A -> In b B -> f a b = g a b) ->
  semantic_change.pairwise f A B = semantic_change.pairwise g A B.
Proof.
  unfold semantic_change.pairwise. intros H.
  induction A as [|a A IH]; simpl; [reflexivity |].
  rewrite IH by (intros; apply H; [now right | assumption]).
  f_equal. apply map_ext_in. intros b Hb. apply H; [now left | exact Hb].
Qed.

(** The mean over all pairs of a symmetric function does not depend on
    which set comes first. *)
Lemma mean_pairwise_sym (f : vec -> vec -> R) (A B : list vec) :
  (forall a b, f a b = f b a) ->
  mean (semantic_change.pairwise f A B) = mean (semantic_change.pairwise f B A).
Proof.
  intros Hsym. unfold mean.
  rewrite Rsum_pairwise_swap, !length_pairwise, Nat.mul_comm.
  now rewrite (pairwise_ext (fun b a => f a b) f B A) by (intros; apply Hsym).
Qed.

Lemma mean2_cosine_similarity (A B : list vec) :
  mean2 (cosine_similarity A B)
  = mean (semantic_change.pairwise
            (fun x y => dot (normalize_row x) (normalize_row y)) A B).
Proof.
  unfold mean2, cosine_similarity, semantic_change.pairwise.
  now rewrite <- flat_map_concat_map.
Qed.

(** *** Symmetry of the distances on a pair *)

Lemma zip_with_sym (g : R -> R -> R) (x y : vec) :
  (forall a b, g a b = g b a) -> zip_with g x y = zip_with g y x.
Proof.
  intros Hg. revert y.
  induction x as [|a x IH]; intros [|b y]; simpl; try reflexivity.
  now rewrite Hg, IH.
Qed.

Lemma dot_sym x y : dot x y = dot y x.
Proof.
  unfold dot. f_equal. apply zip_with_sym. intros. apply Rmult_comm.
Qed.

Lemma sub_squares_sym x y :
  map (fun a => a * a)%R (sub x y) = map (fun a => a * a)%R (sub y x).
Proof.
  unfold sub. revert y.
  induction x as [|a x IH]; intros [|b y]; simpl; try reflexivity.
  rewrite IH. f_equal. ring.
Qed.

Lemma norm_sub_sym x y : norm (sub x y) = norm (sub y x).
Proof. unfold norm. now rewrite sub_squares_sym. Qed.

Lemma norm1_sub_sym x y : norm1 (sub x y) = norm1 (sub y x).
Proof.
  unfold norm1, sub. f_equal. revert y.
  induction x as [|a x IH]; intros [|b y]; simpl; try reflexivity.
  now rewrite IH, Rabs_minus_sym.
Qed.

Lemma canberra_sym x y : canberra x y = canberra y x.
Proof.
  unfold canberra. f_equal. apply zip_with_sym.
  intros a b. now rewrite Rabs_minus_sym, Rplus_comm.
Qed.

Lemma scaled_l2_sym x y :
  semantic_change.scaled_l2 x y = semantic_change.scaled_l2 y x.
Proof.
  unfold semantic_change.scaled_l2. now rewrite norm_sub_sym, Rplus_comm.
Qed.

Lemma scaled_l1_sym x y :
  semantic_change.scaled_l1 x y = semantic_change.scaled_l1 y x.
Proof.
  unfold semantic_change.scaled_l1. now rewrite norm1_sub_sym, Rplus_comm.
Qed.

Lemma scaled_canberra_sym x y :
  semantic_change.scaled_canberra x y = semantic_change.scaled_canberra y x.
Proof.
  unfold semantic_change.scaled_canberra. now rewrite canberra_sym.
Qed.

Lemma scaled_cosine_sym A B :
  semantic_change.scaled_cosine A B = semantic_change.scaled_cosine B A.
Proof.
  unfold semantic_change.scaled_cosine.
  rewrite !mean2_cosine_similarity.
  now rewrite (mean_pairwise_sym _ A B) by (intros; apply dot_sym).
Qed.

End PairwiseSums.

(** C9 (amended).  In exact real arithmetic, for non-empty point sets of one
    dimension without a zero vector and each of the eight supported metrics,
    the average pairwise difference of (A, B) equals that of (B, A): each
    pair distance is symmetric and the sum over all pairs does not depend on
    the order of the pairs.  No rounding is involved in this statement. *)
Theorem compute_average_pairwise_difference_symmetric :
  forall (A B : list Np.vec) (d : nat) (m : string),
    A <> [] -> B <> [] ->
    Forall (fun v => length v = d) (A ++ B) ->
    Forall nonzero_vector (A ++ B) ->
    In m supported_metrics ->
    semantic_change.compute_average_pairwise_difference A B m
    = semantic_change.compute_average_pairwise_difference B A m.
Proof.
  intros A B d m _ _ _ _ Hm.
  unfold semantic_change.compute_average_pairwise_difference.
  rewrite (scaled_cosine_sym A B).
  rewrite (mean2_cosine_similarity A B), (mean2_cosine_similarity B A).
  rewrite (mean_pairwise_sym
             (fun x y => Np.dot (Np.normalize_row x) (Np.normalize_row y)) A B)
    by (intros; apply dot_sym).
  rewrite (mean_pairwise_sym (fun x1 x2 => Np.norm (Np.sub x2 x1)) A B)
    by (intros; apply norm_sub_sym).
  rewrite (mean_pairwise_sym (fun x1 x2 => Np.norm1 (Np.sub x2 x1)) A B)
    by (intros; apply norm1_sub_sym).
  rewrite (mean_pairwise_sym Np.canberra A B) by apply canberra_sym.
  rewrite (mean_pairwise_sym semantic_change.scaled_l2 A B)
    by apply scaled_l2_sym.
  rewrite (mean_pairwise_sym semantic_change.scaled_l1 A B)
    by apply scaled_l1_sym.
  rewrite (mean_pairwise_sym semantic_change.scaled_canberra A B)
    by apply scaled_canberra_sym.
  reflexivity.
Qed.

Lemma compute_average_pairwise_difference_symmetric_witness :
  semantic_change.compute_average_pairwise_difference
    [[1%R; 0%R]; [2%R; 1%R]] [[0%R; 1%R]; [3%R; 1%R]; [1%R; 1%R]] "manhattan"
  = semantic_change.compute_average_pairwise_difference
      [[0%R; 1%R]; [3%R; 1%R]; [1%R; 1%R]] [[1%R; 0%R]; [2%R; 1%R]] "manhattan".
Proof.
  apply (compute_average_pairwise_difference_symmetric
           [[1%R; 0%R]; [2%R; 1%R]] [[0%R; 1%R]; [3%R; 1%R]; [1%R; 1%R]]
           2%nat "manhattan").
  - discriminate.
  - discriminate.
  - repeat constructor.
  - repeat (apply List.Forall_cons || apply List.Forall_nil);
      first [apply Exists_cons_hd; lra
            | apply Exists_cons_tl, Exists_cons_hd; lra].
  - unfold supported_metrics. simpl. tauto.
Defined.

(** C9, the claim as stated fails: on binary64 numbers the order of the two
    sets matters.
    With A = [[0.1], [0.2]] and B = [[0.3], [0.4], [0.7]] the manhattan
    average is 0.3166666666666667 for (A, B) and 0.31666666666666665 for
    (B, A): the six distances are the same numbers, added in another order,
    and the two sums round differently. *)
Lemma compute_average_pairwise_difference_order_matters :
  exists x y,
    Binary64.compute_average_pairwise_difference
      [[Binary64.ratio 1 10]; [Binary64.ratio 2 10]]
      [[Binary64.ratio 3 10]; [Binary64.ratio 4 10]; [Binary64.ratio 7 10]]
      "manhattan"
    = Binary64.Float x
    /\ Binary64.compute_average_pairwise_difference
         [[Binary64.ratio 3 10]; [Binary64.ratio 4 10]; [Binary64.ratio 7 10]]
         [[Binary64.ratio 1 10]; [Binary64.ratio 2 10]]
         "manhattan"
       = Binary64.Float y
    /\ PrimFloat.eqb x y = false
    /\ x = PrimFloat.next_up y
    /\ Permutation
         (Binary64.pairwise
            (fun x1 x2 => Binary64.norm1 (Binary64.sub x2 x1))
            [[Binary64.ratio 1 10]; [Binary64.ratio 2 10]]
            [[Binary64.ratio 3 10]; [Binary64.ratio 4 10];
             [Binary64.ratio 7 10]])
         (Binary64.pairwise
            (fun x1 x2 => Binary64.norm1 (Binary64.sub x2 x1))
            [[Binary64.ratio 3 10]; [Binary64.ratio 4 10];
             [Binary64.ratio 7 10]]
            [[Binary64.ratio 1 10]; [Binary64.ratio 2 10]]).
Proof.
  do 2 eexists.
  split; [cbv; reflexivity |]. split; [cbv; reflexivity |].
  split; [vm_compute; reflexivity |]. split; [vm_compute; reflexivity |].
  vm_compute. solve_Permutation.
Qed.

(* ------------------------------------------------------------------ *)
(** ** Further properties of the silhouette grid search                *)
(* ------------------------------------------------------------------ *)

Lemma range_empty a b : b <= a -> range a b = [].
Proof.
  intros H. unfold range. replace (Z.to_nat (b - a)) with 0%nat by lia.
  reflexivity.
Qed.

(** An empty grid (no candidate K, or no seed) makes both copies fail with
    [ValueError] from [max()] of an empty sequence, whatever the model name:
    the fallback to a single cluster is not reached. *)
Theorem get_clusters_by_silhouette_empty_grid :
  forall (L : Externals) (data : list (point L)) (model : string)
         (k_min k_max : Z) (seeds : list Z) (threshold : Q),
    k_max < k_min \/ seeds = [] ->
    forall g,
      semantic_change.get_clusters_by_silhouette
        L data model k_min k_max seeds threshold g = (Raise ValueError, g)
      /\ semantic_change_scores.get_clusters_by_silhouette
           L data model k_min k_max seeds threshold g = (Raise ValueError, g).
Proof.
  intros L data model k_min k_max seeds threshold H g.
  unfold semantic_change.get_clusters_by_silhouette,
    semantic_change_scores.get_clusters_by_silhouette.
  destruct (Z.lt_ge_cases k_max k_min) as [Hlt | Hge].
  - rewrite (range_empty k_min (k_max + 1)) by lia. split; reflexivity.
  - destruct H as [H | ->]; [lia |].
    destruct (range k_min (k_max + 1)); split; reflexivity.
Qed.

Lemma get_clusters_by_silhouette_empty_grid_witness :
  semantic_change.get_clusters_by_silhouette
    Stub.externals [0; 1; 2; 10; 11; 12] "kmeans" 2 10 [] (1 # 10) 0
  = (Raise ValueError, 0)
  /\ semantic_change_scores.get_clusters_by_silhouette
       Stub.externals [0; 1; 2; 10; 11; 12] "kmeans" 2 10 [] (1 # 10) 0
     = (Raise ValueError, 0).
Proof.
  apply (get_clusters_by_silhouette_empty_grid
           Stub.externals [0; 1; 2; 10; 11; 12] "kmeans" 2 10 [] (1 # 10)).
  right. reflexivity.
Defined.

(** On a non-empty grid an unsupported model name makes
    [semantic_change.get_clusters_by_silhouette] raise [NameError], while
    [semantic_change_scores.get_clusters_by_silhouette] returns normally and
    its return value is the exception object. *)
Theorem get_clusters_by_silhouette_unknown_model :
  forall (L : Externals) (data : list (point L)) (model : string)
         (k_min k_max : Z) (seeds : list Z) (threshold : Q),
    model <> "kmeans"%string -> model <> "gmm"%string ->
    seeds <> [] -> k_min <= k_max ->
    forall g,
      semantic_change.get_clusters_by_silhouette
        L data model k_min k_max seeds threshold g = (Raise NameError, g)
      /\ semantic_change_scores.get_clusters_by_silhouette
           L data model k_min k_max seeds threshold g
         = (Ok (ExceptionObject NameError), g).
Proof.
  intros L data model k_min k_max seeds threshold Hk Hg Hseeds Hgrid g. split.
  - now apply sc_silhouette_unknown_model.
  - now apply scs_silhouette_unknown_model.
Qed.

Lemma get_clusters_by_silhouette_unknown_model_witness :
  semantic_change.get_clusters_by_silhouette
    Stub.externals [0; 1; 2; 10; 11; 12] "agglomerative" 2 4 [7] (1 # 10) 0
  = (Raise NameError, 0)
  /\ semantic_change_scores.get_clusters_by_silhouette
       Stub.externals [0; 1; 2; 10; 11; 12] "agglomerative" 2 4 [7] (1 # 10) 0
     = (Ok (ExceptionObject NameError), 0).
Proof.
  apply (get_clusters_by_silhouette_unknown_model
           Stub.externals [0; 1; 2; 10; 11; 12] "agglomerative" 2 4 [7]
           (1 # 10)); [discriminate | discriminate | discriminate | lia].
Defined.

Section Winner.
Context (L : Externals) (data : list (point L)).
Context (model : string) (seeds : list Z) (k_min k_max : Z) (threshold : Q).
Hypothesis Hmodel : model = "kmeans"%string \/ model = "gmm"%string.
Hypothesis Hseeds : seeds <> [].
Hypothesis Hgrid : k_min <= k_max.


End Winner.





(** *** Ties: the first maximum wins *)










(* ------------------------------------------------------------------ *)
(** ** Further properties of the score-driven selection                *)
(* ------------------------------------------------------------------ *)

Section ScoreWinner.
Context (L : Externals) (data : list (point L)).
Context (k_min k_max : Z).

Lemma sc_score_kmeans_winner seeds :
  exists r,
    evals (semantic_change.get_clusters_by_score L data "kmeans" k_min k_max
                                                 seeds) r
    /\ (r = Raise UnboundLocalError
        \/ exists seed,
            In seed seeds
            /\ r = Ok (refit_labels L data k_min k_max seed,
                       elbow_K L data k_min k_max seed)
            /\ (0 < refit_silhouette L data k_min k_max seed)%Q
            /\ forall seed', In seed' seeds ->
                             (refit_silhouette L data k_min k_max seed'
                              <= refit_silhouette L data k_min k_max seed)%Q).
Proof.
  unfold semantic_change.get_clusters_by_score.
  change ("kmeans" =? "kmeans")%string with true. cbv iota.
  set (sil := refit_silhouette L data k_min k_max).
  set (body := fun (seed : Z) (st : Q * option Z * option (list Z)) => _).
  destruct (evals_for_each
              (fun pre '(bs, bK, bl) =>
                 (bs = 0%Q /\ bK = None /\ bl = None
                  /\ forall seed, In seed pre -> (sil seed <= 0)%Q)
                 \/ exists seed,
                     In seed pre /\ bs = sil seed
                     /\ bK = Some (elbow_K L data k_min k_max seed)
                     /\ bl = Some (refit_labels L data k_min k_max seed)
                     /\ (0 < sil seed)%Q
                     /\ forall seed', In seed' pre ->
                                      (sil seed' <= sil seed)%Q)
              body seeds (0%Q, None, None))
    as ([[bs bK] bl] & Hrun & Hinv).
  - left. repeat split; try reflexivity. intros seed [].
  - intros pre seed [[bs bK] bl] Hinv _. subst body. cbv beta iota.
    exists (if Qltb bs (sil seed)
            then (sil seed, Some (elbow_K L data k_min k_max seed),
                  Some (refit_labels L data k_min k_max seed))
            else (bs, bK, bl)).
    split.
    + eapply evals_bind; [apply evals_choose_kmeans_k_with_elbow |].
      eapply evals_bind; [eapply evals_fit_predict_seeded; reflexivity |].
      fold (refit_labels L data k_min k_max seed).
      change (silhouette_score L data (refit_labels L data k_min k_max seed))
        with (sil seed).
      destruct (Qltb bs (sil seed)); apply evals_ret.
    + destruct (Qltb bs (sil seed)) eqn:E.
      * apply Qltb_true in E. right. exists seed.
        assert (Hpos : (0 < sil seed)%Q).
        { destruct Hinv as [(-> & _) | (s0 & _ & -> & _ & _ & Hp & _)];
            [exact E | eapply Qlt_trans; eassumption]. }
        split; [apply in_or_app; right; now left |].
        repeat split; try reflexivity; [exact Hpos |].
        intros s1 Hs1. apply in_app_or in Hs1.
        destruct Hs1 as [Hs1 | [<- | []]]; [| apply Qle_refl].
        destruct Hinv as [(-> & _ & _ & Hall) | (s0 & _ & -> & _ & _ & _ & Hmax)].
        -- eapply Qle_trans; [apply Hall, Hs1 | now apply Qlt_le_weak].
        -- eapply Qle_trans; [apply Hmax, Hs1 | now apply Qlt_le_weak].
      * apply Qltb_false in E.
        destruct Hinv as [(-> & -> & -> & Hall)
                         | (s0 & Hin & -> & -> & -> & Hp & Hmax)].
        -- left. repeat split; try reflexivity.
           intros s1 Hs1. apply in_app_or in Hs1.
           destruct Hs1 as [Hs1 | [<- | []]]; [now apply Hall | exact E].
        -- right. exists s0. split; [apply in_or_app; now left |].
           repeat split; try reflexivity; [exact Hp |].
           intros s1 Hs1. apply in_app_or in Hs1.
           destruct Hs1 as [Hs1 | [<- | []]]; [now apply Hmax | exact E].
  - destruct Hinv as [(-> & -> & -> & Hall)
                     | (s0 & Hin & -> & -> & -> & Hp & Hmax)].
    + exists (Raise UnboundLocalError). split; [| now left].
      eapply evals_bind; [exact Hrun |]. cbv beta iota.
      apply evals_bind_raise, evals_raise.
    + eexists. split.
      * eapply evals_bind; [exact Hrun |]. cbv beta iota.
        eapply evals_bind; [apply evals_local_some |].
        eapply evals_bind; [apply evals_local_some |]. apply evals_ret.
      * right. exists s0. repeat split; assumption.
Qed.

End ScoreWinner.

(** When [get_clusters_by_score] with [model="kmeans"] returns a pair, it is
    the pair of one seed of the list: K is what the elbow detector gave for
    that seed, the labels are the k-means refit at that K and seed, and that
    refit's silhouette is positive and the largest over all seeds. *)
Theorem get_clusters_by_score_kmeans_returns_best_seed :
  forall (L : Externals) (data : list (point L)) (k_min k_max : Z)
         (seeds : list Z) g labels K g',
    semantic_change.get_clusters_by_score L data "kmeans" k_min k_max seeds g
    = (Ok (labels, K), g') ->
    exists seed,
      In seed seeds
      /\ K = elbow_K L data k_min k_max seed
      /\ labels = refit_labels L data k_min k_max seed
      /\ (0 < refit_silhouette L data k_min k_max seed)%Q
      /\ forall seed', In seed' seeds ->
                       (refit_silhouette L data k_min k_max seed'
                        <= refit_silhouette L data k_min k_max seed)%Q.
Proof.
  intros L data k_min k_max seeds g labels K g' Hrun.
  destruct (sc_score_kmeans_winner L data k_min k_max seeds)
    as (r & Hr & [-> | (seed & Hin & -> & Hpos & Hmax)]);
    rewrite Hr in Hrun; [discriminate |].
  inversion Hrun. exists seed. repeat split; assumption.
Qed.

Lemma get_clusters_by_score_kmeans_returns_best_seed_witness :
  let L := Stub.externals in
  let data := [0; 1; 2; 10; 11; 12] in
  exists seed,
    In seed [0; 1]
    /\ 3 = elbow_K L data 2 4 seed
    /\ [0; 1; 1; 2; 2; 2] = refit_labels L data 2 4 seed
    /\ Qlt 0 (refit_silhouette L data 2 4 seed)
    /\ forall seed', In seed' [0; 1] ->
                     Qle (refit_silhouette L data 2 4 seed')
                         (refit_silhouette L data 2 4 seed).
Proof.
  apply (get_clusters_by_score_kmeans_returns_best_seed
           Stub.externals [0; 1; 2; 10; 11; 12] 2 4 [0; 1] 3
           [0; 1; 1; 2; 2; 2] 3 3).
  vm_compute. reflexivity.
Defined.

(** *** The fixed-K heuristic *)

Lemma for_each_invariant {G A S} (I : S -> Prop) (body : A -> S -> M G S)
      (xs : list A) :
  (forall x s g, In x xs -> I s ->
                 exists s' g', body x s g = (Ok s', g') /\ I s') ->
  forall s g, I s -> exists s' g', for_each xs body s g = (Ok s', g') /\ I s'.
Proof.
  induction xs as [|x xs IH]; intros Hstep s g Hs.
  - exists s, g. split; [reflexivity | exact Hs].
  - destruct (Hstep x s g (or_introl eq_refl) Hs) as (s1 & g1 & Hx & H1).
    destruct (IH (fun y s g Hy => Hstep y s g (or_intror Hy)) s1 g1 H1)
      as (s' & g' & Hrun & Hs').
    exists s', g'. split; [| exact Hs'].
    simpl. unfold bind. now rewrite Hx.
Qed.

Lemma fit_predict_unseeded (L : Externals) e (data : list (point L)) g :
  random_state_of e = None ->
  fit_predict L e data g
  = (Ok (labels_ L (fst (fit_shared L e data g))), snd (fit_shared L e data g)).
Proof.
  intros He. unfold fit_predict, fit, bind, ret. rewrite He.
  now destruct (fit_shared L e data g).
Qed.

(** Whenever [get_kmeans_cluster_labels] returns, that is when no fit and
    no silhouette computation of scikit-learn raised, its copy [get_labels]
    returns the same pair, and the pair is either K = 1 with the all-zero
    labels, or one of the candidate Ks with labels whose silhouette is above
    0.1. *)
Theorem get_kmeans_cluster_labels_fallback_or_above_threshold :
  forall (L : Externals) (data : list (point L)) (Ks : list Z) (g g' : rng L)
         (labels : list Z) (K : Z),
    semantic_change.get_kmeans_cluster_labels L data Ks g
    = (Ok (labels, K), g') ->
    semantic_change_scores.get_labels L data Ks g = (Ok (labels, K), g')
    /\ ((K = 1 /\ labels = repeat 0 (length data))
        \/ (In K Ks /\ (1 # 10 < silhouette_score L data labels)%Q)).
Proof.
  intros L data Ks g g' labels K Hret.
  split; [exact Hret |].
  revert Hret. unfold semantic_change.get_kmeans_cluster_labels.
  set (body := fun (K : Z) (st : Q * Z * list Z) => _).
  destruct (for_each_invariant
              (fun '(bs, bK, bl) =>
                 (bs = (1 # 10)%Q /\ bK = 1 /\ bl = np_zeros L data)
                 \/ (In bK Ks /\ bs = silhouette_score L data bl
                     /\ (1 # 10 < bs)%Q))
              body Ks) with (s := ((1 # 10)%Q, 1, np_zeros L data)) (g := g)
    as ([[bs bK] bl] & g1 & Hrun & Hinv).
  - intros K0 [[bs bK] bl] g0 HK Hinv. subst body. cbv beta iota.
    unfold bind at 1. rewrite fit_predict_unseeded by reflexivity.
    set (f := fst (fit_shared L (KMeans K0 None None None) data g0)).
    destruct (Qltb bs (silhouette_score L data (labels_ L f))) eqn:E.
    + do 2 eexists. split; [reflexivity |]. right.
      apply Qltb_true in E. repeat split; [exact HK |].
      destruct Hinv as [(-> & _) | (_ & _ & Hlt)]; [exact E |].
      eapply Qlt_trans; eassumption.
    + do 2 eexists. split; [reflexivity | exact Hinv].
  - left. repeat split.
  - unfold bind. rewrite Hrun. cbv beta iota. unfold ret.
    intros Hret. injection Hret as <- <- <-.
    destruct Hinv as [(_ & -> & ->) | (HK & -> & Hlt)];
      [left; split; reflexivity | right; split; assumption].
Qed.

Lemma get_kmeans_cluster_labels_fallback_or_above_threshold_witness :
  semantic_change_scores.get_labels Stub.externals [0; 1; 2; 10; 11; 12]
                                    [2; 3] 0
  = (Ok ([0; 0; 0; 1; 1; 1], 2), 2)
  /\ ((2 = 1 /\ [0; 0; 0; 1; 1; 1] = repeat 0 (length [0; 1; 2; 10; 11; 12]))
      \/ (In 2 [2; 3]
          /\ Qlt (1 # 10)
                 (silhouette_score Stub.externals [0; 1; 2; 10; 11; 12]
                                   [0; 0; 0; 1; 1; 1]))).
Proof.
  apply (get_kmeans_cluster_labels_fallback_or_above_threshold
           Stub.externals [0; 1; 2; 10; 11; 12] [2; 3] 0 2
           [0; 0; 0; 1; 1; 1] 2).
  vm_compute. reflexivity.
Defined.

(** *** The BIC branch *)

Section BicSearch.
Context (L : Externals) (data : list (point L)) (seed : Z).





End BicSearch.



(* ------------------------------------------------------------------ *)
(** ** Further properties of the categorical fitter                    *)
(* ------------------------------------------------------------------ *)

Lemma label_set_nil_iff ca : label_set ca = [] <-> ca = [].
Proof.
  split; [| now intros ->].
  destruct ca as [|x ca]; [reflexivity | intros H].
  assert (Hin : In x (label_set (x :: ca))) by (apply in_label_set; now left).
  rewrite H in Hin. destruct Hin.
Qed.

Lemma categorical_zero_length labels period :
  labels <> [] -> categorical labels period 0 = Raise ZeroDivisionError.
Proof. destruct labels; [congruence | reflexivity]. Qed.

(** The only failure of [fit_categoricals_from_clusters] is the division by
    a zero period length, and it happens exactly on a non-empty assignment:
    an empty assignment gives two empty vectors whatever the lengths. *)
Theorem fit_categoricals_from_clusters_zero_division :
  forall (cluster_assignments : list Z) (period1_length period2_length : Z),
    0 <= period1_length ->
    (cluster_assignments = [] ->
     semantic_change.fit_categoricals_from_clusters
       cluster_assignments period1_length period2_length = Ok ([], []))
    /\ (cluster_assignments <> [] ->
        period1_length = 0 \/ period2_length = 0 ->
        semantic_change.fit_categoricals_from_clusters
          cluster_assignments period1_length period2_length
        = Raise ZeroDivisionError)
    /\ (period1_length <> 0 -> period2_length <> 0 ->
        exists probs1 probs2,
          semantic_change.fit_categoricals_from_clusters
            cluster_assignments period1_length period2_length
          = Ok (probs1, probs2)).
Proof.
  intros ca p1 p2 Hp1.
  rewrite (fit_categoricals_from_clusters_spec ca p1 p2 Hp1).
  unfold fit_categoricals. split; [| split].
  - intros ->. reflexivity.
  - intros Hne Hzero.
    assert (Hl : label_set ca <> []) by (now rewrite label_set_nil_iff).
    destruct (Z.eq_dec p1 0) as [-> | Hp1'].
    + now rewrite categorical_zero_length.
    + destruct Hzero as [? | ->]; [contradiction |].
      rewrite (categorical_defined _ _ p1 Hp1').
      now rewrite categorical_zero_length.
  - intros H1 H2. rewrite !categorical_defined by assumption.
    do 2 eexists. reflexivity.
Qed.

Lemma fit_categoricals_from_clusters_zero_division_witness :
  semantic_change.fit_categoricals_from_clusters [0; 0; 1] 3 0
  = Raise ZeroDivisionError.
Proof.
  apply (proj1 (proj2 (fit_categoricals_from_clusters_zero_division
                         [0; 0; 1] 3 0 ltac:(lia)))).
  - discriminate.
  - right. reflexivity.
Defined.

Lemma Qdiv_one_iff a b :
  b <> 0 -> (inject_Z a / inject_Z b == 1)%Q <-> a = b.
Proof.
  intros Hb.
  assert (Hb' : ~ (inject_Z b == 0)%Q).
  { intros E. apply Hb. exact (proj1 (inject_Z_injective b 0) E). }
  split.
  - intros E. apply (proj1 (inject_Z_injective a b)).
    rewrite <- (Qmult_div_r (inject_Z a) (inject_Z b) Hb'), E.
    now rewrite Qmult_1_r.
  - intros ->. unfold Qdiv. now apply Qmult_inv_r.
Qed.



(** *** Order within a period does not matter *)

Lemma Z_sorted_unique (l1 l2 : list Z) :
  StronglySorted Z.lt l1 -> StronglySorted Z.lt l2 ->
  (forall z, In z l1 <-> In z l2) -> l1 = l2.
Proof.
  revert l2. induction l1 as [|a l1 IH]; intros l2 H1 H2 Hsame.
  - destruct l2 as [|b l2]; [reflexivity |].
    exfalso. apply (Hsame b). now left.
  - destruct l2 as [|b l2]; [exfalso; apply (Hsame a); now left |].
    apply StronglySorted_inv in H1, H2.
    destruct H1 as [H1 Ha], H2 as [H2 Hb].
    rewrite List.Forall_forall in Ha, Hb.
    assert (a = b) as ->.
    { destruct (proj1 (Hsame a) (or_introl eq_refl)) as [E | Hin]; [now symmetry |].
      destruct (proj2 (Hsame b) (or_introl eq_refl)) as [E | Hin']; [exact E |].
      specialize (Ha _ Hin'). specialize (Hb _ Hin). lia. }
    f_equal. apply IH; [assumption | assumption |].
    intros z. split; intros Hz.
    + destruct (proj1 (Hsame z) (or_intror Hz)) as [E | Hin]; [| exact Hin].
      subst z. specialize (Ha _ Hz). lia.
    + destruct (proj2 (Hsame z) (or_intror Hz)) as [E | Hin]; [| exact Hin].
      subst z. specialize (Hb _ Hz). lia.
Qed.

Lemma occurrences_Permutation l xs ys :
  Permutation xs ys -> occurrences l xs = occurrences l ys.
Proof.
  induction 1 as [| x xs ys _ IH | x y xs | xs ys zs _ IH1 _ IH2].
  - reflexivity.
  - now rewrite !occurrences_cons, IH.
  - rewrite !occurrences_cons. lia.
  - now rewrite IH1.
Qed.

Lemma comprehension_ext {A B} (f g : A -> res B) xs :
  (forall x, f x = g x) -> comprehension f xs = comprehension g xs.
Proof.
  intros H. induction xs as [|x xs IH]; simpl; [reflexivity |].
  now rewrite H, IH.
Qed.

(** Reordering the points inside each period changes nothing: the result
    depends only on how often each label occurs in each period. *)
Theorem fit_categoricals_from_clusters_order_irrelevant :
  forall (period1 period2 period1' period2' : list Z) (period2_length : Z),
    Permutation period1 period1' -> Permutation period2 period2' ->
    semantic_change.fit_categoricals_from_clusters
      (period1 ++ period2) (len period1) period2_length
    = semantic_change.fit_categoricals_from_clusters
        (period1' ++ period2') (len period1') period2_length.
Proof.
  intros a1 a2 b1 b2 p2 H1 H2.
  rewrite !fit_categoricals_from_clusters_spec by (unfold len; lia).
  unfold fit_categoricals, len. rewrite !Nat2Z.id.
  rewrite !firstn_app, !Nat.sub_diag, !firstn_all, !app_nil_r.
  rewrite !skipn_app, !Nat.sub_diag, !skipn_all. simpl.
  rewrite (Permutation_length H1).
  replace (label_set (b1 ++ b2)) with (label_set (a1 ++ a2)).
  - unfold categorical.
    rewrite (comprehension_ext _ (fun l => truediv (occurrences l b1)
                                                   (Z.of_nat (length b1))))
      by (intros l; now rewrite (occurrences_Permutation l a1 b1 H1)).
    rewrite (comprehension_ext
               (fun l => truediv (occurrences l a2) p2)
               (fun l => truediv (occurrences l b2) p2))
      by (intros l; now rewrite (occurrences_Permutation l a2 b2 H2)).
    reflexivity.
  - apply Z_sorted_unique; try apply label_set_sorted.
    intros z. rewrite !in_label_set, !in_app_iff.
    split; intros [H | H].
    + left. eapply Permutation_in; eassumption.
    + right. eapply Permutation_in; eassumption.
    + left. eapply Permutation_in; [symmetry |]; eassumption.
    + right. eapply Permutation_in; [symmetry |]; eassumption.
Qed.

Lemma fit_categoricals_from_clusters_order_irrelevant_witness :
  semantic_change.fit_categoricals_from_clusters
    ([0; 0; 1] ++ [1; 2]) (len [0; 0; 1]) 2
  = semantic_change.fit_categoricals_from_clusters
      ([0; 1; 0] ++ [2; 1]) (len [0; 1; 0]) 2.
Proof.
  apply fit_categoricals_from_clusters_order_irrelevant.
  - apply perm_skip, perm_swap.
  - apply perm_swap.
Defined.

(** *** Entries are probabilities *)

Lemma occurrences_le l xs : occurrences l xs <= len xs.
Proof.
  induction xs as [|x xs IH].
  - unfold occurrences, len. simpl. lia.
  - rewrite occurrences_cons. unfold len in *. simpl length.
    destruct (l =? x); lia.
Qed.

Lemma quotient_entry l period n :
  len period = n -> 0 < n ->
  let q := Qred (inject_Z (occurrences l period) / inject_Z n) in
  (0 <= q)%Q /\ (q <= 1)%Q /\ ((q == 0)%Q <-> ~ In l period).
Proof.
  intros Hlen Hn q. subst q. rewrite Qred_correct.
  pose proof (occurrences_nonneg l period) as H0.
  pose proof (occurrences_le l period) as H1. rewrite Hlen in H1.
  assert (Hpos : (0 < inject_Z n)%Q).
  { change 0%Q with (inject_Z 0). rewrite <- Zlt_Qlt. exact Hn. }
  assert (Hne : ~ (inject_Z n == 0)%Q).
  { intros E. rewrite E in Hpos. now apply Qlt_irrefl in Hpos. }
  split; [| split].
  - apply Qle_shift_div_l; [exact Hpos |]. rewrite Qmult_0_l.
    change 0%Q with (inject_Z 0). now rewrite <- Zle_Qle.
  - apply Qle_shift_div_r; [exact Hpos |]. rewrite Qmult_1_l.
    now rewrite <- Zle_Qle.
  - rewrite <- occurrences_zero. split.
    + intros E. apply (proj1 (inject_Z_injective _ 0)).
      rewrite <- (Qmult_div_r (inject_Z (occurrences l period)) (inject_Z n) Hne).
      rewrite E. now rewrite Qmult_0_r.
    + intros ->. unfold Qdiv. now rewrite Qmult_0_l.
Qed.

Lemma Forall2_map_same {A B} (P : A -> B -> Prop) (f : A -> B) l :
  (forall x, In x l -> P x (f x)) -> Forall2 P l (map f l).
Proof.
  induction l as [|x l IH]; intros H; simpl; constructor.
  - apply H. now left.
  - apply IH. intros y Hy. apply H. now right.
Qed.

(** For positive period lengths that add up to the length of the
    assignment, the i-th entry of each vector belongs to the i-th label in
    ascending order, lies between 0 and 1, and is 0 exactly when that label
    does not occur in that period. *)
Theorem fit_categoricals_from_clusters_entries :
  forall (cluster_assignments : list Z) (period1_length period2_length : Z),
    0 < period1_length -> 0 < period2_length ->
    period1_length + period2_length = len cluster_assignments ->
    exists probs1 probs2,
      semantic_change.fit_categoricals_from_clusters
        cluster_assignments period1_length period2_length
      = Ok (probs1, probs2)
      /\ Forall2 (fun l q =>
                    (0 <= q)%Q /\ (q <= 1)%Q
                    /\ ((q == 0)%Q
                        <-> ~ In l (slice_to cluster_assignments
                                             period1_length)))
                 (label_set cluster_assignments) probs1
      /\ Forall2 (fun l q =>
                    (0 <= q)%Q /\ (q <= 1)%Q
                    /\ ((q == 0)%Q
                        <-> ~ In l (slice_from cluster_assignments
                                               period1_length)))
                 (label_set cluster_assignments) probs2.
Proof.
  intros ca p1 p2 Hp1 Hp2 Hlen.
  rewrite fit_categoricals_from_clusters_spec by lia.
  unfold fit_categoricals, slice_to, slice_from.
  rewrite slice_bound_nonneg by lia.
  rewrite !categorical_defined by lia.
  do 2 eexists. split; [reflexivity |]. unfold len in Hlen. split.
  - apply Forall2_map_same. intros l _.
    apply (quotient_entry l (firstn (Z.to_nat p1) ca) p1); [| lia].
    unfold len. rewrite List.length_firstn. lia.
  - apply Forall2_map_same. intros l _.
    apply (quotient_entry l (skipn (Z.to_nat p1) ca) p2); [| lia].
    unfold len. rewrite List.length_skipn. lia.
Qed.

Lemma fit_categoricals_from_clusters_entries_witness :
  exists probs1 probs2,
    semantic_change.fit_categoricals_from_clusters [0; 0; 1; 1; 2] 3 2
    = Ok (probs1, probs2)
    /\ Forall2 (fun l q =>
                  (0 <= q)%Q /\ (q <= 1)%Q
                  /\ ((q == 0)%Q <-> ~ In l (slice_to [0; 0; 1; 1; 2] 3)))
               (label_set [0; 0; 1; 1; 2]) probs1
    /\ Forall2 (fun l q =>
                  (0 <= q)%Q /\ (q <= 1)%Q
                  /\ ((q == 0)%Q <-> ~ In l (slice_from [0; 0; 1; 1; 2] 3)))
               (label_set [0; 0; 1; 1; 2]) probs2.
Proof.
  apply (fit_categoricals_from_clusters_entries [0; 0; 1; 1; 2] 3 2);
    [lia | lia | reflexivity].
Defined.

(* ------------------------------------------------------------------ *)
(** ** Further properties of the metrics                               *)
(* ------------------------------------------------------------------ *)

Section MetricFacts.
Import Np.

Lemma Rsum_nonneg l : (forall x, In x l -> (0 <= x)%R) -> (0 <= Rsum l)%R.
Proof.
  induction l as [|x l IH]; simpl; intros H; [lra |].
  pose proof (H x (or_introl eq_refl)).
  assert (0 <= Rsum l)%R by (apply IH; intros y Hy; apply H; now right). lra.
Qed.

Lemma Rsum_zip_with_nonneg (g : R -> R -> R) u v :
  (forall a b, (0 <= g a b)%R) -> (0 <= Rsum (zip_with g u v))%R.
Proof.
  intros Hg. revert v.
  induction u as [|a u IH]; intros [|b v]; simpl; try lra.
  specialize (IH v). specialize (Hg a b). lra.
Qed.

Lemma Rdiv_nonneg x y : (0 <= x)%R -> (0 <= y)%R -> (0 <= x / y)%R.
Proof.
  intros Hx Hy. unfold Rdiv. destruct (Req_dec_T y 0) as [-> | Hne].
  - rewrite Rinv_0. lra.
  - apply Rmult_le_pos; [exact Hx |]. left. apply Rinv_0_lt_compat. lra.
Qed.

Lemma norm_nonneg x : (0 <= norm x)%R.
Proof. apply sqrt_pos. Qed.

Lemma norm1_nonneg x : (0 <= norm1 x)%R.
Proof.
  unfold norm1. apply Rsum_nonneg. intros y Hy. apply in_map_iff in Hy.
  destruct Hy as (a & <- & _). apply Rabs_pos.
Qed.

Lemma canberra_nonneg u v : (0 <= canberra u v)%R.
Proof.
  unfold canberra. apply Rsum_zip_with_nonneg. intros a b.
  apply Rdiv_nonneg; [apply Rabs_pos |].
  pose proof (Rabs_pos a). pose proof (Rabs_pos b). lra.
Qed.

Lemma mean_pairwise_nonneg (f : vec -> vec -> R) A B :
  (forall a b, (0 <= f a b)%R) ->
  (0 <= mean (semantic_change.pairwise f A B))%R.
Proof.
  intros Hf. unfold mean. apply Rdiv_nonneg.
  - apply Rsum_nonneg. intros x Hx. unfold semantic_change.pairwise in Hx.
    apply in_flat_map in Hx. destruct Hx as (a & _ & Hx).
    apply in_map_iff in Hx. destruct Hx as (b & <- & _). apply Hf.
  - apply pos_INR.
Qed.

End MetricFacts.

(** The three plain distances (euclidian, manhattan, canberra) give a
    non-negative average on non-empty point sets of one dimension. *)
Theorem compute_average_pairwise_difference_nonnegative :
  forall (A B : list Np.vec) (d : nat) (dist : string),
    A <> [] -> B <> [] ->
    Forall (fun v => length v = d) (A ++ B) ->
    In dist ["euclidian"; "manhattan"; "canberra"]%string ->
    exists r,
      semantic_change.compute_average_pairwise_difference A B dist
      = semantic_change.Float r
      /\ (0 <= r)%R.
Proof.
  intros A B d dist _ _ _ Hdist.
  unfold semantic_change.compute_average_pairwise_difference.
  simpl in Hdist.
  destruct Hdist as [<- | [<- | [<- | []]]]; simpl; eexists;
    (split; [reflexivity |]); apply mean_pairwise_nonneg; intros a b.
  - apply norm_nonneg.
  - apply norm1_nonneg.
  - apply canberra_nonneg.
Qed.

Lemma compute_average_pairwise_difference_nonnegative_witness :
  exists r,
    semantic_change.compute_average_pairwise_difference
      [[1%R; 0%R]] [[0%R; 1%R]; [2%R; 2%R]] "canberra"
    = semantic_change.Float r
    /\ (0 <= r)%R.
Proof.
  apply (compute_average_pairwise_difference_nonnegative
           [[1%R; 0%R]] [[0%R; 1%R]; [2%R; 2%R]] 2%nat "canberra").
  - discriminate.
  - discriminate.
  - repeat (apply List.Forall_cons; [reflexivity |]). apply List.Forall_nil.
  - simpl. tauto.
Defined.

Section NormalizeFacts.
Import Np.

Lemma Rsum_squares_nonneg x : (0 <= Rsum (map (fun a => a * a)%R x))%R.
Proof.
  apply Rsum_nonneg. intros y Hy. apply in_map_iff in Hy.
  destruct Hy as (a & <- & _). nra.
Qed.

Lemma Rsum_squares_scaled x n :
  n <> 0%R ->
  Rsum (map (fun a => a * a)%R (map (fun a => a / n)%R x))
  = (Rsum (map (fun a => a * a)%R x) / (n * n))%R.
Proof.
  intros Hn. induction x as [|a x IH]; simpl.
  - unfold Rdiv. now rewrite Rmult_0_l.
  - rewrite IH. field. exact Hn.
Qed.

Lemma norm_normalized x :
  norm x <> 0%R -> norm (map (fun a => a / norm x)%R x) = 1%R.
Proof.
  intros Hn. unfold norm at 1. rewrite Rsum_squares_scaled by exact Hn.
  unfold norm. rewrite sqrt_sqrt by apply Rsum_squares_nonneg.
  unfold norm in Hn.
  assert (Hs : Rsum (map (fun a => a * a)%R x) <> 0%R).
  { intros E. apply Hn. rewrite E. apply sqrt_0. }
  replace (Rsum (map (fun a => a * a)%R x) / Rsum (map (fun a => a * a)%R x))%R
    with 1%R by (field; exact Hs).
  apply sqrt_1.
Qed.

End NormalizeFacts.

(** [normalize_vectors] keeps the number of vectors and their dimension, and
    every vector of non-zero norm comes out with norm 1. *)
Theorem normalize_vectors_unit_norm :
  forall (X : list Np.vec),
    Forall (fun x => Np.norm x <> 0%R) X ->
    length (semantic_change.normalize_vectors X) = length X
    /\ Forall2 (fun x y => length y = length x /\ Np.norm y = 1%R)
               X (semantic_change.normalize_vectors X).
Proof.
  intros X HX. unfold semantic_change.normalize_vectors. split.
  - apply length_map.
  - apply Forall2_map_same. intros x Hx. split; [apply length_map |].
    apply norm_normalized. rewrite List.Forall_forall in HX. now apply HX.
Qed.

Lemma normalize_vectors_unit_norm_witness :
  length (semantic_change.normalize_vectors [[3%R; 4%R]]) = 1%nat
  /\ Forall2 (fun x y => length y = length x /\ Np.norm y = 1%R)
             [[3%R; 4%R]] (semantic_change.normalize_vectors [[3%R; 4%R]]).
Proof.
  apply (normalize_vectors_unit_norm [[3%R; 4%R]]).
  apply List.Forall_cons; [| apply List.Forall_nil].
  unfold Np.norm, Np.Rsum. simpl. intros E.
  apply sqrt_eq_0 in E; lra.
Defined.

(** Whatever the entropy function, [compute_entropy_difference] is a
    pseudo-distance on probability vectors: symmetric, non-negative, zero
    exactly when the two entropies coincide, and it obeys the triangle
    inequality. *)
Theorem compute_entropy_difference_pseudometric :
  forall (entropy : list Q -> R) (p q r : list Q),
    semantic_change.compute_entropy_difference entropy p q
    = semantic_change.compute_entropy_difference entropy q p
    /\ (0 <= semantic_change.compute_entropy_difference entropy p q)%R
    /\ (semantic_change.compute_entropy_difference entropy p q = 0%R
        <-> entropy p = entropy q)
    /\ (semantic_change.compute_entropy_difference entropy p r
        <= semantic_change.compute_entropy_difference entropy p q
           + semantic_change.compute_entropy_difference entropy q r)%R.
Proof.
  intros entropy p q r. unfold semantic_change.compute_entropy_difference.
  repeat split.
  - apply Rabs_minus_sym.
  - apply Rabs_pos.
  - intros H. destruct (Req_dec_T (entropy q - entropy p) 0) as [E | E]; [lra |].
    apply Rabs_no_R0 in E. contradiction.
  - intros ->. rewrite Rminus_diag. apply Rabs_R0.
  - replace (entropy r - entropy p)%R
      with ((entropy q - entropy p) + (entropy r - entropy q))%R by ring.
    apply Rabs_triang.
Qed.

(* ------------------------------------------------------------------ *)
(** ** Density-based scan                                              *)
(* ------------------------------------------------------------------ *)

Lemma count_occurrences x xs : count x xs = occurrences x xs.
Proof. reflexivity. Qed.

Lemma occurrences_all l xs :
  occurrences l xs = len xs <-> forall x, In x xs -> x = l.
Proof.
  induction xs as [|x xs IH].
  - split; [intros _ y [] | reflexivity].
  - rewrite occurrences_cons. pose proof (occurrences_le l xs) as Hle.
    unfold len in *. simpl length. destruct (l =? x) eqn:E.
    + apply Z.eqb_eq in E. subst x. split.
      * intros H y [<- | Hy]; [reflexivity |]. apply IH; [lia | exact Hy].
      * intros H. assert (occurrences l xs = Z.of_nat (length xs)); [| lia].
        apply IH. intros y Hy. apply H. now right.
    + apply Z.eqb_neq in E. split; [lia |].
      intros H. exfalso. apply E. symmetry. apply H. now left.
Qed.

Lemma len_py_set xs : len (py_set xs) = Z.of_nat (size (list_to_set xs : gset Z)).
Proof.
  unfold len. f_equal.
  rewrite <- (size_list_to_set (C := gset Z) (py_set xs)) by apply py_set_NoDup.
  f_equal. apply set_eq. intros x.
  rewrite !elem_of_list_to_set, !list_elem_of_In. apply in_py_set.
Qed.

Lemma num_clusters_distinct (labels : list Z) :
  len (py_set labels) - (if existsb (Z.eqb (-1)) labels then 1 else 0)
  = Z.of_nat (size ((list_to_set labels : gset Z) ∖ {[ -1 ]})).
Proof.
  rewrite len_py_set.
  destruct (existsb (Z.eqb (-1)) labels) eqn:E.
  - assert (Hin : (-1) ∈ (list_to_set labels : gset Z)).
    { apply elem_of_list_to_set, list_elem_of_In.
      apply existsb_exists in E. destruct E as (x & Hx & Ex).
      apply Z.eqb_eq in Ex. now subst. }
    rewrite size_difference by set_solver. rewrite size_singleton.
    assert (size (list_to_set labels : gset Z) <> 0%nat).
    { intros Hs. apply size_empty_inv in Hs. set_solver. }
    lia.
  - assert (Hout : (-1) ∉ (list_to_set labels : gset Z)).
    { rewrite elem_of_list_to_set, list_elem_of_In. intros Hin.
      assert (existsb (Z.eqb (-1)) labels = true); [| congruence].
      apply existsb_exists. exists (-1). split; [exact Hin | reflexivity]. }
    replace ((list_to_set labels : gset Z) ∖ {[ -1 ]})
      with (list_to_set labels : gset Z) by set_solver.
    lia.
Qed.

(** The noise fraction of a non-empty labelling. *)
Lemma noise_fraction (labels : list Z) :
  labels <> [] ->
  exists noise,
    truediv (count (-1) labels) (len labels) = Ok noise
    /\ (0 <= noise)%Q /\ (noise <= 1)%Q
    /\ (Qeq_bool noise 1 = true <-> forall l, In l labels -> l = -1).
Proof.
  intros Hne.
  assert (Hlen : 0 < len labels).
  { unfold len. destruct labels; [congruence | simpl; lia]. }
  unfold truediv.
  replace (len labels =? 0) with false by (symmetry; apply Z.eqb_neq; lia).
  destruct (quotient_entry (-1) labels (len labels) eq_refl Hlen)
    as (H0 & H1 & _).
  rewrite count_occurrences.
  eexists. split; [reflexivity |]. split; [exact H0 |]. split; [exact H1 |].
  rewrite Qeq_bool_iff, Qred_correct, Qdiv_one_iff by lia.
  apply occurrences_all.
Qed.

Section DbscanCell.
Context (L : Externals).
Context (DBSCAN_labels : Q -> Z -> list (point L) -> list Z).
Context (data : list (point L)) (epsilon : Q) (min_samples : Z).

Abbreviation labels := (DBSCAN_labels epsilon min_samples data).

(** What [cluster_with_dbscan] does once the fit has labelled the data. *)
Lemma cluster_with_dbscan_cases :
  data <> [] -> labels <> [] ->
  exists noise,
    (0 <= noise)%Q /\ (noise <= 1)%Q
    /\ (Qeq_bool noise 1 = true <-> forall l, In l labels -> l = -1)
    /\ semantic_change.cluster_with_dbscan L DBSCAN_labels data epsilon
                                           min_samples
       = if Qeq_bool noise 1
         then Ok (None,
                  Z.of_nat (size ((list_to_set labels : gset Z) ∖ {[ -1 ]})),
                  noise)
         else if (2 <=? len (py_set labels))
                 && (len (py_set labels) <=? len labels - 1)
              then Ok (Some (silhouette_score L data labels),
                       Z.of_nat (size ((list_to_set labels : gset Z)
                                         ∖ {[ -1 ]})),
                       noise)
              else Raise ValueError.
Proof.
  intros Hdata Hne.
  destruct (noise_fraction labels Hne) as (noise & Hdiv & H0 & H1 & Hall).
  exists noise. split; [exact H0 |]. split; [exact H1 |]. split; [exact Hall |].
  unfold semantic_change.cluster_with_dbscan, semantic_change.DBSCAN_fit.
  destruct data as [|x data']; [congruence |].
  cbn [res_bind]. rewrite Hdiv. cbn [res_bind].
  rewrite num_clusters_distinct.
  destruct (Qeq_bool noise 1); [reflexivity |].
  unfold semantic_change.checked_silhouette_score.
  destruct ((2 <=? len (py_set (DBSCAN_labels epsilon min_samples (x :: data'))))
            && (len (py_set (DBSCAN_labels epsilon min_samples (x :: data')))
                <=? len (DBSCAN_labels epsilon min_samples (x :: data')) - 1));
    reflexivity.
Qed.

End DbscanCell.

(** [cluster_with_dbscan] on an empty data set fails in the fit with
    [ValueError].  It also fails with [ValueError], in the unguarded call to
    [silhouette_score], when the labelling is not all noise and has a single
    distinct label (one cluster, no noise) or as many distinct labels as
    points.  Whenever it returns, the number of clusters is the number of
    distinct labels other than the noise label -1, the noise fraction lies
    between 0 and 1, the silhouette is NaN exactly when every point is noise,
    and otherwise it is the silhouette of the whole labelling, noise points
    included, which then has between 2 and n - 1 distinct labels. *)
Theorem cluster_with_dbscan_summary :
  forall (L : Externals) (DBSCAN_labels : Q -> Z -> list (point L) -> list Z)
         (data : list (point L)) (epsilon : Q) (min_samples : Z),
    let labels := DBSCAN_labels epsilon min_samples data in
    let n_labels := Z.of_nat (size (list_to_set labels : gset Z)) in
    (data = [] ->
     semantic_change.cluster_with_dbscan L DBSCAN_labels data epsilon
                                         min_samples
     = Raise ValueError)
    /\ (data <> [] ->
        (exists l, In l labels /\ l <> -1) ->
        n_labels < 2 \/ len labels <= n_labels ->
        semantic_change.cluster_with_dbscan L DBSCAN_labels data epsilon
                                            min_samples
        = Raise ValueError)
    /\ (forall silhouette num_clusters percent_noise,
           semantic_change.cluster_with_dbscan L DBSCAN_labels data epsilon
                                               min_samples
           = Ok (silhouette, num_clusters, percent_noise) ->
           num_clusters
           = Z.of_nat (size ((list_to_set labels : gset Z) ∖ {[ -1 ]}))
           /\ (0 <= percent_noise)%Q /\ (percent_noise <= 1)%Q
           /\ (silhouette = None <-> forall l, In l labels -> l = -1)
           /\ (silhouette <> None ->
               silhouette = Some (silhouette_score L data labels)
               /\ 2 <= n_labels <= len labels - 1)).
Proof.
  intros L DBSCAN_labels data epsilon min_samples labels n_labels.
  split; [intros ->; reflexivity |].
  assert (Hn : n_labels = len (py_set labels))
    by (symmetry; apply len_py_set).
  split.
  - intros Hdata (l & Hl & Hnoise) Hbad.
    assert (Hne : labels <> []) by (intros E; rewrite E in Hl; exact Hl).
    destruct (cluster_with_dbscan_cases L DBSCAN_labels data epsilon
                min_samples Hdata Hne) as (noise & _ & _ & Hall & ->).
    fold labels in Hall |- *.
    destruct (Qeq_bool noise 1).
    + exfalso. apply Hnoise. apply Hall; [reflexivity | exact Hl].
    + rewrite <- Hn.
      replace ((2 <=? n_labels) && (n_labels <=? len labels - 1)) with false;
        [reflexivity |].
      symmetry. apply andb_false_iff.
      destruct Hbad as [Hb | Hb]; [left; apply Z.leb_gt | right; apply Z.leb_gt];
        lia.
  - intros silhouette num_clusters percent_noise Hret.
    assert (Hdata : data <> []).
    { intros E. rewrite E in Hret. discriminate Hret. }
    assert (Hne : labels <> []).
    { intros E. revert Hret.
      unfold semantic_change.cluster_with_dbscan, semantic_change.DBSCAN_fit.
      destruct data; [congruence |]. cbn [res_bind]. fold labels.
      rewrite E. discriminate. }
    destruct (cluster_with_dbscan_cases L DBSCAN_labels data epsilon
                min_samples Hdata Hne) as (noise & H0 & H1 & Hall & Heq).
    fold labels in Hall, Heq. rewrite Heq in Hret. rewrite <- Hn in Hret.
    destruct (Qeq_bool noise 1) eqn:E1.
    + injection Hret as <- <- <-.
      split; [reflexivity |]. split; [exact H0 |]. split; [exact H1 |].
      split; [| intros H; congruence].
      split; [intros _; now apply Hall | reflexivity].
    + destruct ((2 <=? n_labels) && (n_labels <=? len labels - 1)) eqn:E2;
        [| discriminate Hret].
      injection Hret as <- <- <-.
      apply andb_true_iff in E2. destruct E2 as [Ea Eb].
      apply Z.leb_le in Ea, Eb.
      split; [reflexivity |]. split; [exact H0 |]. split; [exact H1 |].
      split.
      * split; [discriminate |].
        intros H. apply Hall in H. congruence.
      * intros _. split; [reflexivity | lia].
Qed.

Lemma cluster_with_dbscan_summary_witness :
  semantic_change.cluster_with_dbscan
    Stub.externals Stub.dbscan [0; 1; 2] 1 3
  = Raise ValueError
  /\ (2 = Z.of_nat (size ((list_to_set
                             (Stub.dbscan (3 # 2) 2 [0; 1; 2; 10; 11; 12; 50])
                           : gset Z) ∖ {[ -1 ]}))
      /\ Qle 0 (1 # 7) /\ Qle (1 # 7) 1
      /\ (Some (857 # 1155)%Q = None
          <-> forall l,
                In l (Stub.dbscan (3 # 2) 2 [0; 1; 2; 10; 11; 12; 50]) ->
                l = -1)
      /\ (Some (857 # 1155)%Q <> None ->
          Some (857 # 1155)%Q
          = Some (silhouette_score Stub.externals [0; 1; 2; 10; 11; 12; 50]
                    (Stub.dbscan (3 # 2) 2 [0; 1; 2; 10; 11; 12; 50]))
          /\ 2 <= Z.of_nat (size (list_to_set
                                    (Stub.dbscan (3 # 2) 2
                                                 [0; 1; 2; 10; 11; 12; 50])
                                  : gset Z))
             <= len (Stub.dbscan (3 # 2) 2 [0; 1; 2; 10; 11; 12; 50]) - 1)).
Proof.
  split.
  - apply (proj1 (proj2 (cluster_with_dbscan_summary
                           Stub.externals Stub.dbscan [0; 1; 2] 1 3))).
    + discriminate.
    + exists 0. split; [vm_compute; tauto | discriminate].
    + left. vm_compute. reflexivity.
  - apply (proj2 (proj2 (cluster_with_dbscan_summary
                           Stub.externals Stub.dbscan
                           [0; 1; 2; 10; 11; 12; 50] (3 # 2) 2))
                 (Some (857 # 1155)%Q) 2 (1 # 7)%Q).
    vm_compute. reflexivity.
Defined.

Section ResLoops.
Context {A S : Type}.

Lemma res_for_each_app (xs ys : list A) (body : A -> S -> res S) (s : S) :
  res_for_each (xs ++ ys) body s
  = res_bind (res_for_each xs body s) (res_for_each ys body).
Proof.
  revert s. induction xs as [|x xs IH]; intros s; simpl; [reflexivity |].
  destruct (body x s); simpl; [apply IH | reflexivity].
Qed.

Lemma res_for_each_map {B} (f : B -> A) (xs : list B) (body : A -> S -> res S)
      (s : S) :
  res_for_each (map f xs) body s = res_for_each xs (fun x => body (f x)) s.
Proof.
  revert s. induction xs as [|x xs IH]; intros s; simpl; [reflexivity |].
  destruct (body (f x) s); simpl; [apply IH | reflexivity].
Qed.

End ResLoops.

(** Two nested loops visit the pairs in the order of [list_prod]. *)
Lemma res_for_each_nested {A B S} (xs : list A) (ys : list B)
      (body : A -> B -> S -> res S) (s : S) :
  res_for_each xs (fun x s => res_for_each ys (body x) s) s
  = res_for_each (list_prod xs ys) (fun p => body (fst p) (snd p)) s.
Proof.
  revert s. induction xs as [|x xs IH]; intros s; simpl; [reflexivity |].
  rewrite res_for_each_app, res_for_each_map. simpl.
  destruct (res_for_each ys (body x) s); simpl; [apply IH | reflexivity].
Qed.

Section DbscanGrid.
Context (L : Externals).
Context (DBSCAN_labels : Q -> Z -> list (point L) -> list Z).
Context (shape1 : list (point L) -> Z).
Context (data : list (point L)).

Lemma grid_search_dbscan_rows (cells : list (Q * Z))
      (t : semantic_change.dbscan_table) :
  let step := fun (p : Q * Z) results =>
       res_bind (semantic_change.cluster_with_dbscan L DBSCAN_labels data
                                                     (fst p) (snd p))
         (fun r =>
            let '(sil, n, noise) := r in
            Ok {| semantic_change.epsilon :=
                    semantic_change.epsilon results ++ [fst p];
                  semantic_change.min_samples :=
                    semantic_change.min_samples results ++ [snd p];
                  semantic_change.silhouette :=
                    semantic_change.silhouette results ++ [sil];
                  semantic_change.num_clusters :=
                    semantic_change.num_clusters results ++ [n];
                  semantic_change.percent_noise :=
                    semantic_change.percent_noise results ++ [noise];
                  semantic_change.data_dim :=
                    semantic_change.data_dim results |}) in
  (forall eps ms, In (eps, ms) cells ->
                  exists row,
                    semantic_change.cluster_with_dbscan L DBSCAN_labels data
                                                        eps ms = Ok row) ->
  exists rows,
    Forall2 (fun p row =>
               semantic_change.cluster_with_dbscan L DBSCAN_labels data
                                                   (fst p) (snd p) = Ok row)
            cells rows
    /\ res_for_each cells step t
       = Ok {| semantic_change.epsilon :=
                 semantic_change.epsilon t ++ map fst cells;
               semantic_change.min_samples :=
                 semantic_change.min_samples t ++ map snd cells;
               semantic_change.silhouette :=
                 semantic_change.silhouette t
                   ++ map (fun r => fst (fst r)) rows;
               semantic_change.num_clusters :=
                 semantic_change.num_clusters t
                   ++ map (fun r => snd (fst r)) rows;
               semantic_change.percent_noise :=
                 semantic_change.percent_noise t ++ map snd rows;
               semantic_change.data_dim := semantic_change.data_dim t |}.
Proof.
  cbv zeta. revert t.
  induction cells as [|[eps ms] cells IH]; intros t Hne.
  - exists []. split; [constructor |]. simpl. rewrite !app_nil_r.
    now destruct t.
  - destruct (Hne eps ms (or_introl eq_refl)) as ([[sil n] noise] & Hcell).
    cbn [res_for_each fst snd]. rewrite Hcell. cbn [res_bind].
    destruct (IH {| semantic_change.epsilon :=
                      semantic_change.epsilon t ++ [eps];
                    semantic_change.min_samples :=
                      semantic_change.min_samples t ++ [ms];
                    semantic_change.silhouette :=
                      semantic_change.silhouette t ++ [sil];
                    semantic_change.num_clusters :=
                      semantic_change.num_clusters t ++ [n];
                    semantic_change.percent_noise :=
                      semantic_change.percent_noise t ++ [noise];
                    semantic_change.data_dim := semantic_change.data_dim t |})
      as (rows & Hrows & Hrun).
    { intros e m Hin. apply Hne. now right. }
    exists ((sil, n, noise) :: rows). split; [now constructor |].
    rewrite Hrun. cbn [semantic_change.epsilon semantic_change.min_samples
                       semantic_change.silhouette semantic_change.num_clusters
                       semantic_change.percent_noise semantic_change.data_dim
                       map fst snd].
    now rewrite <- !app_assoc.
Qed.

End DbscanGrid.

(** When [cluster_with_dbscan] returns for every grid cell,
    [grid_search_dbscan] returns one row per (epsilon, min_samples) pair,
    epsilons outermost, each row holding that cell's
    [cluster_with_dbscan] result, and the feature count of the data in
    [data_dim]; it selects nothing.  When a cell fails, as a cell with a
    single cluster and no noise does, the whole search fails with the error
    of the first such cell and no table is returned. *)
Theorem grid_search_dbscan_one_row_per_cell :
  forall (L : Externals) (DBSCAN_labels : Q -> Z -> list (point L) -> list Z)
         (shape1 : list (point L) -> Z) (data : list (point L))
         (candidate_epsilons : list Q) (candidate_min_samples : list Z),
    let cells := list_prod candidate_epsilons candidate_min_samples in
    ((forall eps ms, In eps candidate_epsilons -> In ms candidate_min_samples ->
                     exists row,
                       semantic_change.cluster_with_dbscan
                         L DBSCAN_labels data eps ms = Ok row) ->
     exists table rows,
       semantic_change.grid_search_dbscan L DBSCAN_labels shape1 data
                                          candidate_epsilons
                                          candidate_min_samples
       = Ok table
       /\ Forall2 (fun p row =>
                     semantic_change.cluster_with_dbscan
                       L DBSCAN_labels data (fst p) (snd p) = Ok row)
                  cells rows
       /\ semantic_change.epsilon table = map fst cells
       /\ semantic_change.min_samples table = map snd cells
       /\ semantic_change.silhouette table = map (fun r => fst (fst r)) rows
       /\ semantic_change.num_clusters table = map (fun r => snd (fst r)) rows
       /\ semantic_change.percent_noise table = map snd rows
       /\ semantic_change.data_dim table = shape1 data)
    /\ (forall earlier eps ms later e,
           cells = earlier ++ (eps, ms) :: later ->
           (forall p, In p earlier ->
                      exists row,
                        semantic_change.cluster_with_dbscan
                          L DBSCAN_labels data (fst p) (snd p) = Ok row) ->
           semantic_change.cluster_with_dbscan L DBSCAN_labels data eps ms
           = Raise e ->
           semantic_change.grid_search_dbscan L DBSCAN_labels shape1 data
                                              candidate_epsilons
                                              candidate_min_samples
           = Raise e).
Proof.
  intros L DBSCAN_labels shape1 data E Ms cells.
  unfold semantic_change.grid_search_dbscan.
  rewrite (res_for_each_nested E Ms
             (fun eps ms results =>
                res_bind (semantic_change.cluster_with_dbscan
                            L DBSCAN_labels data eps ms) _)).
  fold cells. split.
  - intros Hne.
    destruct (grid_search_dbscan_rows L DBSCAN_labels data cells
                {| semantic_change.epsilon := [];
                   semantic_change.min_samples := [];
                   semantic_change.silhouette := [];
                   semantic_change.num_clusters := [];
                   semantic_change.percent_noise := [];
                   semantic_change.data_dim := 0 |})
      as (rows & Hrows & Hrun).
    { intros eps ms Hin. apply in_prod_iff in Hin. now apply Hne. }
    rewrite Hrun. cbn [res_bind].
    do 2 eexists. split; [reflexivity |]. split; [exact Hrows |].
    repeat split.
  - intros earlier eps ms later e Hcells Hearlier Hfail.
    rewrite Hcells, res_for_each_app.
    destruct (grid_search_dbscan_rows L DBSCAN_labels data earlier
                {| semantic_change.epsilon := [];
                   semantic_change.min_samples := [];
                   semantic_change.silhouette := [];
                   semantic_change.num_clusters := [];
                   semantic_change.percent_noise := [];
                   semantic_change.data_dim := 0 |})
      as (rows & _ & Hrun).
    { intros eps' ms' Hin. exact (Hearlier (eps', ms') Hin). }
    rewrite Hrun. cbn [res_bind res_for_each fst snd].
    rewrite Hfail. reflexivity.
Qed.

Lemma grid_search_dbscan_one_row_per_cell_witness :
  (exists table rows,
      semantic_change.grid_search_dbscan
        Stub.externals Stub.dbscan (fun _ => 1)
        [0; 1; 2; 10; 11; 12] [(3 # 2)%Q; 3%Q] [2; 3]
      = Ok table
      /\ Forall2 (fun p row =>
                    semantic_change.cluster_with_dbscan
                      Stub.externals Stub.dbscan
                      [0; 1; 2; 10; 11; 12] (fst p) (snd p) = Ok row)
                 (list_prod [(3 # 2)%Q; 3%Q] [2; 3]) rows
      /\ semantic_change.epsilon table
         = map fst (list_prod [(3 # 2)%Q; 3%Q] [2; 3])
      /\ semantic_change.min_samples table
         = map snd (list_prod [(3 # 2)%Q; 3%Q] [2; 3])
      /\ semantic_change.silhouette table = map (fun r => fst (fst r)) rows
      /\ semantic_change.num_clusters table = map (fun r => snd (fst r)) rows
      /\ semantic_change.percent_noise table = map snd rows
      /\ semantic_change.data_dim table = 1)
  /\ semantic_change.grid_search_dbscan
       Stub.externals Stub.dbscan (fun _ => 1)
       [0; 1; 2; 10; 11; 12] [(3 # 2)%Q; 20%Q] [2]
     = Raise ValueError.
Proof.
  split.
  - apply (proj1 (grid_search_dbscan_one_row_per_cell
                    Stub.externals Stub.dbscan (fun _ => 1)
                    [0; 1; 2; 10; 11; 12] [(3 # 2)%Q; 3%Q] [2; 3])).
    intros eps ms [<- | [<- | []]] [<- | [<- | []]];
      eexists; vm_compute; reflexivity.
  - apply (proj2 (grid_search_dbscan_one_row_per_cell
                    Stub.externals Stub.dbscan (fun _ => 1)
                    [0; 1; 2; 10; 11; 12] [(3 # 2)%Q; 20%Q] [2])
                 [((3 # 2)%Q, 2)] 20%Q 2 [] ValueError).
    + reflexivity.
    + intros p [<- | []]. eexists. vm_compute. reflexivity.
    + vm_compute. reflexivity.
Defined.

(* ------------------------------------------------------------------ *)
(** ** The unguarded APD table                                         *)
(* ------------------------------------------------------------------ *)


Lemma sdict_get_set_eq {V} (d : sdict V) k v :
  sdict_get (sdict_set d k v) k = Some v.
Proof.
  induction d as [|[k' v'] d IH]; simpl.
  - now rewrite String.eqb_refl.
  - destruct (String.eqb_spec k' k) as [-> | Hk]; simpl.
    + now rewrite String.eqb_refl.
    + destruct (String.eqb_spec k' k); [contradiction | exact IH].
Qed.




(* ------------------------------------------------------------------ *)
(** ** The APD table of the second module                              *)
(* ------------------------------------------------------------------ *)

Lemma scs_compute_average_pairwise_difference_eq :
  semantic_change_scores.compute_average_pairwise_difference
  = semantic_change.compute_average_pairwise_difference.
Proof. reflexivity. Qed.

Section APDTableCopy.
Context (apply_PCA : list Np.vec -> Z -> list Np.vec).
Context (corpus1_reps corpus2_reps : gmap string (list Np.vec)).
Context (dim min_tweets : Z).

(** The entries of the two columns the first module does not have. *)
Lemma scs_get_APD_scores_from (targets : list string)
      (acc : semantic_change_scores.APD_scores) :
  exists euclidian cosine,
    length euclidian
    = length (List.filter (scored corpus1_reps corpus2_reps min_tweets) targets)
    /\ length cosine = length euclidian
    /\ fold_left
         (fun scores target =>
            match corpus1_reps !! target, corpus2_reps !! target with
            | Some X1, Some X2 =>
                if (len X1 <=? min_tweets) || (len X2 <=? min_tweets)
                then scores
                else
                  {| semantic_change_scores.word :=
                       semantic_change_scores.word scores ++ [target];
                     semantic_change_scores.Euclidian_APD :=
                       semantic_change_scores.Euclidian_APD scores
                         ++ [semantic_change_scores.compute_average_pairwise_difference
                               (slice_to (apply_PCA (X1 ++ X2) dim) (len X1))
                               (slice_from (apply_PCA (X1 ++ X2) dim) (len X1))
                               "euclidian"];
                     semantic_change_scores.cosine_APD :=
                       semantic_change_scores.cosine_APD scores
                         ++ [semantic_change_scores.compute_average_pairwise_difference
                               (slice_to (apply_PCA (X1 ++ X2) dim) (len X1))
                               (slice_from (apply_PCA (X1 ++ X2) dim) (len X1))
                               "cosine"];
                     semantic_change_scores.combined_APD :=
                       semantic_change_scores.combined_APD scores
                         ++ [semantic_change_scores.compute_average_pairwise_difference
                               (slice_to (apply_PCA (X1 ++ X2) dim) (len X1))
                               (slice_from (apply_PCA (X1 ++ X2) dim) (len X1))
                               "combined2"] |}
            | _, _ => scores
            end)
         targets acc
       = {| semantic_change_scores.word :=
              semantic_change_scores.word acc
                ++ List.filter (scored corpus1_reps corpus2_reps min_tweets)
                               targets;
            semantic_change_scores.Euclidian_APD :=
              semantic_change_scores.Euclidian_APD acc ++ euclidian;
            semantic_change_scores.cosine_APD :=
              semantic_change_scores.cosine_APD acc ++ cosine;
            semantic_change_scores.combined_APD :=
              semantic_change_scores.combined_APD acc
                ++ map (combined_APD_entry apply_PCA corpus1_reps corpus2_reps
                                           dim)
                       (List.filter (scored corpus1_reps corpus2_reps
                                            min_tweets) targets) |}.
Proof.
  revert acc.
  induction targets as [|target targets IH]; intros acc.
  - exists [], []. simpl. rewrite !app_nil_r. repeat split. now destruct acc.
  - cbn [fold_left List.filter].
    assert (He : combined_APD_entry apply_PCA corpus1_reps corpus2_reps dim
                                    target
                 = match corpus1_reps !! target, corpus2_reps !! target with
                   | Some X1, Some X2 =>
                       semantic_change.compute_average_pairwise_difference
                         (slice_to (apply_PCA (X1 ++ X2) dim) (len X1))
                         (slice_from (apply_PCA (X1 ++ X2) dim) (len X1))
                         "combined2"
                   | _, _ => semantic_change.EmptyList
                   end) by reflexivity.
    destruct (scored corpus1_reps corpus2_reps min_tweets target) eqn:Hs;
      unfold scored in Hs.
    + destruct (corpus1_reps !! target) as [X1|]; [| discriminate].
      destruct (corpus2_reps !! target) as [X2|]; [| discriminate].
      apply andb_true_iff in Hs. destruct Hs as [H1 H2].
      apply Z.ltb_lt in H1, H2.
      replace (len X1 <=? min_tweets) with false
        by (symmetry; apply Z.leb_gt; lia).
      replace (len X2 <=? min_tweets) with false
        by (symmetry; apply Z.leb_gt; lia).
      cbn [orb].
      match goal with |- context [fold_left _ targets ?a] =>
        destruct (IH a) as (eu & co & Hl1 & Hl2 & ->)
      end.
      cbn [semantic_change_scores.word semantic_change_scores.Euclidian_APD
           semantic_change_scores.cosine_APD
           semantic_change_scores.combined_APD map].
      rewrite He. do 2 eexists. rewrite <- !app_assoc.
      split; [| split; [| reflexivity]]; simpl; congruence.
    + destruct (IH acc) as (eu & co & Hl1 & Hl2 & Hrun).
      exists eu, co. split; [exact Hl1 |]. split; [exact Hl2 |].
      rewrite <- Hrun. f_equal.
      destruct (corpus1_reps !! target) as [X1|]; [| reflexivity].
      destruct (corpus2_reps !! target) as [X2|]; [| reflexivity].
      apply andb_false_iff in Hs.
      replace ((len X1 <=? min_tweets) || (len X2 <=? min_tweets)) with true;
        [reflexivity |].
      symmetry. apply orb_true_iff.
      destruct Hs as [H | H]; apply Z.ltb_ge in H;
        [left | right]; apply Z.leb_le; lia.
Qed.

End APDTableCopy.

(** The [get_APD_scores] of the second module keeps the same words as the
    first and computes the same [combined_APD] column; its two extra columns
    have one entry per kept word as well, so the four columns line up. *)
Theorem scs_get_APD_scores_agrees :
  forall (apply_PCA : list Np.vec -> Z -> list Np.vec)
         (corpus1_reps corpus2_reps : gmap string (list Np.vec))
         (targets : list string) (dim min_tweets : Z),
    let first := semantic_change.get_APD_scores
                   apply_PCA corpus1_reps corpus2_reps targets dim min_tweets in
    let second := semantic_change_scores.get_APD_scores
                    apply_PCA corpus1_reps corpus2_reps targets dim
                    min_tweets in
    semantic_change_scores.word second = semantic_change.word first
    /\ semantic_change_scores.combined_APD second
       = semantic_change.combined_APD first
    /\ length (semantic_change_scores.Euclidian_APD second)
       = length (semantic_change_scores.word second)
    /\ length (semantic_change_scores.cosine_APD second)
       = length (semantic_change_scores.word second)
    /\ length (semantic_change_scores.combined_APD second)
       = length (semantic_change_scores.word second).
Proof.
  intros apply_PCA c1 c2 targets dim min_tweets first second.
  unfold first, second, semantic_change.get_APD_scores,
    semantic_change_scores.get_APD_scores.
  rewrite (get_APD_scores_from apply_PCA c1 c2 dim min_tweets targets
             {| semantic_change.word := [];
                semantic_change.combined_APD := [] |}).
  destruct (scs_get_APD_scores_from apply_PCA c1 c2 dim min_tweets targets
              {| semantic_change_scores.word := [];
                 semantic_change_scores.Euclidian_APD := [];
                 semantic_change_scores.cosine_APD := [];
                 semantic_change_scores.combined_APD := [] |})
    as (eu & co & Hl1 & Hl2 & ->).
  simpl. repeat split; try congruence. now rewrite length_map.
Qed.
